(** * QR Codes for Everybody: token subsystem, rendering and export pipeline

    A shallow embedding of the backend code that issues and checks edit
    tokens ([utils/crypto]), renders and composites QR images
    ([services/qr-service]) and serves the creation and export routes
    ([routes/qrcodes]), followed by the properties proved about it.

    Conventions.
    - A JavaScript string is modelled by a [string]: the sequence of bytes of
      its UTF-8 encoding.  All the string operations used by the code split,
      search and replace on ASCII patterns, which commute with that encoding.
    - A JavaScript number is modelled by an exact rational ([Q]); results are
      compared with [==].  The geometry of the logo, where rounding decides
      the result, is also modelled over binary64 numbers (modules
      [Binary64] and [Compositor]).
    - Library code that is not part of the repository (the SHA-256 digest,
      [Math.pow], the QR encoder, [fetch], the [sharp] image pipeline, the
      storage layer) appears as a parameter or as the symbolic description of
      the calls the code makes. *)

From Stdlib Require Import ZArith QArith Qround Qpower Qfield Lia Lqa Bool List.
From Stdlib Require Import Ascii String.
From Stdlib Require Import Strings.Byte.
From Stdlib Require Import Floats.SpecFloat.
Import ListNotations.

Local Open Scope string_scope.

(* ================================================================== *)
(** * JavaScript string primitives                                      *)
(* ================================================================== *)

Module JS.

(** The double quote character, and a line feed (template literals). *)
Definition dq : string := String "034"%char EmptyString.
Definition lf : string := String "010"%char EmptyString.

(** [!s] for a value that is a string or [undefined]. *)
Definition falsy (s : option string) : bool :=
  match s with
  | None => true
  | Some EmptyString => true
  | Some _ => false
  end.

(** [s.split(sep)] for a one-character separator: the list is never empty,
    [''.split(':')] is [['']]. *)
Fixpoint split (sep : ascii) (s : string) : list string :=
  match s with
  | EmptyString => [EmptyString]
  | String c s' =>
      if Ascii.eqb c sep then EmptyString :: split sep s'
      else match split sep s' with
           | h :: t => String c h :: t
           | [] => [String c EmptyString]
           end
  end.

(** [s.charAt(i)]: the empty string when [i] is out of range. *)
Definition charAt (s : string) (i : Z) : string :=
  if (i <? 0)%Z then EmptyString
  else match String.get (Z.to_nat i) s with
       | Some c => String c EmptyString
       | None => EmptyString
       end.

(** [s.includes(pat)]. *)
Fixpoint includes (pat s : string) : bool :=
  if String.prefix pat s then true
  else match s with
       | EmptyString => false
       | String _ s' => includes pat s'
       end.

(** Drop the first [n] characters. *)
Fixpoint drop (n : nat) (s : string) : string :=
  match n, s with
  | O, _ => s
  | S k, String _ s' => drop k s'
  | S _, EmptyString => EmptyString
  end.

(** Position of the first occurrence of [pat] in [s], split around it. *)
Fixpoint find (pat s : string) (before : string) : option (string * string) :=
  if String.prefix pat s then Some (before, drop (String.length pat) s)
  else match s with
       | EmptyString => None
       | String c s' => find pat s' (before ++ String c EmptyString)
       end.

(** Expansion of the [$] patterns of a replacement string when the pattern
    is a string (no capture groups): [$$], [$&], [$`] and [$']; any other
    [$] stays as it is. *)
Fixpoint substitution (matched before after repl : string) : string :=
  match repl with
  | String "$" (String "$" r) => String "$" (substitution matched before after r)
  | String "$" (String "&" r) => matched ++ substitution matched before after r
  | String "$" (String "`" r) => before ++ substitution matched before after r
  | String "$" (String "'" r) => after ++ substitution matched before after r
  | String c r => String c (substitution matched before after r)
  | EmptyString => EmptyString
  end.

(** [s.replace(pat, repl)] with a string pattern: the first occurrence
    only. *)
Definition replace (pat repl s : string) : string :=
  match find pat s EmptyString with
  | Some (before, after) =>
      before ++ substitution pat before after repl ++ after
  | None => s
  end.

(** [s.replace(/lit/g, repl)] for a literal pattern and a replacement
    without [$]: every occurrence, left to right, without overlap.  [skip]
    counts the characters of the current match still to be consumed. *)
Fixpoint replaceAll_from (skip : nat) (pat repl s : string) : string :=
  match s with
  | EmptyString => EmptyString
  | String c s' =>
      match skip with
      | S k => replaceAll_from k pat repl s'
      | O =>
          if String.prefix pat s then
            repl ++ replaceAll_from (String.length pat - 1) pat repl s'
          else String c (replaceAll_from O pat repl s')
      end
  end.

Definition replaceAll (pat repl s : string) : string :=
  replaceAll_from O pat repl s.

(** White space removed by [trim]; the strings trimmed by the code end and
    start with ASCII characters, so the ASCII white space suffices. *)
Definition is_space (c : ascii) : bool :=
  let n := nat_of_ascii c in
  (n =? 32)%nat || ((9 <=? n)%nat && (n <=? 13)%nat).

Fixpoint trimStart (s : string) : string :=
  match s with
  | String c s' => if is_space c then trimStart s' else s
  | EmptyString => EmptyString
  end.

Fixpoint trimEnd (s : string) : string :=
  match s with
  | EmptyString => EmptyString
  | String c s' =>
      match trimEnd s' with
      | EmptyString => if is_space c then EmptyString else String c EmptyString
      | t => String c t
      end
  end.

Definition trim (s : string) : string := trimEnd (trimStart s).

(** [x || d] for a number that may be missing: [undefined] and [0] are
    falsy. *)
Definition or_default (x : option Q) (d : Q) : Q :=
  match x with
  | Some v => if Qeq_bool v 0 then d else v
  | None => d
  end.

End JS.

(* ================================================================== *)
(** * Results of calls that may throw, and the ambient state            *)
(* ================================================================== *)

Inductive Outcome (A : Type) : Type :=
| Returned (a : A)
| Thrown (msg : string).
Arguments Returned {A} a.
Arguments Thrown {A} msg.

Definition bindO {A B} (m : Outcome A) (k : A -> Outcome B) : Outcome B :=
  match m with
  | Returned a => k a
  | Thrown msg => Thrown msg
  end.

(** The two sources of randomness of the code: [crypto.randomBytes] and
    [Math.random], each an infinite stream. *)
Record Entropy : Type := mkEntropy {
  secure_bytes : nat -> byte;
  unit_draws : nat -> Q
}.

(** Computations that consume randomness. *)
Definition Rand (A : Type) : Type := Entropy -> A * Entropy.

Definition ret {A} (a : A) : Rand A := fun e => (a, e).
Definition bind {A B} (m : Rand A) (k : A -> Rand B) : Rand B :=
  fun e => let (a, e') := m e in k a e'.

Notation "x <- m ;; k" := (bind m (fun x => k))
  (at level 61, m at next level, right associativity).

(** [crypto.randomBytes(n)]. *)
Definition randomBytes (n : nat) : Rand (list byte) :=
  fun e =>
    (map (secure_bytes e) (seq 0 n),
     mkEntropy (fun i => secure_bytes e (n + i)) (unit_draws e)).

(** [Math.random()]. *)
Definition Math_random : Rand Q :=
  fun e =>
    (unit_draws e O,
     mkEntropy (secure_bytes e) (fun i => unit_draws e (S i))).

(* ================================================================== *)
(** * utils/crypto: edit tokens and slugs                               *)
(* ================================================================== *)

Module Crypto.

(** One hexadecimal digit, lower case, as [Buffer.toString('hex')] writes
    it. *)
Definition hexDigit (n : N) : ascii :=
  match String.get (N.to_nat n) "0123456789abcdef" with
  | Some c => c
  | None => "0"%char
  end.

(** [buf.toString('hex')]. *)
Fixpoint toHex (bs : list byte) : string :=
  match bs with
  | [] => EmptyString
  | b :: rest =>
      String (hexDigit (N.div (Byte.to_N b) 16))
        (String (hexDigit (N.modulo (Byte.to_N b) 16)) (toHex rest))
  end.

Section WithDigest.

(** [createHash('sha256').update(s).digest()]: the 32-byte digest of the
    UTF-8 bytes of [s]. *)
Variable sha256 : string -> list byte.

Definition generateEditToken : Rand string :=
  bytes <- randomBytes 32 ;;
  ret (toHex bytes).

Definition hashEditToken (token : string) : Rand string :=
  saltBytes <- randomBytes 16 ;;
  let salt := toHex saltBytes in
  let hash := toHex (sha256 (salt ++ token)) in
  ret (salt ++ ":" ++ hash).

Definition verifyEditToken (token hashedToken : string) : bool :=
  let parts := JS.split ":"%char hashedToken in
  let salt := nth_error parts 0 in
  let hash := nth_error parts 1 in
  if JS.falsy salt || JS.falsy hash then false
  else
    match salt, hash with
    | Some salt, Some hash =>
        let tokenHash := toHex (sha256 (salt ++ token)) in
        String.eqb tokenHash hash
    | _, _ => false
    end.

(** [process.env.IP_HASH_SALT] in the template [ip + salt]: the text
    [undefined] when the variable is not set. *)
Definition envText (v : option string) : string :=
  match v with
  | Some s => s
  | None => "undefined"
  end.

(** [hashIP]; [+] binds tighter than [||], so the default applies to the
    concatenation. *)
Definition hashIP (IP_HASH_SALT : option string) (ip : string) : string :=
  let joined := ip ++ envText IP_HASH_SALT in
  let input :=
    match joined with
    | EmptyString => "default-salt"
    | _ => joined
    end in
  toHex (sha256 input).

End WithDigest.

Definition chars : string :=
  "ABCDEFGHIJKLMNOPQRSTUVWXYZabcdefghijklmnopqrstuvwxyz0123456789".

(** The loop of [generateSlug], [n] iterations left. *)
Fixpoint generateSlug_loop (n : nat) (result : string) : Rand string :=
  match n with
  | O => ret result
  | S k =>
      x <- Math_random ;;
      let i := Qfloor (x * inject_Z (Z.of_nat (String.length chars))) in
      generateSlug_loop k (result ++ JS.charAt chars i)
  end.

Definition generateSlug : Rand string := generateSlug_loop 9 EmptyString.

End Crypto.

(* ================================================================== *)
(** * services/qr-service: rendering, compositing, contrast            *)
(* ================================================================== *)

Module QRService.

Record Gradient : Type := mkGradient {
  from : string;
  to : string
}.

Inductive ECLevel : Type := EC_L | EC_M | EC_Q | EC_H.

(** The options object the service receives.  At run time it is the stored
    JSON of the record spread under the requested [size], so every style
    field may be missing: [None] is [undefined] ([rounded] is only tested
    for truthiness, [false] covers both). *)
Record QROptions : Type := mkQROptions {
  size : Q;
  color : option string;
  background : option string;
  gradient : option Gradient;
  rounded : bool;
  logoScale : option Q;
  errorCorrection : option ECLevel
}.

(** The configuration handed to the QR encoder. *)
Record QRCodeConfig : Type := mkQRCodeConfig {
  cfg_type : string;
  cfg_width : Q;
  cfg_margin : Z;
  cfg_dark : option string;
  cfg_light : option string;
  cfg_errorCorrectionLevel : option ECLevel
}.

(** The calls made to the [sharp] image pipeline, kept symbolically: what
    the bytes of the result are is [sharp]'s business.  [Solid] is a layer
    created from a flat colour ([create: {width, height, background}]); it is
    what a bezel would be. *)
Inductive Image : Type :=
| RawBuffer (bytes : string)
| Solid (width height : Z) (fill : string)
| Png (src : Image) (quality : option Z)
| Jpeg (src : Image) (quality : Z)
| ResizeInside (src : Image) (width height : Z)
| Composite (base : Image) (layers : list Layer)
with Layer : Type :=
| mkLayer (input : Image) (top left : Z).

Definition layer_input (l : Layer) : Image :=
  match l with mkLayer i _ _ => i end.
Definition layer_top (l : Layer) : Z :=
  match l with mkLayer _ t _ => t end.
Definition layer_left (l : Layer) : Z :=
  match l with mkLayer _ _ x => x end.

Record FetchResponse : Type := mkFetchResponse {
  ok : bool;
  statusText : string;
  body : string
}.

Record RGB : Type := mkRGB { r : Z; g : Z; b : Z }.

Record ContrastResult : Type := mkContrastResult {
  valid : bool;
  ratio : option Q
}.

(** ** Markup helpers *)

(** [name="value"]. *)
Definition attr (name value : string) : string :=
  name ++ "=" ++ JS.dq ++ value ++ JS.dq.

(** The template literal [gradientDef] of [applyGradient]. *)
Definition gradientDef (gradient : Gradient) : string :=
  JS.lf ++
  "      <defs>" ++ JS.lf ++
  "        <linearGradient " ++ attr "id" "qrGradient" ++ " " ++
     attr "x1" "0%" ++ " " ++ attr "y1" "0%" ++ " " ++
     attr "x2" "100%" ++ " " ++ attr "y2" "100%" ++ ">" ++ JS.lf ++
  "          <stop " ++ attr "offset" "0%" ++ " " ++
     attr "style" ("stop-color:" ++ from gradient ++ ";stop-opacity:1") ++
     " />" ++ JS.lf ++
  "          <stop " ++ attr "offset" "100%" ++ " " ++
     attr "style" ("stop-color:" ++ to gradient ++ ";stop-opacity:1") ++
     " />" ++ JS.lf ++
  "        </linearGradient>" ++ JS.lf ++
  "      </defs>" ++ JS.lf ++
  "    ".

Definition applyGradient (svg : string) (gradient : Gradient) : string :=
  let def := gradientDef gradient in
  let inner := JS.trim (JS.replace "</defs>" EmptyString (JS.replace "<defs" EmptyString def)) in
  let svg1 := JS.replace "<svg" ("<svg " ++ inner) svg in
  let svg2 :=
    JS.replaceAll (attr "fill" "#000000") (attr "fill" "url(#qrGradient)") svg1 in
  JS.replaceAll "fill='#000000'" "fill='url(#qrGradient)'" svg2.

(** ** The pattern of [applyRoundedCorners] *)

Definition is_digit (c : ascii) : bool :=
  let n := nat_of_ascii c in (48 <=? n)%nat && (n <=? 57)%nat.

(** The longest run of digits at the head of [s], and what follows. *)
Fixpoint span_digits (s : string) : string * string :=
  match s with
  | String c s' =>
      if is_digit c then
        let (ds, rest) := span_digits s' in (String c ds, rest)
      else (EmptyString, s)
  | EmptyString => (EmptyString, EmptyString)
  end.

Definition strip_prefix (p s : string) : option string :=
  if String.prefix p s then Some (JS.drop (String.length p) s) else None.

(** A match of [rect width="([0-9]+)" height="([0-9]+)"] at the head of
    [s]: the two groups and the length of the match. *)
Definition match_rect (s : string) : option (string * string * nat) :=
  match strip_prefix ("rect width=" ++ JS.dq) s with
  | None => None
  | Some r1 =>
      let (w, r2) := span_digits r1 in
      match w, strip_prefix (JS.dq ++ " height=" ++ JS.dq) r2 with
      | String _ _, Some r3 =>
          let (h, r4) := span_digits r3 in
          match h, strip_prefix JS.dq r4 with
          | String _ _, Some _ =>
              Some (w, h, (12 + String.length w + 10 + String.length h + 1)%nat)
          | _, _ => None
          end
      | _, _ => None
      end
  end.

(** The replacement [rect width="$1" height="$2" rx="2" ry="2"]. *)
Definition rounded_rect (w h : string) : string :=
  "rect " ++ attr "width" w ++ " " ++ attr "height" h ++ " " ++
  attr "rx" "2" ++ " " ++ attr "ry" "2".

Fixpoint roundAll_from (skip : nat) (s : string) : string :=
  match s with
  | EmptyString => EmptyString
  | String c s' =>
      match skip with
      | S k => roundAll_from k s'
      | O =>
          match match_rect s with
          | Some (w, h, len) => rounded_rect w h ++ roundAll_from (len - 1) s'
          | None => String c (roundAll_from O s')
          end
      end
  end.

Definition applyRoundedCorners (svg : string) : string := roundAll_from O svg.

(** ** Contrast *)

Definition hexValue (c : ascii) : option Z :=
  let n := Z.of_nat (nat_of_ascii c) in
  if ((48 <=? n) && (n <=? 57))%Z then Some (n - 48)%Z
  else if ((97 <=? n) && (n <=? 102))%Z then Some (n - 87)%Z
  else if ((65 <=? n) && (n <=? 70))%Z then Some (n - 55)%Z
  else None.

(** [parseInt(xy, 16)] for two hexadecimal digits. *)
Definition parseHexPair (x y : ascii) : option Z :=
  match hexValue x, hexValue y with
  | Some a, Some b => Some (16 * a + b)%Z
  | _, _ => None
  end.

(** The inner function [rgb] of [validateContrast]: the pattern
    [/^#?([a-f\d]{2})([a-f\d]{2})([a-f\d]{2})$/i]. *)
Definition rgb (hex : string) : option RGB :=
  let digits :=
    match hex with
    | String c rest => if Ascii.eqb c "#" then rest else hex
    | EmptyString => hex
    end in
  match digits with
  | String r1 (String r2 (String g1 (String g2 (String b1 (String b2
      EmptyString))))) =>
      match parseHexPair r1 r2, parseHexPair g1 g2, parseHexPair b1 b2 with
      | Some r, Some g, Some b => Some (mkRGB r g b)
      | _, _, _ => None
      end
  | _ => None
  end.

Definition Qmax (x y : Q) : Q := if Qle_bool x y then y else x.
Definition Qmin (x y : Q) : Q := if Qle_bool x y then x else y.

Section WithLibraries.

(** [Math.pow]. *)
Variable Math_pow : Q -> Q -> Q.

(** [new QRCode(data, config).toString()]; a [None] for the data is the
    [null] that the export route's non-null assertion lets through. *)
Variable QRCode_toString : option string -> QRCodeConfig -> Outcome string.

(** [fetch(url)]. *)
Variable fetch : string -> Outcome FetchResponse.

Definition channel (v : Z) : Q :=
  let val := inject_Z v / 255 in
  if Qle_bool val 0.03928 then val / 12.92
  else Math_pow ((val + 0.055) / 1.055) 2.4.

Definition luminance (c : RGB) : Q :=
  0.2126 * channel (r c) + 0.7152 * channel (g c) + 0.0722 * channel (b c).

Definition validateContrast (color background : string) : ContrastResult :=
  match rgb color, rgb background with
  | Some c1, Some c2 =>
      let l1 := luminance c1 in
      let l2 := luminance c2 in
      let ratio := (Qmax l1 l2 + 0.05) / (Qmin l1 l2 + 0.05) in
      mkContrastResult (Qle_bool 4.5 ratio) (Some ratio)
  | _, _ => mkContrastResult false None
  end.

Definition generateSVG (data : option string) (options : QROptions)
  : Outcome Image :=
  bindO (QRCode_toString data
           (mkQRCodeConfig "svg" (size options) 4 (color options)
              (background options) (errorCorrection options)))
    (fun svg =>
       let svg :=
         match gradient options with
         | Some gr => applyGradient svg gr
         | None => svg
         end in
       let svg := if rounded options then applyRoundedCorners svg else svg in
       Returned (RawBuffer svg)).

(** The logo step with the numbers of the options taken as exact
    rationals and a [sharp] that accepts what it is given; the module
    [Compositor] below has the step over binary64 numbers, with the
    failures of [sharp]. *)
Definition fetchLogo (url : string) (size : Z) : Outcome Image :=
  bindO (fetch url)
    (fun response =>
       if negb (ok response) then
         Thrown ("Failed to fetch logo: " ++ statusText response)
       else
         Returned (Png (ResizeInside (RawBuffer (body response)) size size) None)).

Definition compositeLogo (qrBuffer : Image) (options : QROptions)
  (logoUrl : string) : Outcome Image :=
  let logoSize := Qfloor (size options * JS.or_default (logoScale options) 0.2) in
  match fetchLogo logoUrl logoSize with
  | Returned logoBuffer =>
      Returned
        (Png
           (Composite qrBuffer
              [mkLayer logoBuffer
                 (Qfloor ((size options - inject_Z logoSize) / 2))
                 (Qfloor ((size options - inject_Z logoSize) / 2))])
           None)
  | Thrown _ => Thrown "Failed to composite logo onto QR code"
  end.

Definition generatePNG (data : option string) (options : QROptions)
  (logoUrl : option string) : Outcome Image :=
  bindO (generateSVG data options)
    (fun svgBuffer =>
       let pngBuffer := Png svgBuffer (Some 90%Z) in
       match logoUrl with
       | Some (String c u) => compositeLogo pngBuffer options (String c u)
       | _ => Returned pngBuffer
       end).

Definition generateJPEG (data : option string) (options : QROptions)
  (logoUrl : option string) : Outcome Image :=
  bindO (generatePNG data options logoUrl)
    (fun pngBuffer => Returned (Jpeg pngBuffer 90)).

End WithLibraries.

End QRService.

(* ================================================================== *)
(** * Numbers as the run time holds them, and the compositing step      *)
(** * over them                                                         *)
(* ================================================================== *)

Module Binary64.

(** A JavaScript number is an IEEE 754 binary64 value.  The operations are
    those of the reference implementation of the standard library at
    precision 53 and maximal exponent 1024, which round to nearest, ties to
    even. *)
Definition prec : Z := 53.
Definition emax : Z := 1024.

Definition float64 : Type := spec_float.

Definition mul : float64 -> float64 -> float64 := SFmul prec emax.
Definition sub : float64 -> float64 -> float64 := SFsub prec emax.
Definition div : float64 -> float64 -> float64 := SFdiv prec emax.

(** [x <= y] on numbers; false as soon as one of them is NaN. *)
Definition leb : float64 -> float64 -> bool := SFleb.

(** The number that holds an integer. *)
Definition of_Z (n : Z) : float64 := binary_normalize prec emax n 0 false.

(** The number a decimal literal or a JSON number denotes: the quotient of
    its numerator by its denominator, rounded once. *)
Definition number (q : Q) : float64 :=
  match Qnum q with
  | Z0 => S754_zero false
  | Zpos a => div (S754_finite false a 0) (S754_finite false (Qden q) 0)
  | Zneg a => div (S754_finite true a 0) (S754_finite false (Qden q) 0)
  end.

(** [Math.floor]. *)
Definition floor (x : float64) : float64 :=
  match x with
  | S754_finite s m e =>
      if (0 <=? e)%Z then x
      else of_Z ((if s then Z.neg m else Z.pos m) / 2 ^ (- e))
  | _ => x
  end.

(** Truthiness of a number: all but 0, -0 and NaN. *)
Definition truthy (x : float64) : bool :=
  match x with
  | S754_zero _ | S754_nan => false
  | _ => true
  end.

(** [x || d] for an optional number. *)
Definition or_default (x : option float64) (d : float64) : float64 :=
  match x with
  | Some v => if truthy v then v else d
  | None => d
  end.

(** The rational a finite number is. *)
Definition value (x : float64) : option Q :=
  match x with
  | S754_zero _ => Some 0%Q
  | S754_finite s m e =>
      Some (inject_Z (if s then Z.neg m else Z.pos m) * 2 ^ e)%Q
  | _ => None
  end.

(** The integer a number is, if it is one. *)
Definition to_Z (x : float64) : option Z :=
  match value x with
  | Some q => if Qeq_bool (inject_Z (Qfloor q)) q then Some (Qfloor q) else None
  | None => None
  end.

End Binary64.

Module Compositor.

Import Binary64.

(** The calls made to the [sharp] pipeline, with the numbers handed to it
    as they are.  [Create] is an image created from a flat colour
    ([create: {width, height, background}]); it is what a bezel would be. *)
Inductive Raster : Type :=
| Buffer (bytes : string)
| Create (width height : float64) (background : string)
| ResizeInside (src : Raster) (width height : float64)
| Composite (base : Raster) (layers : list Overlay)
| Png (src : Raster)
with Overlay : Type :=
| mkOverlay (input : Raster) (top left : float64).

Definition overlay_input (l : Overlay) : Raster :=
  match l with mkOverlay i _ _ => i end.

Section WithLibraries.

(** [fetch(url)], with the bytes [response.arrayBuffer()] gives. *)
Variable fetch : string -> Outcome QRService.FetchResponse.

(** The error [toBuffer()] rejects a pipeline with, if it does: [sharp]
    rejects bytes it cannot decode, dimensions it does not accept and an
    overlay larger than its base. *)
Variable toBuffer_error : Raster -> option string.

(** [pipeline.toBuffer()]: the bytes of an accepted pipeline are kept as
    the description of the calls that made them. *)
Definition toBuffer (pipeline : Raster) : Outcome Raster :=
  match toBuffer_error pipeline with
  | Some message => Thrown message
  | None => Returned pipeline
  end.

Definition fetchLogo (url : string) (size : float64) : Outcome Raster :=
  bindO (fetch url)
    (fun response =>
       if negb (QRService.ok response) then
         Thrown ("Failed to fetch logo: " ++ QRService.statusText response)
       else
         toBuffer (Png (ResizeInside (Buffer (QRService.body response)) size size))).

(** The options hold the numbers of the request and of the stored JSON;
    the run time reads each as a binary64 number.  Whatever is thrown
    inside the [try], by the fetch or by [sharp], is replaced by the one
    error of the [catch]. *)
Definition compositeLogo (qrBuffer : Raster) (options : QRService.QROptions)
  (logoUrl : string) : Outcome Raster :=
  let size := number (QRService.size options) in
  let logoSize :=
    floor (mul size
             (or_default (option_map number (QRService.logoScale options))
                (number 0.2))) in
  let attempt :=
    bindO (fetchLogo logoUrl logoSize)
      (fun logoBuffer =>
         toBuffer
           (Png (Composite qrBuffer
                   [mkOverlay logoBuffer
                      (floor (div (sub size logoSize) (number 2)))
                      (floor (div (sub size logoSize) (number 2)))]))) in
  match attempt with
  | Returned buffer => Returned buffer
  | Thrown _ => Thrown "Failed to composite logo onto QR code"
  end.

End WithLibraries.

End Compositor.

(* ================================================================== *)
(** * routes/qrcodes: creation and export                               *)
(* ================================================================== *)

Module Routes.

Import QRService.

Inductive QRMode : Type := EMBED | REDIRECT.

(** The style fields of an options object as it is stored with a record:
    [options || {}], so every field may be missing.  The stored [size] is
    left out: the only reader, the export route, overrides it. *)
Record StoredOptions : Type := mkStoredOptions {
  st_color : option string;
  st_background : option string;
  st_gradient : option Gradient;
  st_rounded : bool;
  st_logoScale : option Q;
  st_errorCorrection : option ECLevel
}.

Definition emptyOptions : StoredOptions :=
  mkStoredOptions None None None false None None.

(** [{ ...stored, size }]. *)
Definition withSize (o : StoredOptions) (size : Q) : QROptions :=
  mkQROptions size (st_color o) (st_background o) (st_gradient o)
    (st_rounded o) (st_logoScale o) (st_errorCorrection o).

Record QRRow : Type := mkQRRow {
  id : string;
  slug : string;
  mode : QRMode;
  content : string;
  targetUrl : option string;
  options : StoredOptions;
  logoUrl : option string;
  ownerEditTokenHash : string
}.

Record CreateQRRequest : Type := mkCreateQRRequest {
  req_mode : QRMode;
  req_content : string;
  req_options : option StoredOptions;
  req_logo : option string
}.

Record CreateQRResponse : Type := mkCreateQRResponse {
  res_id : string;
  res_slug : string;
  res_editToken : string;
  res_publicUrl : string;
  res_managementUrl : string
}.

(** The [error] field of a failure body: a fixed text, [undefined] (a
    validation result without message), or the contrast message, whose only
    variable part is the ratio. *)
Inductive ErrorText : Type :=
| Message (text : string)
| NoMessage
| ContrastTooLow (ratio : option Q).

Inductive Payload : Type :=
| Failure (error : ErrorText)
| Success (data : CreateQRResponse)
| Binary (buffer : Image).

Record Response : Type := mkResponse {
  status : Z;
  headers : list (string * string);
  payload : Payload
}.

(** [reply.status(code).send({ success: false, error })]. *)
Definition fail (code : Z) (error : ErrorText) : Response :=
  mkResponse code [] (Failure error).

(** The outcome of the logo block of the creation route
    ([s3Service.validateFile], [generateKey], [uploadFile]). *)
Inductive LogoStep : Type :=
| LogoInvalid (error : ErrorText)
| LogoStored (url : string)
| LogoFailed (msg : string).

(** What the handlers see of the outside: the random sources, the table of
    records and the identifiers the storage layer will hand out. *)
Record World : Type := mkWorld {
  entropy : Entropy;
  table : list QRRow;
  new_ids : nat -> string
}.

Definition slug_taken (rows : list QRRow) (s : string) : bool :=
  existsb (fun row => String.eqb (slug row) s) rows.

(** Modelled from the spec: the schema of the storage collaborator is not
    part of the sources; per the data model it "enforces" that a slug is
    unique among all records.  [prisma.qRCode.create] therefore throws when
    the slug is already present and appends the record otherwise. *)
Definition prisma_create (w : World) (row : string -> QRRow)
  : Outcome (QRRow * World) :=
  let fresh := row (new_ids w O) in
  if slug_taken (table w) (slug fresh) then
    Thrown "Unique constraint failed on the fields: (`slug`)"
  else
    Returned (fresh,
              mkWorld (entropy w) (table w ++ [fresh])
                (fun i => new_ids w (S i))).

(** [prisma.qRCode.findUnique({ where: { id } })]. *)
Definition prisma_findUnique (rows : list QRRow) (i : string) : option QRRow :=
  List.find (fun row => String.eqb (id row) i) rows.

(** A string that is present and not empty. *)
Definition truthy (s : option string) : option string :=
  match s with
  | Some (String c s') => Some (String c s')
  | _ => None
  end.

Section WithCollaborators.

Variable sha256 : string -> list byte.
Variable Math_pow : Q -> Q -> Q.
Variable QRCode_toString : option string -> QRCodeConfig -> Outcome string.
Variable fetch : string -> Outcome FetchResponse.

(** The logo block of the creation route; it may draw from [Math.random]
    ([generateKey]). *)
Variable uploadLogo : string -> Rand LogoStep.

(** [process.env.BASE_URL], as it prints in a template literal. *)
Variable BASE_URL : string.

(** The contrast check at the head of the creation route. *)
Definition contrastRejection (o : option StoredOptions) : option Response :=
  match o with
  | None => None
  | Some o =>
      match truthy (st_color o), truthy (st_background o) with
      | Some c, Some bg =>
          let contrast := validateContrast Math_pow c bg in
          if negb (valid contrast) then
            Some (fail 400 (ContrastTooLow (ratio contrast)))
          else None
      | _, _ => None
      end
  end.

(** POST /api/qrcodes, from "Generate unique identifiers" on: the
    identifiers, the target URL, the record and the reply. *)
Definition issue (req : CreateQRRequest) (logoUrl : option string) (w : World)
  : Response * World :=
  let (slug, e1) := Crypto.generateSlug (entropy w) in
  let (editToken, e2) := Crypto.generateEditToken e1 in
  let (editTokenHash, e3) := Crypto.hashEditToken sha256 editToken e2 in
  let w3 := mkWorld e3 (table w) (new_ids w) in
  let targetUrl :=
    match req_mode req with
    | REDIRECT => Some (BASE_URL ++ "/r/" ++ slug)
    | EMBED => None
    end in
  let stored :=
    match req_options req with Some o => o | None => emptyOptions end in
  match prisma_create w3
          (fun i => mkQRRow i slug (req_mode req) (req_content req)
                      targetUrl stored logoUrl editTokenHash) with
  | Thrown _ => (fail 500 (Message "Internal server error"), w3)
  | Returned (qrCode, w4) =>
      let publicUrl :=
        match req_mode req with
        | REDIRECT => BASE_URL ++ "/r/" ++ slug
        | EMBED =>
            BASE_URL ++ "/api/qrcodes/" ++ id qrCode ++ "/export?format=svg"
        end in
      let managementUrl :=
        BASE_URL ++ "/manage/" ++ slug ++ "?token=" ++ editToken in
      (mkResponse 201 []
         (Success (mkCreateQRResponse (id qrCode) slug editToken
                     publicUrl managementUrl)),
       w4)
  end.

(** POST /api/qrcodes. *)
Definition createHandler (req : CreateQRRequest) (w : World)
  : Response * World :=
  match contrastRejection (req_options req) with
  | Some rejection => (rejection, w)
  | None =>
      match truthy (req_logo req) with
      | None => issue req None w
      | Some logo =>
          let (logoStep, e1) := uploadLogo logo (entropy w) in
          let w1 := mkWorld e1 (table w) (new_ids w) in
          match logoStep with
          | LogoInvalid error => (fail 400 error, w1)
          | LogoFailed _ => (fail 500 (Message "Internal server error"), w1)
          | LogoStored url => issue req (Some url) w1
          end
      end
  end.

(** GET /api/qrcodes/:id/export. *)
Definition exportHandler (rows : list QRRow) (i format : string) (size : Q)
  : Response :=
  match prisma_findUnique rows i with
  | None => fail 404 (Message "QR code not found")
  | Some qrCode =>
      let data :=
        match mode qrCode with
        | REDIRECT => targetUrl qrCode
        | EMBED => Some (content qrCode)
        end in
      let options := withSize (options qrCode) size in
      let rendered : option (Outcome Image * string) :=
        if String.eqb format "svg" then
          Some (generateSVG QRCode_toString data options, "image/svg+xml")
        else if String.eqb format "png" then
          Some (generatePNG QRCode_toString fetch data options
                  (truthy (logoUrl qrCode)), "image/png")
        else if String.eqb format "jpeg" then
          Some (generateJPEG QRCode_toString fetch data options
                  (truthy (logoUrl qrCode)), "image/jpeg")
        else None in
      match rendered with
      | None => fail 400 (Message "Invalid format. Use png, jpeg, or svg.")
      | Some (Thrown _, _) => fail 500 (Message "Internal server error")
      | Some (Returned buffer, contentType) =>
          mkResponse 200
            [("Content-Type", contentType);
             ("Cache-Control", "public, max-age=3600")]
            (Binary buffer)
      end
  end.

End WithCollaborators.

End Routes.

(* ================================================================== *)
(** * services/s3-service and routes/upload                             *)
(* ================================================================== *)

Module S3.

Record Validation : Type := mkValidation {
  valid : bool;
  error : option string
}.

Definition maxSize : Z := 5 * 1024 * 1024.

Definition allowedTypes : list string :=
  ["image/jpeg"; "image/png"; "image/webp"].

(** [allowedTypes.includes(contentType)]. *)
Definition includes (l : list string) (x : string) : bool :=
  existsb (String.eqb x) l.

(** [validateFile]; the buffer is the string of its bytes. *)
Definition validateFile (buffer contentType : string) : Validation :=
  if (Z.of_nat (String.length buffer) >? maxSize)%Z then
    mkValidation false (Some "File size exceeds 5MB limit")
  else if negb (includes allowedTypes contentType) then
    mkValidation false (Some "File type not supported. Use JPEG, PNG, or WebP.")
  else mkValidation true None.

(** [generateKey]; [timestamp] is the decimal text of [Date.now()] and
    [random] the text of [Math.random().toString(36).substring(2)]. *)
Definition generateKey (timestamp random prefix filename extension : string)
  : string :=
  prefix ++ "/" ++ timestamp ++ "-" ++ random ++ "-" ++ filename ++ extension.

End S3.

Module Upload.

(** The multipart file of the request. *)
Record File : Type := mkFile {
  filename : option string;
  mimetype : string;
  buffer : string
}.

Inductive Body : Type :=
| Failed (error : option string)
| Stored (tempUrl : string) (expiresAt : Z).

Record Reply : Type := mkReply {
  status : Z;
  body : Body
}.

(** No [/] and no [.] in the string. *)
Fixpoint plain_suffix (s : string) : bool :=
  match s with
  | EmptyString => true
  | String c s' =>
      negb (Ascii.eqb c "/") && negb (Ascii.eqb c ".") && plain_suffix s'
  end.

(** [filename.replace(/\.[^/.]+$/, '')]: the last extension is cut off. *)
Fixpoint stripExtension (s : string) : string :=
  match s with
  | EmptyString => EmptyString
  | String c s' =>
      if Ascii.eqb c "." &&
         match s' with EmptyString => false | _ => plain_suffix s' end
      then EmptyString
      else String c (stripExtension s')
  end.

(** [contentType.split('/')[1] || 'bin']. *)
Definition extensionOf (contentType : string) : string :=
  match JS.falsy (nth_error (JS.split "/" contentType) 1),
        nth_error (JS.split "/" contentType) 1 with
  | false, Some e => e
  | _, _ => "bin"
  end.

Section WithStorage.

(** [s3Service.uploadFile(buffer, key, contentType)]. *)
Variable uploadFile : string -> string -> string -> Outcome string.

(** POST /api/upload-temp; [now] is [Date.now()], [timestamp] and [random]
    are the two variable parts of the generated key. *)
Definition uploadHandler (now : Z) (timestamp random : string)
  (data : option File) : Reply :=
  match data with
  | None => mkReply 400 (Failed (Some "No file provided"))
  | Some data =>
      let validation := S3.validateFile (buffer data) (mimetype data) in
      if negb (S3.valid validation) then
        mkReply 400 (Failed (S3.error validation))
      else
        let filename :=
          match filename data with
          | Some (String c f) => String c f
          | _ => "upload"
          end in
        let extension := extensionOf (mimetype data) in
        let key :=
          S3.generateKey timestamp random "temp" (stripExtension filename)
            ("." ++ extension) in
        match uploadFile (buffer data) key (mimetype data) with
        | Thrown _ => mkReply 500 (Failed (Some "Failed to upload file"))
        | Returned tempUrl =>
            mkReply 200 (Stored tempUrl (now + 24 * 60 * 60 * 1000))
        end
  end.

End WithStorage.

End Upload.

(* ================================================================== *)
(** * The records with their state, the management routes and the      *)
(** * redirect route                                                    *)
(* ================================================================== *)

Module Store.

Import Routes.

(** A record with the fields the management and redirect routes read or
    write besides those set at creation. *)
Record QRCodeRecord : Type := mkQRCodeRecord {
  row : QRRow;
  active : bool;
  scanCount : Z;
  lastScannedAt : option Z
}.

(** A scan, with the fields the redirect route supplies. *)
Record Scan : Type := mkScan {
  qrcodeId : string;
  ipHash : option string;
  userAgent : option string;
  referer : option string
}.

Record DB : Type := mkDB {
  codes : list QRCodeRecord;
  scans : list Scan
}.

(** [findUnique({ where: { id } })] and [findUnique({ where: { slug } })]. *)
Definition findById (rows : list QRCodeRecord) (i : string)
  : option QRCodeRecord :=
  List.find (fun c => String.eqb (id (row c)) i) rows.

Definition findBySlug (rows : list QRCodeRecord) (s : string)
  : option QRCodeRecord :=
  List.find (fun c => String.eqb (slug (row c)) s) rows.

(** [update({ where: { id }, data })]: the record selected by [id] is
    replaced by [f] of it. *)
Fixpoint updateById (rows : list QRCodeRecord) (i : string)
  (f : QRCodeRecord -> QRCodeRecord) : list QRCodeRecord :=
  match rows with
  | [] => []
  | c :: rest =>
      if String.eqb (id (row c)) i then f c :: rest
      else c :: updateById rest i f
  end.

(** [delete({ where: { id } })]: the record selected by [id] is removed. *)
Fixpoint deleteById (rows : list QRCodeRecord) (i : string)
  : list QRCodeRecord :=
  match rows with
  | [] => []
  | c :: rest =>
      if String.eqb (id (row c)) i then rest
      else c :: deleteById rest i
  end.

End Store.

Module Management.

Import QRService Routes Store.

Record UpdateQRRequest : Type := mkUpdateQRRequest {
  up_mode : option QRMode;
  up_content : option string;
  up_targetUrl : option string;
  up_options : option StoredOptions;
  up_active : option bool
}.

Inductive Body : Type :=
| Empty
| Error (error : ErrorText)
| Data (code : QRCodeRecord)
| DataWithScans (code : QRCodeRecord) (scans : list Scan).

Record Reply : Type := mkReply {
  status : Z;
  body : Body
}.

Definition refuse (code : Z) (text : string) : Reply :=
  mkReply code (Error (Message text)).

Definition orElse {A} (x : option A) (d : A) : A :=
  match x with Some v => v | None => d end.

(** The record after [update({ data: updates })]: the fields present in
    [updates] replace the stored ones. *)
Definition applyUpdates (u : UpdateQRRequest) (c : QRCodeRecord)
  : QRCodeRecord :=
  let r := row c in
  mkQRCodeRecord
    (mkQRRow (id r) (slug r)
       (orElse (up_mode u) (mode r))
       (orElse (up_content u) (content r))
       (match up_targetUrl u with Some t => Some t | None => targetUrl r end)
       (orElse (up_options u) (options r))
       (logoUrl r) (ownerEditTokenHash r))
    (orElse (up_active u) (active c))
    (scanCount c) (lastScannedAt c).

(** [verifyEditToken] as the routes file resolves it.  The file imports
    four names from the crypto utilities ([generateEditToken],
    [hashEditToken], [generateSlug], [hashIP]); [verifyEditToken] is not
    among them and is declared nowhere in the file, so evaluating the call
    throws a [ReferenceError], whatever the arguments. *)
Definition verifyEditToken (token hashedToken : string) : Outcome bool :=
  Thrown "verifyEditToken is not defined".

Section WithCollaborators.

Variable Math_pow : Q -> Q -> Q.

(** The scans included by the metadata route: the latest hundred of the
    record, newest first (a query of the storage layer). *)
Variable recentScans : list Scan -> string -> list Scan.

(** The logo clean-up of the delete route: the key is taken from the URL
    and [s3Service.deleteFile] is called; either step may throw. *)
Variable deleteLogo : string -> Outcome unit.

(** The three checks every management route starts with; [inl] is the
    reply that ends the request there.  The checks sit inside the [try]
    of the handler, whose [catch] answers 500. *)
Definition authorize (db : DB) (i : string) (editToken : option string)
  : Reply + QRCodeRecord :=
  match truthy editToken with
  | None => inl (refuse 401 "Edit token required")
  | Some token =>
      match findById (codes db) i with
      | None => inl (refuse 404 "QR code not found")
      | Some qrCode =>
          match verifyEditToken token (ownerEditTokenHash (row qrCode)) with
          | Thrown _ => inl (refuse 500 "Internal server error")
          | Returned verified =>
              if negb verified then inl (refuse 401 "Invalid edit token")
              else inr qrCode
          end
      end
  end.

(** GET /api/qrcodes/:id; the token comes from the [x-edit-token] header
    or else from the query. *)
Definition getHandler (db : DB) (i : string)
  (header query : option string) : Reply :=
  let editToken :=
    match truthy header with Some t => Some t | None => query end in
  match authorize db i editToken with
  | inl refusal => refusal
  | inr qrCode =>
      mkReply 200 (DataWithScans qrCode (recentScans (scans db) i))
  end.

(** PATCH /api/qrcodes/:id. *)
Definition patchHandler (db : DB) (i : string) (header : option string)
  (updates : UpdateQRRequest) : Reply * DB :=
  match authorize db i header with
  | inl refusal => (refusal, db)
  | inr existingQR =>
      match contrastRejection Math_pow (up_options updates) with
      | Some rejection =>
          (mkReply (Routes.status rejection)
             (match payload rejection with
              | Failure e => Error e
              | _ => Empty
              end), db)
      | None =>
          let codes' := updateById (codes db) i (applyUpdates updates) in
          (mkReply 200 (Data (applyUpdates updates existingQR)),
           mkDB codes' (scans db))
      end
  end.

(** POST /api/qrcodes/:id/pause. *)
Definition pauseHandler (db : DB) (i : string) (header : option string)
  : Reply * DB :=
  match authorize db i header with
  | inl refusal => (refusal, db)
  | inr existingQR =>
      let toggle c :=
        mkQRCodeRecord (row c) (negb (active existingQR)) (scanCount c)
          (lastScannedAt c) in
      (mkReply 200 (Data (toggle existingQR)),
       mkDB (updateById (codes db) i toggle) (scans db))
  end.

(** DELETE /api/qrcodes/:id; the scans of the record go with it ("cascades
    to scans"). *)
Definition deleteHandler (db : DB) (i : string) (header : option string)
  : Reply * DB :=
  match authorize db i header with
  | inl refusal => (refusal, db)
  | inr existingQR =>
      let cleaned :=
        match truthy (logoUrl (row existingQR)) with
        | Some url => deleteLogo url
        | None => Returned tt
        end in
      match cleaned with
      | Thrown _ => (refuse 500 "Internal server error", db)
      | Returned _ =>
          (mkReply 204 Empty,
           mkDB (deleteById (codes db) i)
             (filter (fun s => negb (String.eqb (qrcodeId s) i)) (scans db)))
      end
  end.

End WithCollaborators.

End Management.

Module Redirect.

Import Routes Store.

(** The table [map] of [escapeHtml]. *)
Definition entity (m : ascii) : option string :=
  if Ascii.eqb m "&" then Some "&amp;"
  else if Ascii.eqb m "<" then Some "&lt;"
  else if Ascii.eqb m ">" then Some "&gt;"
  else if Ascii.eqb m "034" then Some "&quot;"
  else if Ascii.eqb m "'" then Some "&#039;"
  else None.

(** [text.replace(re, m => map[m])], where the global pattern [re] matches
    any one of the five characters of the table. *)
Fixpoint escapeHtml (text : string) : string :=
  match text with
  | EmptyString => EmptyString
  | String c rest =>
      match entity c with
      | Some e => e ++ escapeHtml rest
      | None => String c (escapeHtml rest)
      end
  end.

(** The pages of the redirect route; their markup is fixed but for the
    content shown by the third. *)
Inductive Page : Type :=
| NotFoundPage
| PausedPage
| ContentPage (escaped : string)
| UnavailablePage.

Inductive Reply : Type :=
| Html (status : Z) (page : Page)
| Redirection (status : Z) (location : string).

Section WithDigest.

Variable sha256 : string -> list byte.
Variable IP_HASH_SALT : option string.

(** GET /r/:slug; [ip] is [request.ip], [now] is [new Date()]. *)
Definition redirectHandler (db : DB) (now : Z) (slug : string)
  (ip forwardedFor userAgent referer : option string) : Reply * DB :=
  let clientIP :=
    match truthy ip with Some a => Some a | None => forwardedFor end in
  match findBySlug (codes db) slug with
  | None => (Html 404 NotFoundPage, db)
  | Some qrCode =>
      let scan :=
        mkScan (id (row qrCode))
          (match truthy clientIP with
           | Some a => Some (Crypto.hashIP sha256 IP_HASH_SALT a)
           | None => None
           end)
          (truthy userAgent) (truthy referer) in
      let count c :=
        mkQRCodeRecord (row c) (active c) (scanCount c + 1) (Some now) in
      let db' :=
        mkDB (updateById (codes db) (id (row qrCode)) count)
          (scans db ++ [scan]) in
      if negb (active qrCode) then (Html 410 PausedPage, db')
      else
        match mode (row qrCode) with
        | REDIRECT => (Redirection 302 (content (row qrCode)), db')
        | EMBED =>
            (Html 200 (ContentPage (escapeHtml (content (row qrCode)))), db')
        end
  end.

End WithDigest.

End Redirect.

(* ================================================================== *)
(** * Reference instances of the library parameters                     *)
(* ================================================================== *)

(** The properties below assume little of the libraries the code calls (a
    digest is 32 bytes long, [Math.pow] is accurate to six decimals).  The
    instances of this part meet those assumptions, so that every property
    can be run on concrete inputs. *)

Module Reference.

Local Open Scope Z_scope.

(** ** Integer roots by bisection *)

(** [bisect k n fuel lo hi]: the invariant is [lo ^ k <= n < hi ^ k]. *)
Fixpoint bisect (k n : Z) (fuel : nat) (lo hi : Z) : Z :=
  match fuel with
  | O => lo
  | S f =>
      if hi - lo <=? 1 then lo
      else
        let mid := (lo + hi) / 2 in
        if mid ^ k <=? n then bisect k n f mid hi else bisect k n f lo mid
  end.

(** The largest [r] with [r ^ k <= n], for [0 <= n] and [1 <= k]. *)
Definition iroot (k n : Z) : Z :=
  let bits := Z.to_nat (Z.log2 n + 1) in
  bisect k n bits 0 (2 ^ Z.of_nat bits).

(** ** [Math.pow(x, 2.4)] to six decimals: the fifth root of [x ^ 12] *)

Definition pow_12_5 (x : Q) : Q :=
  Qmake (iroot 5 (Qfloor (x ^ 12 * inject_Z (10 ^ 30)))) (10 ^ 6).

Definition Math_pow (x y : Q) : Q := pow_12_5 x.

(** ** SHA-256 (FIPS 180-4) *)

Definition add32 (x y : Z) : Z := (x + y) mod 2 ^ 32.

Definition rotr (n x : Z) : Z :=
  Z.lor (Z.shiftr x n) (Z.shiftl x (32 - n) mod 2 ^ 32).

Definition Ch (x y z : Z) : Z :=
  Z.lxor (Z.land x y) (Z.land (Z.lxor x (2 ^ 32 - 1)) z).

Definition Maj (x y z : Z) : Z :=
  Z.lxor (Z.lxor (Z.land x y) (Z.land x z)) (Z.land y z).

Definition Sigma0 (x : Z) : Z := Z.lxor (Z.lxor (rotr 2 x) (rotr 13 x)) (rotr 22 x).
Definition Sigma1 (x : Z) : Z := Z.lxor (Z.lxor (rotr 6 x) (rotr 11 x)) (rotr 25 x).
Definition sigma0 (x : Z) : Z := Z.lxor (Z.lxor (rotr 7 x) (rotr 18 x)) (Z.shiftr x 3).
Definition sigma1 (x : Z) : Z := Z.lxor (Z.lxor (rotr 17 x) (rotr 19 x)) (Z.shiftr x 10).

Definition is_prime (p : Z) : bool :=
  (2 <=? p) &&
  forallb (fun d => negb (p mod Z.of_nat d =? 0)) (seq 2 (Z.to_nat p - 2)).

(** The first sixty-four primes. *)
Definition primes : list Z :=
  filter is_prime (map Z.of_nat (seq 2 310)).

(** The round constants: the first 32 bits of the fractional parts of the
    cube roots of the primes. *)
Definition K : list Z :=
  map (fun p => iroot 3 (p * 2 ^ 96) mod 2 ^ 32) primes.

(** The initial hash value: the same for the square roots of the first
    eight primes. *)
Definition frac_sqrt (p : Z) : Z := Z.sqrt (p * 2 ^ 64) mod 2 ^ 32.

Definition State : Type := (Z * Z * Z * Z * Z * Z * Z * Z)%type.

Definition H0 : State :=
  (frac_sqrt 2, frac_sqrt 3, frac_sqrt 5, frac_sqrt 7,
   frac_sqrt 11, frac_sqrt 13, frac_sqrt 17, frac_sqrt 19).

(** The message schedule, most recent word first. *)
Fixpoint schedule (n : nat) (w : list Z) : list Z :=
  match n with
  | O => w
  | S k =>
      let x :=
        add32 (add32 (sigma1 (nth 1 w 0)) (nth 6 w 0))
              (add32 (sigma0 (nth 14 w 0)) (nth 15 w 0)) in
      schedule k (x :: w)
  end.

Definition round (s : State) (kw : Z * Z) : State :=
  let '(a, b, c, d, e, f, g, h) := s in
  let t1 :=
    add32 (add32 (add32 h (Sigma1 e)) (add32 (Ch e f g) (fst kw))) (snd kw) in
  let t2 := add32 (Sigma0 a) (Maj a b c) in
  (add32 t1 t2, a, b, c, add32 d t1, e, f, g).

Definition compress (s : State) (block : list Z) : State :=
  let w := rev (schedule 48 (rev block)) in
  let '(a, b, c, d, e, f, g, h) := fold_left round (combine K w) s in
  let '(a0, b0, c0, d0, e0, f0, g0, h0) := s in
  (add32 a0 a, add32 b0 b, add32 c0 c, add32 d0 d,
   add32 e0 e, add32 f0 f, add32 g0 g, add32 h0 h).

(** Big-endian words of a byte list whose length is a multiple of four. *)
Fixpoint words (fuel : nat) (bs : list Z) : list Z :=
  match fuel, bs with
  | S f, b0 :: b1 :: b2 :: b3 :: rest =>
      (((b0 * 256 + b1) * 256 + b2) * 256 + b3) :: words f rest
  | _, _ => []
  end.

(** Blocks of sixteen words. *)
Fixpoint blocks (fuel : nat) (ws : list Z) : list (list Z) :=
  match fuel, ws with
  | S f, _ :: _ => firstn 16 ws :: blocks f (skipn 16 ws)
  | _, _ => []
  end.

Definition pad (msg : list Z) : list Z :=
  let len := Z.of_nat (List.length msg) in
  let zeros := Z.to_nat ((55 - len) mod 64) in
  msg ++ [128] ++ repeat 0 zeros ++
  map (fun i => Z.shiftr (8 * len) (8 * (7 - Z.of_nat i)) mod 256) (seq 0 8).

Definition byte_of_Z (x : Z) : byte :=
  match Byte.of_N (Z.to_N (x mod 256)) with
  | Some b => b
  | None => Byte.x00
  end.

Definition word_bytes (x : Z) : list byte :=
  [byte_of_Z (Z.shiftr x 24); byte_of_Z (Z.shiftr x 16);
   byte_of_Z (Z.shiftr x 8); byte_of_Z x].

Definition state_bytes (s : State) : list byte :=
  let '(a, b, c, d, e, f, g, h) := s in
  word_bytes a ++ word_bytes b ++ word_bytes c ++ word_bytes d ++
  word_bytes e ++ word_bytes f ++ word_bytes g ++ word_bytes h.

Definition sha256 (s : string) : list byte :=
  let msg :=
    map (fun c => Z.of_N (Byte.to_N c)) (String.list_byte_of_string s) in
  let padded := pad msg in
  let ws := words (List.length padded) padded in
  state_bytes (fold_left compress (blocks (List.length ws) ws) H0).

(** ** Stand-ins for the encoder and for [fetch] *)

Local Open Scope string_scope.

(** A [rect] element as the pattern of [applyRoundedCorners] expects it. *)
Definition rect_elem (w h x y fill : string) : string :=
  "<rect " ++ QRService.attr "width" w ++ " " ++ QRService.attr "height" h ++
  " " ++ QRService.attr "x" x ++ " " ++ QRService.attr "y" y ++
  " " ++ QRService.attr "fill" fill ++ "/>".

(** The top-left module of the top-left finder pattern, drawn at 8 pixels
    per module behind the quiet zone of 4 modules. *)
Definition finder_module (dark : string) : string :=
  rect_elem "8" "8" "32" "32" dark.

(** A data module of the same symbol. *)
Definition data_module (dark : string) : string :=
  rect_elem "8" "8" "112" "120" dark.

(** A stand-in for the encoder: the background, one finder module and one
    data module, painted with the configured colours. *)
Definition QRCode_toString (data : option string)
  (cfg : QRService.QRCodeConfig) : Outcome string :=
  let dark :=
    match QRService.cfg_dark cfg with Some c => c | None => "#000000" end in
  let light :=
    match QRService.cfg_light cfg with Some c => c | None => "#ffffff" end in
  Returned
    ("<svg " ++ QRService.attr "xmlns" "http://www.w3.org/2000/svg" ++ " " ++
     QRService.attr "viewBox" "0 0 232 232" ++ ">" ++
     rect_elem "232" "232" "0" "0" light ++
     finder_module dark ++ data_module dark ++ "</svg>").

(** A stand-in for [fetch]: every URL answers 200 with the same bytes. *)
Definition fetch (url : string) : Outcome QRService.FetchResponse :=
  Returned (QRService.mkFetchResponse true "OK" "logo-bytes").

(** A [sharp] that accepts every pipeline. *)
Definition toBuffer_error (pipeline : Compositor.Raster) : option string :=
  None.

(** A stand-in for the logo block of the creation route. *)
Definition uploadLogo (logo : string) : Rand Routes.LogoStep :=
  ret (Routes.LogoStored "https://cdn.example/logos/logo.png").

(** A random source for the examples. *)
Definition entropy : Entropy :=
  mkEntropy (fun i => byte_of_Z (Z.of_nat (37 * i + 11)))
            (fun i => Qmake (Z.of_nat (17 * i + 5) mod 100) 100).

(** Options for the examples: 512 pixels, the given colours, no gradient,
    square modules, a logo at a fifth of the size. *)
Definition options (dark light : string) : QRService.QROptions :=
  QRService.mkQROptions 512 (Some dark) (Some light) None false
    (Some 0.2%Q) (Some QRService.EC_H).

(** The same with a red-to-blue gradient. *)
Definition gradient_options (dark light : string) : QRService.QROptions :=
  QRService.mkQROptions 512 (Some dark) (Some light)
    (Some (QRService.mkGradient "#FF0000" "#0000FF")) false
    (Some 0.2%Q) (Some QRService.EC_H).

(** The same with rounded modules. *)
Definition rounded_options (dark light : string) : QRService.QROptions :=
  QRService.mkQROptions 512 (Some dark) (Some light) None true
    (Some 0.2%Q) (Some QRService.EC_H).

(** A table that already holds the first slug the example random source
    produces, [DNYit3EOZ]; the second one, [ju5FQalv6], is free. *)
Definition world : Routes.World :=
  Routes.mkWorld entropy
    [Routes.mkQRRow "id-0" "DNYit3EOZ" Routes.EMBED "hello" None
       Routes.emptyOptions None "sample-hash"]
    (fun i => "id-" ++ String (ascii_of_nat (49 + i)) EmptyString).

(** A request without options and without logo. *)
Definition request : Routes.CreateQRRequest :=
  Routes.mkCreateQRRequest Routes.EMBED "hello again" None None.

End Reference.

(* ================================================================== *)
(** * Vocabulary of the properties                                      *)
(* ================================================================== *)

Module Spec.

Import QRService.

(** No [:] in the string. *)
Fixpoint colon_free (s : string) : bool :=
  match s with
  | EmptyString => true
  | String c s' => negb (Ascii.eqb c ":"%char) && colon_free s'
  end.

(** Only decimal digits. *)
Fixpoint all_digits (s : string) : bool :=
  match s with
  | EmptyString => true
  | String c s' => is_digit c && all_digits s'
  end.

(** A hexadecimal digit, either case. *)
Definition is_hex (c : ascii) : bool :=
  match String.index 0 (String c EmptyString) "0123456789abcdefABCDEF" with
  | Some _ => true
  | None => false
  end.

(** An optional [#] followed by exactly six hexadecimal digits. *)
Definition hex_colour (s : string) : Prop :=
  exists digits : list ascii,
    (s = string_of_list_ascii digits \/
     s = String "#" (string_of_list_ascii digits)) /\
    List.length digits = 6%nat /\
    forallb is_hex digits = true.

(** A layer that can serve as a bezel for a logo of the given edge: a flat
    colour at least as large as the logo. *)
Definition is_bezel (edge : Binary64.float64) (l : Compositor.Overlay) : bool :=
  match Compositor.overlay_input l with
  | Compositor.Create w h _ => Binary64.leb edge w && Binary64.leb edge h
  | _ => false
  end.

(** A bezel is painted before (under) the last layer, the logo. *)
Definition bezel_under_logo (edge : Binary64.float64)
  (layers : list Compositor.Overlay) : bool :=
  existsb (is_bezel edge) (removelast layers).

(** The media type of an export format. *)
Definition media_type (format : string) : option string :=
  if String.eqb format "svg" then Some "image/svg+xml"
  else if String.eqb format "png" then Some "image/png"
  else if String.eqb format "jpeg" then Some "image/jpeg"
  else None.

(** The tolerance assumed of [Math.pow]. *)
Definition pow_tolerance : Q := 1 # 1000000.

(** The head of a [rect] element: [rect width="w" height="h"]. *)
Definition rect_head (w h : string) : string :=
  "rect " ++ attr "width" w ++ " " ++ attr "height" h.

(** The configuration [generateSVG] builds for the encoder. *)
Definition config_of (options : QROptions) : QRCodeConfig :=
  mkQRCodeConfig "svg" (size options) 4 (color options)
    (background options) (errorCorrection options).

(** The literal head of the pattern of [applyRoundedCorners]. *)
Definition pattern_head : string := "rect width=" ++ JS.dq.

(** Text the pattern cannot match in: [rect width=] followed by a quote
    does not occur. *)
Definition plain (text : string) : bool :=
  negb (JS.includes pattern_head text).

(** A decimal number: one digit or more. *)
Definition decimal (w : string) : bool :=
  all_digits w && negb (String.eqb w EmptyString).

(** Markup as a run of [rect] elements, each given by its width, its
    height and the text up to the next one; the heads are written as the
    pattern expects them, or with the two radii. *)
Fixpoint elements (round : bool) (items : list (string * string * string))
  : string :=
  match items with
  | [] => EmptyString
  | (w, h, text) :: rest =>
      (if round then rounded_rect w h else rect_head w h) ++ text ++
      elements round rest
  end.

Definition well_formed (items : list (string * string * string)) : bool :=
  forallb (fun item => let '(w, h, text) := item in
                       decimal w && decimal h && plain text) items.

(** The markup [generateSVG] holds once its gradient step is over. *)
Definition after_gradient (options : QROptions) (svg : string) : string :=
  match gradient options with
  | Some gr => applyGradient svg gr
  | None => svg
  end.

(** Rounding spares the element [elem]: whenever the encoder draws it and
    [rounded] is set, the rendered SVG still holds it unchanged. *)
Definition rounding_spares (elem : string) : Prop :=
  forall (QRCode_toString : option string -> QRCodeConfig -> Outcome string)
         (data : option string) (options : QROptions) (svg out : string),
    rounded options = true ->
    QRCode_toString data (config_of options) = Returned svg ->
    JS.includes elem svg = true ->
    generateSVG QRCode_toString data options = Returned (RawBuffer out) ->
    JS.includes elem out = true.

(** Every successful logo composite paints a bezel under the logo. *)
Definition bezel_painted : Prop :=
  forall (fetch : string -> Outcome FetchResponse)
         (toBuffer_error : Compositor.Raster -> option string)
         (qrBuffer : Compositor.Raster) (options : QROptions)
         (logoUrl : string) (result : Compositor.Raster),
    Compositor.compositeLogo fetch toBuffer_error qrBuffer options logoUrl
    = Returned result ->
    exists base layers edge,
      result = Compositor.Png (Compositor.Composite base layers) /\
      bezel_under_logo edge layers = true.

(** The logo box has the edge and the corner of exact arithmetic: for a
    size in [128, 4096] and a scale in [0.10, 0.25], every successful
    composite resizes the logo into a square of edge [floor (size * scale)]
    placed at [top = left = floor ((size - edge) / 2)]. *)
Definition exact_geometry : Prop :=
  forall (fetch : string -> Outcome FetchResponse)
         (toBuffer_error : Compositor.Raster -> option string)
         (qrBuffer : Compositor.Raster) (options : QROptions) (scale : Q)
         (logoUrl : string) (result : Compositor.Raster),
    (128 <= size options <= 4096)%Q ->
    logoScale options = Some scale ->
    (0.10 <= scale <= 0.25)%Q ->
    Compositor.compositeLogo fetch toBuffer_error qrBuffer options logoUrl
    = Returned result ->
    let edge := Qfloor (size options * scale) in
    exists logo width corner,
      result =
        Compositor.Png
          (Compositor.Composite qrBuffer
             [Compositor.mkOverlay
                (Compositor.Png (Compositor.ResizeInside logo width width))
                corner corner]) /\
      Binary64.to_Z width = Some edge /\
      Binary64.to_Z corner = Some (Qfloor ((size options - inject_Z edge) / 2)).

(** A collision is retried: when the first candidate slug is taken and the
    next one the generator would produce is free, creation succeeds.  (Any
    retry loop with a bound of at least one retry has this property.) *)
Definition retries_on_collision : Prop :=
  forall (sha256 : string -> list byte) (Math_pow : Q -> Q -> Q)
         (uploadLogo : string -> Rand Routes.LogoStep) (BASE_URL : string)
         (req : Routes.CreateQRRequest) (w : Routes.World),
    Routes.req_options req = None -> Routes.req_logo req = None ->
    let first := Crypto.generateSlug (Routes.entropy w) in
    let second := Crypto.generateSlug (snd first) in
    Routes.slug_taken (Routes.table w) (fst first) = true ->
    Routes.slug_taken (Routes.table w) (fst second) = false ->
    Routes.status
      (fst (Routes.createHandler sha256 Math_pow uploadLogo BASE_URL req w))
    = 201%Z.

(** The characters [rgb] reads as digits: the string without its leading
    [#], if any. *)
Definition rgb_digits (hex : string) : string :=
  match hex with
  | String c rest => if Ascii.eqb c "#" then rest else hex
  | EmptyString => hex
  end.

(** ** The WCAG contrast ratio, as the specification words it *)

(** The value of a hexadecimal digit, either case. *)
Definition digit_value (c : ascii) : option Z :=
  match String.index 0 (String c EmptyString) "0123456789abcdef" with
  | Some n => Some (Z.of_nat n)
  | None =>
      match String.index 0 (String c EmptyString) "0123456789ABCDEF" with
      | Some n => Some (Z.of_nat n)
      | None => None
      end
  end.

(** The three 8-bit channels of a colour written as an optional [#] and
    six hexadecimal digits. *)
Definition channels (hex : string) : option (Z * Z * Z) :=
  let pair x y :=
    match digit_value x, digit_value y with
    | Some a, Some b => Some (16 * a + b)%Z
    | _, _ => None
    end in
  match rgb_digits hex with
  | String r1 (String r2 (String g1 (String g2 (String b1 (String b2
      EmptyString))))) =>
      match pair r1 r2, pair g1 g2, pair b1 b2 with
      | Some r, Some g, Some b => Some (r, g, b)
      | _, _, _ => None
      end
  | _ => None
  end.

(** The sRGB-to-linear transform of a channel brought to [0, 1]: linear
    below 0.03928, the power curve of exponent 2.4 above. *)
Definition srgb_to_linear (pow24 : Q -> Q) (v : Q) : Q :=
  if Qle_bool v 0.03928 then v / 12.92 else pow24 ((v + 0.055) / 1.055).

(** Relative luminance: the linear channels weighted by 0.2126, 0.7152 and
    0.0722. *)
Definition relative_luminance (pow24 : Q -> Q) (c : Z * Z * Z) : Q :=
  let '(red, green, blue) := c in
  0.2126 * srgb_to_linear pow24 (inject_Z red / 255) +
  0.7152 * srgb_to_linear pow24 (inject_Z green / 255) +
  0.0722 * srgb_to_linear pow24 (inject_Z blue / 255).

(** The contrast ratio of two luminances: the lighter plus 0.05 over the
    darker plus 0.05. *)
Definition contrast_ratio (l1 l2 : Q) : Q :=
  if Qle_bool l1 l2 then (l2 + 0.05) / (l1 + 0.05)
  else (l1 + 0.05) / (l2 + 0.05).

End Spec.

(* ================================================================== *)
(** * Further vocabulary and examples                                   *)
(* ================================================================== *)

Module Props.

(** Every character of the string satisfies [p]. *)
Fixpoint string_forall (p : ascii -> bool) (s : string) : bool :=
  match s with
  | EmptyString => true
  | String c s' => p c && string_forall p s'
  end.

(** The character occurs in the string. *)
Fixpoint occurs (c : ascii) (s : string) : bool :=
  match s with
  | EmptyString => false
  | String x s' => Ascii.eqb x c || occurs c s'
  end.

(** [0-9a-f]. *)
Definition is_lower_hex (c : ascii) : bool := occurs c "0123456789abcdef".

(** [A-Za-z0-9]. *)
Definition is_alnum (c : ascii) : bool := occurs c Crypto.chars.

(** The five characters [escapeHtml] replaces. *)
Definition is_special (c : ascii) : bool :=
  occurs c ("&<>'" ++ JS.dq).

(** The four characters that open or close markup or an attribute. *)
Definition is_markup (c : ascii) : bool :=
  occurs c ("<>'" ++ JS.dq).

(** A channel value fits a byte. *)
Definition is_channel (v : Z) : Prop := (0 <= v <= 255)%Z.

(** [parts.join(sep)]. *)
Fixpoint join (sep : string) (parts : list string) : string :=
  match parts with
  | [] => EmptyString
  | [x] => x
  | x :: rest => x ++ sep ++ join sep rest
  end.

(** Two optional ratios agree. *)
Definition same_ratio (x y : option Q) : Prop :=
  match x, y with
  | Some a, Some b => (a == b)%Q
  | None, None => True
  | _, _ => False
  end.

(** What [JS.replace] returns once its search has gone past [acc]. *)
Definition replace_from (pat repl s acc : string) : string :=
  match JS.find pat s acc with
  | Some (before, after) =>
      before ++ JS.substitution pat before after repl ++ after
  | None => acc ++ s
  end.

(** The text that follows [<svg ] once a gradient is applied. *)
Definition gradient_head : string :=
  ">" ++ JS.lf ++ "        <linearGradient " ++ QRService.attr "id" "qrGradient".

End Props.

Module Samples.

(** The markup of the stand-in encoder for black on white, cut at its
    [rect] elements: the background, the finder module and the data
    module. *)
Definition svg_lead : string :=
  "<svg " ++ QRService.attr "xmlns" "http://www.w3.org/2000/svg" ++ " " ++
  QRService.attr "viewBox" "0 0 232 232" ++ "><".

Definition svg_items : list (string * string * string) :=
  [("232", "232",
    " " ++ QRService.attr "x" "0" ++ " " ++ QRService.attr "y" "0" ++ " " ++
    QRService.attr "fill" "#FFFFFF" ++ "/><");
   ("8", "8",
    " " ++ QRService.attr "x" "32" ++ " " ++ QRService.attr "y" "32" ++ " " ++
    QRService.attr "fill" "#000000" ++ "/><");
   ("8", "8",
    " " ++ QRService.attr "x" "112" ++ " " ++ QRService.attr "y" "120" ++ " " ++
    QRService.attr "fill" "#000000" ++ "/></svg>")].

(** The same markup once the red-to-blue gradient is applied: the
    definition of the gradient sits in the opening tag and the dark modules
    reference it. *)
Definition gradient_lead : string :=
  QRService.applyGradient svg_lead (QRService.mkGradient "#FF0000" "#0000FF").

Definition gradient_items : list (string * string * string) :=
  [("232", "232",
    " " ++ QRService.attr "x" "0" ++ " " ++ QRService.attr "y" "0" ++ " " ++
    QRService.attr "fill" "#FFFFFF" ++ "/><");
   ("8", "8",
    " " ++ QRService.attr "x" "32" ++ " " ++ QRService.attr "y" "32" ++ " " ++
    QRService.attr "fill" "url(#qrGradient)" ++ "/><");
   ("8", "8",
    " " ++ QRService.attr "x" "112" ++ " " ++ QRService.attr "y" "120" ++ " " ++
    QRService.attr "fill" "url(#qrGradient)" ++ "/></svg>")].

(** Options with both a gradient and rounded modules. *)
Definition gradient_rounded_options : QRService.QROptions :=
  QRService.mkQROptions 512 (Some "#000000") (Some "#FFFFFF")
    (Some (QRService.mkGradient "#FF0000" "#0000FF")) true
    (Some 0.2%Q) (Some QRService.EC_H).

(** A [sharp] that cannot decode what is fetched: every resize is
    rejected. *)
Definition undecodable (pipeline : Compositor.Raster) : option string :=
  match pipeline with
  | Compositor.Png (Compositor.ResizeInside _ _ _) =>
      Some "Input buffer contains unsupported image format"
  | _ => None
  end.

(** The stored hash of the token [s3cret] under the example random
    source. *)
Definition stored_hash : string :=
  "0b30557a9fc4e90e33587da2c7ec1136:" ++
  "27ac34be525ac68b4e8094e86996462a399b76b2512ad7dc553ea51de403e7cb".

(** An active record that embeds a text with markup in it, with a logo. *)
Definition embedded : Store.QRCodeRecord :=
  Store.mkQRCodeRecord
    (Routes.mkQRRow "id-1" "DNYit3EOZ" Routes.EMBED "<b>Tom & Jerry</b>" None
       Routes.emptyOptions (Some "https://cdn.example/logos/logo.png")
       stored_hash)
    true 7 None.

(** A paused record that redirects. *)
Definition paused : Store.QRCodeRecord :=
  Store.mkQRCodeRecord
    (Routes.mkQRRow "id-2" "ju5FQalv6" Routes.REDIRECT "https://example.com"
       (Some "https://qr.example/r/ju5FQalv6") Routes.emptyOptions None
       stored_hash)
    false 0 None.

Definition db : Store.DB :=
  Store.mkDB [embedded; paused]
    [Store.mkScan "id-1" None (Some "curl/8") None;
     Store.mkScan "id-2" None None None].

(** Stand-ins for the storage and for the logo clean-up. *)
Definition uploadFile (buffer key contentType : string) : Outcome string :=
  Returned ("https://cdn.example/" ++ key).

Definition deleteLogo (url : string) : Outcome unit := Returned tt.

Definition recentScans (scans : list Store.Scan) (i : string)
  : list Store.Scan :=
  firstn 100 (rev (filter (fun s => String.eqb (Store.qrcodeId s) i) scans)).

(** A fetch that is answered 404. *)
Definition fetch_404 (url : string) : Outcome QRService.FetchResponse :=
  Returned (QRService.mkFetchResponse false "Not Found" EmptyString).

(** A world with an empty table. *)
Definition fresh_world : Routes.World :=
  Routes.mkWorld Reference.entropy []
    (fun i => "id-" ++ String (ascii_of_nat (49 + i)) EmptyString).

(** A request for grey on grey. *)
Definition grey_request : Routes.CreateQRRequest :=
  Routes.mkCreateQRRequest Routes.EMBED "hello"
    (Some (Routes.mkStoredOptions (Some "#777777") (Some "#888888") None false
             None None))
    None.

(** An uploaded picture. *)
Definition picture : Upload.File :=
  Upload.mkFile (Some "holiday.photo.png") "image/png" "not really a picture".

(** An update of the content alone. *)
Definition new_content : Management.UpdateQRRequest :=
  Management.mkUpdateQRRequest None (Some "see you") None None None.

End Samples.

(* ================================================================== *)
(** * Properties of the string primitives                               *)
(* ================================================================== *)

Section StringFacts.

Lemma append_nil_r (s : string) : s ++ EmptyString = s.
Proof. induction s as [|c s IH]; simpl; [reflexivity | now rewrite IH]. Qed.

Lemma append_assoc (a b c : string) : (a ++ b) ++ c = a ++ (b ++ c).
Proof. induction a as [|x a IH]; simpl; [reflexivity | now rewrite IH]. Qed.

Lemma length_append (a b : string) :
  String.length (a ++ b) = (String.length a + String.length b)%nat.
Proof. induction a as [|x a IH]; simpl; [reflexivity | now rewrite IH]. Qed.

Lemma prefix_append (p s : string) : String.prefix p (p ++ s) = true.
Proof.
  induction p as [|c p IH]; simpl.
  - now destruct s.
  - destruct (ascii_dec c c) as [_|n]; [exact IH | now elim n].
Qed.

Lemma drop_append (p s : string) : JS.drop (String.length p) (p ++ s) = s.
Proof. induction p as [|c p IH]; simpl; [now destruct s | exact IH]. Qed.

Lemma split_colon_free (s : string) :
  Spec.colon_free s = true -> JS.split ":" s = [s].
Proof.
  induction s as [|c s IH]; simpl; [reflexivity|].
  intros H. apply andb_true_iff in H. destruct H as [Hc Hs].
  apply negb_true_iff in Hc. rewrite Hc, (IH Hs). reflexivity.
Qed.

Lemma split_at_colon (a b : string) :
  Spec.colon_free a = true ->
  JS.split ":" (a ++ ":" ++ b) = a :: JS.split ":" b.
Proof.
  induction a as [|c a IH]; simpl; [reflexivity|].
  intros H. apply andb_true_iff in H. destruct H as [Hc Ha].
  apply negb_true_iff in Hc. rewrite Hc.
  simpl in IH. rewrite (IH Ha). reflexivity.
Qed.

End StringFacts.

(* ================================================================== *)
(** * Edit tokens                                                       *)
(* ================================================================== *)

Section HexFacts.

Lemma hexDigit_not_colon (b : byte) :
  Ascii.eqb (Crypto.hexDigit (N.div (Byte.to_N b) 16)) ":" = false /\
  Ascii.eqb (Crypto.hexDigit (N.modulo (Byte.to_N b) 16)) ":" = false.
Proof. destruct b; split; reflexivity. Qed.

Lemma toHex_colon_free (bs : list byte) :
  Spec.colon_free (Crypto.toHex bs) = true.
Proof.
  induction bs as [|b bs IH]; simpl; [reflexivity|].
  destruct (hexDigit_not_colon b) as [H1 H2].
  now rewrite H1, H2, IH.
Qed.

Lemma toHex_length (bs : list byte) :
  String.length (Crypto.toHex bs) = (2 * List.length bs)%nat.
Proof. induction bs as [|b bs IH]; simpl; [reflexivity | rewrite IH; lia]. Qed.

Lemma toHex_nonempty (bs : list byte) :
  bs <> [] -> JS.falsy (Some (Crypto.toHex bs)) = false.
Proof. destruct bs as [|b bs]; [congruence | reflexivity]. Qed.

Lemma randomBytes_length (n : nat) (e : Entropy) :
  List.length (fst (randomBytes n e)) = n.
Proof. unfold randomBytes. simpl. now rewrite length_map, length_seq. Qed.

End HexFacts.

Section Verify.

Variable sha256 : string -> list byte.

(** On a stored string of the form [salt:hash], with both parts non-empty
    and without colon, verification is the comparison of the recomputed
    digest with [hash]. *)
Lemma verifyEditToken_split (token salt hash : string) :
  Spec.colon_free salt = true -> Spec.colon_free hash = true ->
  JS.falsy (Some salt) = false -> JS.falsy (Some hash) = false ->
  Crypto.verifyEditToken sha256 token (salt ++ ":" ++ hash) =
  String.eqb (Crypto.toHex (sha256 (salt ++ token))) hash.
Proof.
  intros Hs Hh Hsn Hhn. unfold Crypto.verifyEditToken.
  rewrite (split_at_colon salt hash Hs), (split_colon_free hash Hh).
  cbn [nth_error]. rewrite Hsn, Hhn. reflexivity.
Qed.

Hypothesis digest_length : forall m, List.length (sha256 m) = 32%nat.

(** C1. Whatever salt the random source supplies, [hashEditToken t] is the
    salt in hex (32 characters), a colon, and the hex SHA-256 of the salt
    followed by [t]; [verifyEditToken] accepts a stored [salt:hash] exactly
    when the recomputed digest equals [hash]; and therefore
    [verifyEditToken t (hashEditToken t)] is true. *)
Theorem verifyEditToken_hashEditToken (t : string) (e : Entropy) :
  let salt := Crypto.toHex (map (secure_bytes e) (seq 0 16)) in
  fst (Crypto.hashEditToken sha256 t e) =
    salt ++ ":" ++ Crypto.toHex (sha256 (salt ++ t)) /\
  String.length salt = 32%nat /\
  (forall t' : string,
     Crypto.verifyEditToken sha256 t' (fst (Crypto.hashEditToken sha256 t e)) =
     String.eqb (Crypto.toHex (sha256 (salt ++ t')))
                (Crypto.toHex (sha256 (salt ++ t)))) /\
  Crypto.verifyEditToken sha256 t (fst (Crypto.hashEditToken sha256 t e)) = true.
Proof.
  intros salt.
  assert (Hhash : fst (Crypto.hashEditToken sha256 t e) =
                  salt ++ ":" ++ Crypto.toHex (sha256 (salt ++ t)))
    by reflexivity.
  assert (Hsplit : forall t',
            Crypto.verifyEditToken sha256 t'
              (salt ++ ":" ++ Crypto.toHex (sha256 (salt ++ t))) =
            String.eqb (Crypto.toHex (sha256 (salt ++ t')))
                       (Crypto.toHex (sha256 (salt ++ t)))).
  { intros t'. apply verifyEditToken_split.
    - apply toHex_colon_free.
    - apply toHex_colon_free.
    - apply toHex_nonempty. discriminate.
    - apply toHex_nonempty. intros Hnil.
      pose proof (digest_length (salt ++ t)) as Hlen.
      rewrite Hnil in Hlen. discriminate. }
  split; [|split; [|split]].
  - exact Hhash.
  - unfold salt. rewrite toHex_length, length_map, length_seq. reflexivity.
  - intros t'. rewrite Hhash. apply Hsplit.
  - rewrite Hhash, Hsplit. apply String.eqb_refl.
Qed.

End Verify.

(* ================================================================== *)
(** * Rounded modules                                                   *)
(* ================================================================== *)

Section Rounding.

Import QRService.

Lemma span_digits_append (w rest : string) :
  Spec.all_digits w = true ->
  (match rest with String c _ => is_digit c | EmptyString => false end) = false ->
  span_digits (w ++ rest) = (w, rest).
Proof.
  intros Hw Hrest. induction w as [|c w IH]; simpl.
  - destruct rest as [|c r]; [reflexivity|]. cbn in Hrest |- *. now rewrite Hrest.
  - simpl in Hw. apply andb_true_iff in Hw. destruct Hw as [Hc Hw].
    rewrite Hc, (IH Hw). reflexivity.
Qed.

Lemma strip_prefix_append (p s : string) : strip_prefix p (p ++ s) = Some s.
Proof. unfold strip_prefix. now rewrite prefix_append, drop_append. Qed.

Lemma rect_head_shape (w h rest : string) :
  Spec.rect_head w h ++ rest =
  ("rect width=" ++ JS.dq) ++ w ++ (JS.dq ++ " height=" ++ JS.dq) ++ h ++
  JS.dq ++ rest.
Proof. unfold Spec.rect_head, attr. repeat rewrite append_assoc. reflexivity. Qed.

Lemma rect_head_length (w h : string) :
  String.length (Spec.rect_head w h) =
  (12 + String.length w + 10 + String.length h + 1)%nat.
Proof.
  rewrite <- (append_nil_r (Spec.rect_head w h)), rect_head_shape.
  repeat rewrite length_append. simpl. lia.
Qed.

Lemma match_rect_head (w h rest : string) :
  w <> EmptyString -> h <> EmptyString ->
  Spec.all_digits w = true -> Spec.all_digits h = true ->
  match_rect (Spec.rect_head w h ++ rest) =
  Some (w, h, String.length (Spec.rect_head w h)).
Proof.
  intros Hw0 Hh0 Hw Hh. rewrite rect_head_shape, rect_head_length.
  unfold match_rect. rewrite strip_prefix_append.
  rewrite (span_digits_append w _ Hw) by reflexivity.
  rewrite strip_prefix_append.
  rewrite (span_digits_append h _ Hh) by reflexivity.
  rewrite strip_prefix_append.
  destruct w; [congruence|]. destruct h; [congruence|]. reflexivity.
Qed.

Lemma roundAll_from_skip (a rest : string) :
  roundAll_from (String.length a) (a ++ rest) = roundAll_from 0 rest.
Proof.
  induction a as [|c a IH]; simpl.
  - destruct rest; reflexivity.
  - exact IH.
Qed.

(** Outside a match the text is copied. *)
Lemma applyRoundedCorners_copy (c : ascii) (s : string) :
  match_rect (String c s) = None ->
  applyRoundedCorners (String c s) = String c (applyRoundedCorners s).
Proof. intros H. unfold applyRoundedCorners. cbn [roundAll_from]. now rewrite H. Qed.

Lemma applyRoundedCorners_at_rect (w h rest : string) :
  w <> EmptyString -> h <> EmptyString ->
  Spec.all_digits w = true -> Spec.all_digits h = true ->
  applyRoundedCorners (Spec.rect_head w h ++ rest) =
  rounded_rect w h ++ applyRoundedCorners rest.
Proof.
  intros Hw0 Hh0 Hw Hh. unfold applyRoundedCorners.
  pose proof (match_rect_head w h rest Hw0 Hh0 Hw Hh) as Hm.
  pose proof (rect_head_length w h) as Hlen.
  remember (Spec.rect_head w h) as hd eqn:Hhd.
  destruct hd as [|c hd]; [simpl in Hlen; lia|].
  change ((String c hd) ++ rest) with (String c (hd ++ rest)) in *.
  cbn [roundAll_from]. rewrite Hm.
  f_equal. cbn [String.length]. rewrite Nat.sub_1_r. cbn [Nat.pred].
  apply roundAll_from_skip.
Qed.

Lemma match_rect_needs_head (s : string) :
  String.prefix ("rect width=" ++ JS.dq) s = false -> match_rect s = None.
Proof. intros H. unfold match_rect, strip_prefix. now rewrite H. Qed.

Lemma prefix_long (pat p x : string) :
  (String.length pat <= String.length p)%nat ->
  String.prefix pat (p ++ x) = String.prefix pat p.
Proof.
  revert p. induction pat as [|a pat IH]; intros p Hlen.
  - destruct p; [destruct x|]; reflexivity.
  - destruct p as [|b p]; [cbn in Hlen; lia|].
    cbn [String.prefix append]. destruct (ascii_dec a b); [|reflexivity].
    apply IH. cbn in Hlen. lia.
Qed.

(** The head of the pattern has its first character nowhere else, so no
    occurrence of it starts in a shorter text and ends in a head that
    follows. *)
Lemma head_not_straddled (p x : string) :
  p <> EmptyString -> (String.length p < 12)%nat ->
  String.prefix Spec.pattern_head (p ++ Spec.pattern_head ++ x) = false.
Proof.
  intros Hp Hlen.
  unfold Spec.pattern_head, JS.dq.
  do 12 (destruct p as [|? p];
         [ try congruence; clear;
           cbn [String.prefix append];
           repeat (match goal with
                   | |- context [ascii_dec ?a ?b] =>
                       destruct (ascii_dec a b);
                       [try discriminate|try reflexivity]
                   end);
           try reflexivity
         | ]).
  cbn in Hlen. lia.
Qed.

Lemma plain_tail (c : ascii) (p : string) :
  Spec.plain (String c p) = true ->
  String.prefix Spec.pattern_head (String c p) = false /\ Spec.plain p = true.
Proof.
  unfold Spec.plain. cbn [JS.includes].
  destruct (String.prefix Spec.pattern_head (String c p)); [discriminate|].
  intros H. now split.
Qed.

Lemma plain_before_head (p x : string) :
  p <> EmptyString -> String.prefix Spec.pattern_head p = false ->
  String.prefix Spec.pattern_head (p ++ Spec.pattern_head ++ x) = false.
Proof.
  intros Hp Hpre.
  destruct (Nat.lt_ge_cases (String.length p) 12) as [Hlt|Hge].
  - now apply head_not_straddled.
  - rewrite prefix_long; [exact Hpre | exact Hge].
Qed.

Lemma decimal_spec (w : string) :
  Spec.decimal w = true -> w <> EmptyString /\ Spec.all_digits w = true.
Proof.
  unfold Spec.decimal. intros H. apply andb_true_iff in H.
  destruct H as [Hd Hn]. split; [|exact Hd]. intros ->. discriminate.
Qed.

(** Plain text before a [rect] element is copied and the element is
    rounded. *)
Lemma applyRoundedCorners_reaches (pre w h rest : string) :
  Spec.plain pre = true -> Spec.decimal w = true -> Spec.decimal h = true ->
  applyRoundedCorners (pre ++ Spec.rect_head w h ++ rest) =
  pre ++ rounded_rect w h ++ applyRoundedCorners rest.
Proof.
  intros Hpre Hw Hh.
  destruct (decimal_spec w Hw) as [Hw0 Hwd].
  destruct (decimal_spec h Hh) as [Hh0 Hhd].
  induction pre as [|c p IH].
  - now apply applyRoundedCorners_at_rect.
  - destruct (plain_tail c p Hpre) as [Hhead Hp].
    change ((String c p) ++ Spec.rect_head w h ++ rest)
      with (String c (p ++ Spec.rect_head w h ++ rest)).
    rewrite applyRoundedCorners_copy.
    + now rewrite (IH Hp).
    + apply match_rect_needs_head.
      change (String c (p ++ Spec.rect_head w h ++ rest))
        with ((String c p) ++ Spec.rect_head w h ++ rest).
      rewrite rect_head_shape.
      apply (plain_before_head (String c p)); [discriminate | exact Hhead].
Qed.

Lemma applyRoundedCorners_plain (text : string) :
  Spec.plain text = true -> applyRoundedCorners text = text.
Proof.
  induction text as [|c s IH]; intros H; [reflexivity|].
  destruct (plain_tail c s H) as [Hhead Hs].
  rewrite (applyRoundedCorners_copy c s (match_rect_needs_head _ Hhead)).
  now rewrite (IH Hs).
Qed.

(** Every element of the markup is rounded and the text between the
    elements is copied. *)
Lemma applyRoundedCorners_elements (lead : string)
  (items : list (string * string * string)) :
  Spec.plain lead = true -> Spec.well_formed items = true ->
  applyRoundedCorners (lead ++ Spec.elements false items) =
  lead ++ Spec.elements true items.
Proof.
  revert lead. induction items as [|[[w h] text] items IH]; intros lead Hl Hi.
  - cbn [Spec.elements]. rewrite append_nil_r.
    now apply applyRoundedCorners_plain.
  - cbn [Spec.well_formed forallb] in Hi.
    apply andb_true_iff in Hi. destruct Hi as [Hitem Hi].
    apply andb_true_iff in Hitem. destruct Hitem as [Hwh Ht].
    apply andb_true_iff in Hwh. destruct Hwh as [Hw Hh].
    cbn [Spec.elements].
    rewrite (applyRoundedCorners_reaches lead w h _ Hl Hw Hh).
    now rewrite (IH text Ht Hi).
Qed.

(** C2 (as amended). With [rounded] set, [generateSVG] runs
    [applyRoundedCorners] over the whole markup it holds after the gradient
    step, with or without a gradient.  On markup made of text in which
    [rect width=] followed by a quote does not occur and of [rect] elements
    written [rect width="W" height="H"] with decimal [W] and [H], every
    element receives [rx="2" ry="2"], wherever it stands and whatever
    region of the symbol it draws, and everything else is copied. *)
Theorem rounded_reaches_every_rect
  (QRCode_toString : option string -> QRCodeConfig -> Outcome string)
  (data : option string) (options : QROptions) (svg : string) :
  rounded options = true ->
  QRCode_toString data (Spec.config_of options) = Returned svg ->
  generateSVG QRCode_toString data options =
    Returned (RawBuffer (applyRoundedCorners (Spec.after_gradient options svg))) /\
  (forall lead items,
     Spec.plain lead = true -> Spec.well_formed items = true ->
     applyRoundedCorners (lead ++ Spec.elements false items) =
     lead ++ Spec.elements true items) /\
  (forall lead items,
     Spec.after_gradient options svg = lead ++ Spec.elements false items ->
     Spec.plain lead = true -> Spec.well_formed items = true ->
     generateSVG QRCode_toString data options =
     Returned (RawBuffer (lead ++ Spec.elements true items))).
Proof.
  intros Hr Henc.
  assert (Hgen : generateSVG QRCode_toString data options =
                 Returned (RawBuffer (applyRoundedCorners
                                        (Spec.after_gradient options svg)))).
  { unfold generateSVG, Spec.after_gradient. unfold Spec.config_of in Henc.
    rewrite Henc. cbn [bindO]. now rewrite Hr. }
  split; [exact Hgen|]. split.
  - intros lead items. apply applyRoundedCorners_elements.
  - intros lead items Hsvg Hl Hi. rewrite Hgen, Hsvg.
    now rewrite applyRoundedCorners_elements.
Qed.

(** The amended C2 on the stand-in encoder: the background, the finder
    module and the data module all come out with rounded corners, and the
    rest of the markup is as the encoder wrote it; the same holds after a
    gradient has been applied. *)
Lemma rounded_reaches_every_rect_witness :
  generateSVG Reference.QRCode_toString (Some "https://example.com")
    (Reference.rounded_options "#000000" "#FFFFFF") =
  Returned
    (RawBuffer (Samples.svg_lead ++ Spec.elements true Samples.svg_items)) /\
  JS.includes
    (rounded_rect "8" "8" ++ " " ++ attr "x" "32" ++ " " ++ attr "y" "32")
    (Samples.svg_lead ++ Spec.elements true Samples.svg_items) = true /\
  generateSVG Reference.QRCode_toString (Some "https://example.com")
    Samples.gradient_rounded_options =
  Returned
    (RawBuffer (Samples.gradient_lead ++
                Spec.elements true Samples.gradient_items)).
Proof.
  split; [|split; [reflexivity|]].
  - refine (proj2 (proj2 (rounded_reaches_every_rect Reference.QRCode_toString
                            (Some "https://example.com")
                            (Reference.rounded_options "#000000" "#FFFFFF")
                            _ eq_refl eq_refl))
              Samples.svg_lead Samples.svg_items _ _ _);
      reflexivity.
  - refine (proj2 (proj2 (rounded_reaches_every_rect Reference.QRCode_toString
                            (Some "https://example.com")
                            Samples.gradient_rounded_options
                            _ eq_refl eq_refl))
              Samples.gradient_lead Samples.gradient_items _ _ _);
      vm_compute; reflexivity.
Defined.

(** C2 (counterexample). The finder module drawn by the encoder is not in
    the rendered SVG any more once [rounded] is set. *)
Lemma rounding_reshapes_finder :
  ~ Spec.rounding_spares (Reference.finder_module "#000000").
Proof.
  intros H.
  specialize (H Reference.QRCode_toString (Some "https://example.com")
                (Reference.rounded_options "#000000" "#FFFFFF")).
  specialize (H _ _ eq_refl eq_refl eq_refl eq_refl).
  vm_compute in H. discriminate.
Qed.

End Rounding.

(* ================================================================== *)
(** * Gradient fill                                                     *)
(* ================================================================== *)

Section GradientFill.

Import QRService.

(** Text without the pattern is left alone by the global replacement. *)
Lemma replaceAll_absent (pat repl s : string) :
  JS.includes pat s = false -> JS.replaceAll pat repl s = s.
Proof.
  unfold JS.replaceAll. induction s as [|c s IH]; intros H.
  - reflexivity.
  - cbn [JS.includes] in H. cbn [JS.replaceAll_from].
    destruct (String.prefix pat (String c s)); [discriminate|].
    now rewrite (IH H).
Qed.

(** When neither spelling of [fill="#000000"] occurs in the markup,
    [applyGradient] only inserts the gradient element: no fill changes. *)
Lemma applyGradient_without_black (svg : string) (gr : Gradient) :
  let inner :=
    JS.trim (JS.replace "</defs>" EmptyString (JS.replace "<defs" EmptyString (gradientDef gr))) in
  let svg1 := JS.replace "<svg" ("<svg " ++ inner) svg in
  JS.includes (attr "fill" "#000000") svg1 = false ->
  JS.includes "fill='#000000'" svg1 = false ->
  applyGradient svg gr = svg1.
Proof.
  intros inner svg1 H1 H2. unfold applyGradient. fold inner. fold svg1.
  rewrite (replaceAll_absent _ _ svg1 H1). apply (replaceAll_absent _ _ svg1 H2).
Qed.

(** C5 (the code at the failing input). With the dark colour configured to
    [#112233] and a gradient set, the dark modules of the rendered SVG are
    still filled with [#112233] and nothing refers to the gradient; with the
    default [#000000] the same modules do refer to it. *)
Theorem gradient_misses_configured_color :
  exists out out0 : string,
    generateSVG Reference.QRCode_toString (Some "https://example.com")
      (Reference.gradient_options "#112233" "#FFFFFF")
      = Returned (RawBuffer out) /\
    JS.includes (Reference.finder_module "#112233") out = true /\
    JS.includes (Reference.data_module "#112233") out = true /\
    JS.includes "url(#qrGradient)" out = false /\
    generateSVG Reference.QRCode_toString (Some "https://example.com")
      (Reference.gradient_options "#000000" "#FFFFFF")
      = Returned (RawBuffer out0) /\
    JS.includes (Reference.finder_module "url(#qrGradient)") out0 = true /\
    JS.includes (Reference.data_module "url(#qrGradient)") out0 = true.
Proof.
  eexists. eexists.
  split; [vm_compute; reflexivity|].
  split; [vm_compute; reflexivity|].
  split; [vm_compute; reflexivity|].
  split; [vm_compute; reflexivity|].
  split; [vm_compute; reflexivity|].
  split; vm_compute; reflexivity.
Qed.

End GradientFill.

(* ================================================================== *)
(** * Logo compositing                                                  *)
(* ================================================================== *)

Section Compositing.

Import QRService.

Variable fetch : string -> Outcome FetchResponse.

(** What a successful composite is: the fetched logo, resized into a square
    box, as the only layer on the rendered raster. *)
Lemma compositeLogo_returns (qrBuffer : Image) (options : QROptions)
  (logoUrl : string) (response : FetchResponse) :
  fetch logoUrl = Returned response -> ok response = true ->
  let edge := Qfloor (size options * JS.or_default (logoScale options) 0.2) in
  let corner := Qfloor ((size options - inject_Z edge) / 2) in
  compositeLogo fetch qrBuffer options logoUrl =
  Returned
    (Png (Composite qrBuffer
            [mkLayer (Png (ResizeInside (RawBuffer (body response)) edge edge) None)
               corner corner])
         None).
Proof.
  intros Hf Hok. unfold compositeLogo, fetchLogo.
  rewrite Hf. cbn [bindO]. rewrite Hok. reflexivity.
Qed.

(** A composite that returns had a successful fetch. *)
Lemma compositeLogo_success (qrBuffer : Image) (options : QROptions)
  (logoUrl : string) (result : Image) :
  compositeLogo fetch qrBuffer options logoUrl = Returned result ->
  exists response, fetch logoUrl = Returned response /\ ok response = true.
Proof.
  unfold compositeLogo, fetchLogo.
  destruct (fetch logoUrl) as [response|msg]; cbn [bindO]; [|discriminate].
  destruct (ok response) eqn:Hok; cbn [negb]; [|discriminate].
  intros _. exists response. split; [reflexivity | exact Hok].
Qed.

End Compositing.

Section CompositingBinary64.

Import Binary64 Compositor.

Variable fetch : string -> Outcome QRService.FetchResponse.
Variable toBuffer_error : Raster -> option string.

(** A number that is at least a truthy number is truthy: the comparison
    fails on NaN and a zero is below every positive number. *)
Lemma leb_truthy (lo x : float64) :
  truthy lo = true -> leb (S754_zero false) lo = true ->
  leb lo x = true -> truthy x = true.
Proof.
  unfold leb, SFleb.
  destruct lo as [s| s | |s m e]; cbn; try discriminate;
    destruct x as [s'|s'| |s' m' e']; cbn; try reflexivity; try discriminate;
    destruct s; cbn; try discriminate.
Qed.

(** When the composite returns, and what: the fetch answered [ok],
    [sharp] accepted the resize of the fetched bytes and the composite, and
    the result is the rendered raster under one layer, the resized logo. *)
Lemma compositeLogo_returned (qrBuffer : Raster)
  (options : QRService.QROptions) (logoUrl : string) (result : Raster) :
  let size := number (QRService.size options) in
  let edge :=
    floor (mul size
             (or_default (option_map number (QRService.logoScale options))
                (number 0.2))) in
  let corner := floor (div (sub size edge) (number 2)) in
  compositeLogo fetch toBuffer_error qrBuffer options logoUrl = Returned result <->
  exists response,
    fetch logoUrl = Returned response /\ QRService.ok response = true /\
    let logo := Png (ResizeInside (Buffer (QRService.body response)) edge edge) in
    toBuffer_error logo = None /\
    toBuffer_error (Png (Composite qrBuffer [mkOverlay logo corner corner])) = None /\
    result = Png (Composite qrBuffer [mkOverlay logo corner corner]).
Proof.
  cbv zeta. unfold compositeLogo, fetchLogo, toBuffer. split.
  - destruct (fetch logoUrl) as [response|msg]; cbn [bindO]; [|discriminate].
    destruct (QRService.ok response) eqn:Hok; cbn [negb]; [|discriminate].
    destruct (toBuffer_error (Png (ResizeInside _ _ _))) eqn:H1; cbn [bindO];
      [discriminate|].
    destruct (toBuffer_error (Png (Composite _ _))) eqn:H2; [discriminate|].
    intros H. injection H as <-. exists response. now repeat split.
  - intros (response & -> & Hok & H1 & H2 & ->). cbn [bindO].
    rewrite Hok. cbn [negb]. rewrite H1. cbn [bindO]. now rewrite H2.
Qed.


(** C7 (as amended). With a logo scale of at least 0.10 (as numbers
    compare), the composite succeeds exactly when the fetch answers [ok]
    and [sharp] accepts the two pipelines, and then the logo is resized
    into a square box whose edge is the floor of the binary64 product of
    size and scale, placed at [top = left], the floor of the binary64 half
    of size minus edge.  For size 512 and scale 0.2 these are 102 and
    205. *)
Theorem compositeLogo_binary64_geometry (qrBuffer : Raster)
  (options : QRService.QROptions) (logoUrl : string) (scale : Q)
  (result : Raster) :
  QRService.logoScale options = Some scale ->
  leb (number 0.10) (number scale) = true ->
  let size := number (QRService.size options) in
  let edge := floor (mul size (number scale)) in
  let corner := floor (div (sub size edge) (number 2)) in
  (compositeLogo fetch toBuffer_error qrBuffer options logoUrl = Returned result <->
   exists response,
     fetch logoUrl = Returned response /\ QRService.ok response = true /\
     let logo := Png (ResizeInside (Buffer (QRService.body response)) edge edge) in
     toBuffer_error logo = None /\
     toBuffer_error (Png (Composite qrBuffer [mkOverlay logo corner corner])) = None /\
     result = Png (Composite qrBuffer [mkOverlay logo corner corner])) /\
  (QRService.size options = 512 -> scale = 0.2 ->
   edge = of_Z 102 /\ corner = of_Z 205).
Proof.
  intros Hscale Hlo. cbv zeta. split.
  - rewrite compositeLogo_returned. cbv zeta. rewrite Hscale.
    cbn [option_map or_default].
    rewrite (leb_truthy (number 0.10) (number scale)); try reflexivity.
    exact Hlo.
  - intros -> ->. vm_compute. split; reflexivity.
Qed.

(** Whatever goes wrong in the logo step, the caller sees one error: the
    composite throws exactly when the fetch throws, answers without [ok],
    or [sharp] rejects the resize of the fetched bytes or the composite,
    and the message is always [Failed to composite logo onto QR code]. *)
Theorem compositeLogo_one_error (qrBuffer : Raster)
  (options : QRService.QROptions) (logoUrl : string) :
  let size := number (QRService.size options) in
  let edge :=
    floor (mul size
             (or_default (option_map number (QRService.logoScale options))
                (number 0.2))) in
  let corner := floor (div (sub size edge) (number 2)) in
  let run := compositeLogo fetch toBuffer_error qrBuffer options logoUrl in
  (forall message, run = Thrown message ->
     message = "Failed to composite logo onto QR code") /\
  (run = Thrown "Failed to composite logo onto QR code" <->
   (exists message, fetch logoUrl = Thrown message) \/
   (exists response,
      fetch logoUrl = Returned response /\
      let logo := Png (ResizeInside (Buffer (QRService.body response)) edge edge) in
      (QRService.ok response = false \/
       toBuffer_error logo <> None \/
       toBuffer_error (Png (Composite qrBuffer [mkOverlay logo corner corner]))
       <> None))).
Proof.
  cbv zeta. unfold compositeLogo, fetchLogo, toBuffer. split.
  - intros message.
    destruct (fetch logoUrl) as [response|msg]; cbn [bindO];
      [|intros H; now injection H].
    destruct (QRService.ok response); cbn [negb bindO];
      [|intros H; now injection H].
    destruct (toBuffer_error (Png (ResizeInside _ _ _))); cbn [bindO];
      [intros H; now injection H|].
    destruct (toBuffer_error (Png (Composite _ _)));
      [intros H; now injection H | discriminate].
  - destruct (fetch logoUrl) as [response|msg]; cbn [bindO].
    + destruct (QRService.ok response) eqn:Hok; cbn [negb bindO].
      * destruct (toBuffer_error (Png (ResizeInside _ _ _))) eqn:H1; cbn [bindO].
        { split; [intros _|reflexivity]. right. exists response.
          split; [reflexivity|]. right. left. rewrite H1. discriminate. }
        destruct (toBuffer_error (Png (Composite _ _))) eqn:H2.
        { split; [intros _|reflexivity]. right. exists response.
          split; [reflexivity|]. right. right. rewrite H2. discriminate. }
        split; [discriminate|].
        intros [(m & Hm) | (response' & Hr & Hcase)]; [discriminate|].
        injection Hr as <-. rewrite Hok, H1, H2 in Hcase.
        destruct Hcase as [Hc | [Hc | Hc]];
          [discriminate | now elim Hc | now elim Hc].
      * split; [intros _|reflexivity]. right. exists response.
        split; [reflexivity|]. now left.
    + split; [intros _|reflexivity]. left. now exists msg.
Qed.

End CompositingBinary64.

Section CompositingBinary64Examples.

Import Binary64 Compositor.



(** C7 (counterexample). At size 200 and scale 0.145 the product is 29,
    but the binary64 product of the two numbers is below 29: the logo box
    has edge 28 and sits at (86, 86). *)
Lemma compositeLogo_exact_floor_fails : ~ Spec.exact_geometry.
Proof.
  intros H.
  destruct (H Reference.fetch Reference.toBuffer_error (Buffer "qr")
              (QRService.mkQROptions 200 None None None false (Some 0.145%Q) None)
              0.145%Q "https://cdn.example/logos/logo.png" _
              ltac:(split; discriminate) eq_refl ltac:(split; discriminate)
              eq_refl)
    as (logo & edge & corner & Heq & Hedge & _).
  vm_compute in Heq. inversion Heq; subst.
  vm_compute in Hedge. discriminate.
Qed.

(** The same composite, as the code computes it. *)
Example compositeLogo_200_0145 :
  compositeLogo Reference.fetch Reference.toBuffer_error (Buffer "qr")
    (QRService.mkQROptions 200 None None None false (Some 0.145%Q) None)
    "https://cdn.example/logos/logo.png" =
  Returned
    (Png (Composite (Buffer "qr")
            [mkOverlay (Png (ResizeInside (Buffer "logo-bytes") (of_Z 28) (of_Z 28)))
               (of_Z 86) (of_Z 86)])).
Proof. vm_compute. reflexivity. Qed.

(** Rounding can also go up.  The number written 0.15 is a little below
    0.15, and its product with 200 is below 30, but the nearest binary64
    number to that product is 30: the edge is 30 where the floor of the
    product of the two numbers is 29. *)
Example compositeLogo_200_015 :
  let scale := number 0.15 in
  value scale = Some (5404319552844595 # 36028797018963968) /\
  Qfloor (200 * (5404319552844595 # 36028797018963968)) = 29%Z /\
  floor (mul (number 200) scale) = of_Z 30.
Proof. vm_compute. repeat split; reflexivity. Qed.

(** C7 (as amended) at size 512 and scale 0.2: a box of edge 102 at
    (205, 205). *)
Lemma compositeLogo_binary64_geometry_witness :
  compositeLogo Reference.fetch Reference.toBuffer_error (Buffer "qr")
    (Reference.options "#000000" "#FFFFFF")
    "https://cdn.example/logos/logo.png" =
  Returned
    (Png (Composite (Buffer "qr")
            [mkOverlay (Png (ResizeInside (Buffer "logo-bytes") (of_Z 102) (of_Z 102)))
               (of_Z 205) (of_Z 205)])).
Proof.
  destruct (compositeLogo_binary64_geometry Reference.fetch
              Reference.toBuffer_error (Buffer "qr")
              (Reference.options "#000000" "#FFFFFF")
              "https://cdn.example/logos/logo.png" 0.2 
              (Png (Composite (Buffer "qr")
                 [mkOverlay (Png (ResizeInside (Buffer "logo-bytes") (of_Z 102) (of_Z 102)))
                    (of_Z 205) (of_Z 205)]))
              eq_refl eq_refl) as (Hiff & Hnum).
  destruct (Hnum eq_refl eq_refl) as (He & Hc).
  apply Hiff. exists (QRService.mkFetchResponse true "OK" "logo-bytes").
  cbv zeta. rewrite Hc, He. now repeat split.
Defined.

(** A logo that is fetched but cannot be decoded: the composite throws
    its one error. *)
Lemma compositeLogo_one_error_witness :
  compositeLogo Reference.fetch Samples.undecodable (Buffer "qr")
    (Reference.options "#000000" "#FFFFFF")
    "https://cdn.example/logos/logo.png" =
  Thrown "Failed to composite logo onto QR code".
Proof.
  apply (proj2 (compositeLogo_one_error Reference.fetch Samples.undecodable
                  (Buffer "qr") (Reference.options "#000000" "#FFFFFF")
                  "https://cdn.example/logos/logo.png")).
  right. exists (QRService.mkFetchResponse true "OK" "logo-bytes").
  split; [reflexivity|]. right. left. discriminate.
Defined.

End CompositingBinary64Examples.

(* ================================================================== *)
(** * Contrast validation                                               *)
(* ================================================================== *)

Section IntegerRoot.
Local Open Scope Z_scope.

Lemma bisect_spec (k n : Z) (fuel : nat) :
  0 < k ->
  forall lo hi,
    0 <= lo < hi -> lo ^ k <= n < hi ^ k -> hi - lo <= 2 ^ Z.of_nat fuel ->
    let r := Reference.bisect k n fuel lo hi in
    lo <= r /\ r ^ k <= n < (r + 1) ^ k.
Proof.
  intros Hk. induction fuel as [|f IH]; intros lo hi Hlh Hinv Hw; cbn [Reference.bisect].
  - change (2 ^ Z.of_nat 0) with 1 in Hw.
    assert (hi = lo + 1) by lia. subst hi. lia.
  - destruct (Z.leb_spec (hi - lo) 1) as [Hle|Hgt].
    + assert (hi = lo + 1) by lia. subst hi. lia.
    + assert (Hpow : 2 ^ Z.of_nat (S f) = 2 * 2 ^ Z.of_nat f).
      { rewrite Nat2Z.inj_succ, Z.pow_succ_r by lia. reflexivity. }
      assert (Hmid : lo < (lo + hi) / 2 < hi /\ hi - (lo + hi) / 2 <= 2 ^ Z.of_nat f
                     /\ (lo + hi) / 2 - lo <= 2 ^ Z.of_nat f).
      { rewrite Hpow in Hw. generalize dependent (2 ^ Z.of_nat f). intros P _ HwP.
        pose proof (Z.div_mod (lo + hi) 2 ltac:(lia)).
        pose proof (Z.mod_pos_bound (lo + hi) 2 ltac:(lia)). lia. }
      destruct Hmid as (Hm & Hw1 & Hw2).
      destruct (Z.leb_spec (((lo + hi) / 2) ^ k) n) as [Hc|Hc].
      * specialize (IH ((lo + hi) / 2) hi ltac:(lia) ltac:(lia) Hw1). cbn zeta in IH. lia.
      * specialize (IH lo ((lo + hi) / 2) ltac:(lia) ltac:(lia) Hw2). cbn zeta in IH. lia.
Qed.

Lemma iroot_spec (k n : Z) :
  0 < k -> 0 <= n ->
  0 <= Reference.iroot k n /\
  Reference.iroot k n ^ k <= n < (Reference.iroot k n + 1) ^ k.
Proof.
  intros Hk Hn. unfold Reference.iroot.
  set (bits := Z.to_nat (Z.log2 n + 1)).
  assert (Hbits : Z.of_nat bits = Z.log2 n + 1).
  { unfold bits. rewrite Z2Nat.id; [reflexivity|]. pose proof (Z.log2_nonneg n). lia. }
  assert (Hn2 : n < 2 ^ Z.of_nat bits).
  { rewrite Hbits. destruct (Z.eq_dec n 0) as [->|Hn0]; [reflexivity|].
    apply Z.log2_spec. lia. }
  assert (Hhi : n < (2 ^ Z.of_nat bits) ^ k).
  { eapply Z.lt_le_trans; [exact Hn2|].
    rewrite <- (Z.pow_1_r (2 ^ Z.of_nat bits)) at 1.
    apply Z.pow_le_mono_r; lia. }
  apply (bisect_spec k n bits Hk 0 (2 ^ Z.of_nat bits)).
  - lia.
  - split; [|exact Hhi]. rewrite Z.pow_0_l by lia. exact Hn.
  - lia.
Qed.
End IntegerRoot.

Section PowApprox.
Local Open Scope Q_scope.

Lemma Qpow5_le (a b : Q) : 0 <= a -> a <= b -> a ^ 5 <= b ^ 5.
Proof.
  intros Ha Hab.
  assert (H2 : a * a <= b * b) by nra.
  assert (H4 : (a * a) * (a * a) <= (b * b) * (b * b)) by nra.
  assert (H5 : (a * a) * (a * a) * a <= (b * b) * (b * b) * b) by nra.
  assert (Ea : a ^ 5 == (a * a) * (a * a) * a) by ring.
  assert (Eb : b ^ 5 == (b * b) * (b * b) * b) by ring.
  rewrite Ea, Eb. exact H5.
Qed.

Lemma Qpow12_nonneg (x : Q) : 0 <= x ^ 12.
Proof.
  assert (E : x ^ 12 == (x ^ 6) * (x ^ 6)) by ring.
  rewrite E. nra.
Qed.

Lemma ref_pow_one (x : Q) : x == 1 -> Reference.Math_pow x 2.4 == 1.
Proof.
  intros H. unfold Reference.Math_pow, Reference.pow_12_5.
  assert (E : Qfloor (x ^ 12 * inject_Z (10 ^ 30)) = Qfloor (1 ^ 12 * inject_Z (10 ^ 30))).
  { apply Qfloor_comp. rewrite H. reflexivity. }
  rewrite E. vm_compute. reflexivity.
Qed.

Lemma ref_pow_close (x : Q) :
  0 <= x <= 1 ->
  0 <= Reference.Math_pow x 2.4 /\
  (Reference.Math_pow x 2.4 - Spec.pow_tolerance) ^ 5 <= x ^ 12 /\
  x ^ 12 <= (Reference.Math_pow x 2.4 + Spec.pow_tolerance) ^ 5.
Proof.
  intros Hx. unfold Reference.Math_pow, Reference.pow_12_5.
  set (n := Qfloor (x ^ 12 * inject_Z (10 ^ 30))).
  assert (Hn : (0 <= n)%Z).
  { unfold n. rewrite <- (Qfloor_Z 0). apply Qfloor_resp_le.
    pose proof (Qpow12_nonneg x). change (inject_Z 0) with 0.
    apply Qmult_le_0_compat; [assumption | discriminate]. }
  destruct (iroot_spec 5 n ltac:(lia) Hn) as (Hr0 & Hlo & Hhi).
  set (r := Reference.iroot 5 n) in *.
  set (T := inject_Z (10 ^ 6)).
  assert (HT : 0 < T) by reflexivity.
  assert (HT5 : T ^ 5 == inject_Z (10 ^ 30)) by reflexivity.
  assert (Hy : Qmake r (10 ^ 6) == inject_Z r / T).
  { rewrite Qmake_Qdiv. reflexivity. }
  assert (Htol : Spec.pow_tolerance == 1 / T) by reflexivity.
  assert (Hfl : inject_Z n <= x ^ 12 * T ^ 5).
  { rewrite HT5. apply Qfloor_le. }
  assert (Hfu : x ^ 12 * T ^ 5 < inject_Z (n + 1)).
  { rewrite HT5. apply Qlt_floor. }
  assert (HT5pos : 0 < T ^ 5) by reflexivity.
  split; [|split].
  - rewrite Hy. apply Qle_shift_div_l; [exact HT|].
    rewrite Qmult_0_l. change 0 with (inject_Z 0). rewrite <- Zle_Qle. exact Hr0.
  - assert (E : (Qmake r (10 ^ 6) - Spec.pow_tolerance) ^ 5 ==
                (inject_Z (r - 1)) ^ 5 / T ^ 5).
    { rewrite Hy, Htol. unfold Z.sub. rewrite inject_Z_plus.
      change (inject_Z (- (1))) with (- (1)).
      field. intros HT0. rewrite HT0 in HT. discriminate. }
    rewrite E. apply Qle_shift_div_r; [exact HT5pos|].
    eapply Qle_trans; [|exact Hfl].
    rewrite <- Zpower_Qpower by lia. rewrite <- Zle_Qle.
    destruct (Z.eq_dec r 0) as [->|Hr]; [simpl; lia|].
    eapply Z.le_trans; [|exact Hlo].
    apply Z.pow_le_mono_l. lia.
  - assert (E : (Qmake r (10 ^ 6) + Spec.pow_tolerance) ^ 5 ==
                (inject_Z (r + 1)) ^ 5 / T ^ 5).
    { rewrite Hy, Htol. rewrite inject_Z_plus. change (inject_Z 1) with 1.
      field. intros HT0. rewrite HT0 in HT. discriminate. }
    rewrite E. apply Qle_shift_div_l; [exact HT5pos|].
    apply Qlt_le_weak. eapply Qlt_le_trans; [exact Hfu|].
    rewrite <- Zpower_Qpower by lia. rewrite <- Zle_Qle. lia.
Qed.

End PowApprox.

Section Contrast.

Import QRService.
Local Open Scope Q_scope.
Local Open Scope string_scope.

Variable Math_pow : Q -> Q -> Q.

Lemma Qmax_right (x y : Q) : x <= y -> Qmax x y = y.
Proof. intros H. unfold Qmax. apply Qle_bool_iff in H. now rewrite H. Qed.

Lemma Qmin_left (x y : Q) : x <= y -> Qmin x y = x.
Proof. intros H. unfold Qmin. apply Qle_bool_iff in H. now rewrite H. Qed.

Lemma Qle_bool_false (x y : Q) : y < x -> Qle_bool x y = false.
Proof.
  intros H. destruct (Qle_bool x y) eqn:E; [|reflexivity].
  apply Qle_bool_iff in E. exfalso. apply (Qlt_not_le _ _ H E).
Qed.

(** The verdict is the comparison of the WCAG ratio with 4.5. *)
Lemma validateContrast_ratio (color background : string) (c1 c2 : RGB) :
  rgb color = Some c1 -> rgb background = Some c2 ->
  let l1 := luminance Math_pow c1 in
  let l2 := luminance Math_pow c2 in
  let rho := (Qmax l1 l2 + 0.05) / (Qmin l1 l2 + 0.05) in
  ratio (validateContrast Math_pow color background) = Some rho /\
  (valid (validateContrast Math_pow color background) = true <-> 4.5 <= rho).
Proof.
  intros H1 H2 l1 l2 rho. unfold validateContrast. rewrite H1, H2.
  cbn [ratio valid]. split; [reflexivity|]. apply Qle_bool_iff.
Qed.

Lemma luminance_grey (v : Z) :
  luminance Math_pow (mkRGB v v v) == channel Math_pow v.
Proof. unfold luminance. cbn [r g b]. ring. Qed.

Lemma channel_low (v : Z) :
  Qle_bool (inject_Z v / 255) 0.03928 = true ->
  channel Math_pow v = inject_Z v / 255 / 12.92.
Proof. intros H. unfold channel. now rewrite H. Qed.

Lemma channel_high (v : Z) :
  Qle_bool (inject_Z v / 255) 0.03928 = false ->
  channel Math_pow v = Math_pow ((inject_Z v / 255 + 0.055) / 1.055) 2.4.
Proof. intros H. unfold channel. now rewrite H. Qed.

Hypothesis pow_one : forall x, x == 1 -> Math_pow x 2.4 == 1.

Hypothesis pow_close : forall x, 0 <= x <= 1 ->
  0 <= Math_pow x 2.4 /\
  (Math_pow x 2.4 - Spec.pow_tolerance) ^ 5 <= x ^ 12 /\
  x ^ 12 <= (Math_pow x 2.4 + Spec.pow_tolerance) ^ 5.

Lemma pow_above (x lo : Q) :
  0 <= x <= 1 -> 0 <= lo ->
  (lo + Spec.pow_tolerance) ^ 5 < x ^ 12 -> lo < Math_pow x 2.4.
Proof.
  intros Hx Hlo Hnum. destruct (pow_close x Hx) as (Hy & _ & Hup).
  destruct (Qlt_le_dec lo (Math_pow x 2.4)) as [H|H]; [exact H|].
  exfalso. apply (Qlt_not_le _ _ Hnum).
  eapply Qle_trans; [exact Hup|].
  apply Qpow5_le.
  - assert (0 < Spec.pow_tolerance) by reflexivity. lra.
  - lra.
Qed.

Lemma pow_below (x hi : Q) :
  0 <= x <= 1 -> Spec.pow_tolerance <= hi ->
  x ^ 12 < (hi - Spec.pow_tolerance) ^ 5 -> Math_pow x 2.4 < hi.
Proof.
  intros Hx Hhi Hnum. destruct (pow_close x Hx) as (Hy & Hdown & _).
  destruct (Qlt_le_dec (Math_pow x 2.4) hi) as [H|H]; [exact H|].
  exfalso. apply (Qlt_not_le _ _ Hnum).
  eapply Qle_trans; [|exact Hdown].
  apply Qpow5_le; lra.
Qed.

Lemma luminance_black : luminance Math_pow (mkRGB 0 0 0) == 0.
Proof.
  rewrite luminance_grey, channel_low by reflexivity. reflexivity.
Qed.

Lemma luminance_white : luminance Math_pow (mkRGB 255 255 255) == 1.
Proof.
  rewrite luminance_grey, channel_high by reflexivity.
  apply pow_one. reflexivity.
Qed.

Lemma luminance_777 :
  0.184 < luminance Math_pow (mkRGB 119 119 119) /\
  luminance Math_pow (mkRGB 119 119 119) < 0.185.
Proof.
  rewrite luminance_grey, channel_high by reflexivity. split.
  - apply pow_above; [split; discriminate | discriminate | reflexivity].
  - apply pow_below; [split; discriminate | discriminate | reflexivity].
Qed.

Lemma luminance_888 :
  0.246 < luminance Math_pow (mkRGB 136 136 136) /\
  luminance Math_pow (mkRGB 136 136 136) < 0.247.
Proof.
  rewrite luminance_grey, channel_high by reflexivity. split.
  - apply pow_above; [split; discriminate | discriminate | reflexivity].
  - apply pow_below; [split; discriminate | discriminate | reflexivity].
Qed.

(** The digits and the channels [rgb] reads are those of the
    specification. *)
Lemma hexValue_digit_value (c : ascii) : hexValue c = Spec.digit_value c.
Proof.
  destruct c as [[] [] [] [] [] [] [] []]; vm_compute; reflexivity.
Qed.

Lemma rgb_channels_spec (hex : string) (red green blue : Z) :
  Spec.channels hex = Some (red, green, blue) ->
  rgb hex = Some (mkRGB red green blue).
Proof.
  unfold Spec.channels, rgb, parseHexPair. fold (Spec.rgb_digits hex).
  destruct (Spec.rgb_digits hex) as [|r1 [|r2 [|g1 [|g2 [|b1 [|b2 [|]]]]]]];
    try discriminate.
  rewrite !hexValue_digit_value.
  destruct (Spec.digit_value r1); [|discriminate].
  destruct (Spec.digit_value r2); [|discriminate].
  destruct (Spec.digit_value g1);
    [|destruct (Spec.digit_value g2); discriminate].
  destruct (Spec.digit_value g2); [|discriminate].
  destruct (Spec.digit_value b1); [|discriminate].
  destruct (Spec.digit_value b2); [|discriminate].
  intros H. injection H as <- <- <-. reflexivity.
Qed.

(** The luminance and the ratio the code computes are the relative
    luminance and the contrast ratio of the specification. *)
Lemma luminance_relative (red green blue : Z) :
  luminance Math_pow (mkRGB red green blue) =
  Spec.relative_luminance (fun x => Math_pow x 2.4) (red, green, blue).
Proof. reflexivity. Qed.

Lemma ratio_contrast (l1 l2 : Q) :
  (Qmax l1 l2 + 0.05) / (Qmin l1 l2 + 0.05) = Spec.contrast_ratio l1 l2.
Proof.
  unfold Qmax, Qmin, Spec.contrast_ratio. now destruct (Qle_bool l1 l2).
Qed.

Lemma validateContrast_wcag (color background : string) (c1 c2 : Z * Z * Z) :
  Spec.channels color = Some c1 -> Spec.channels background = Some c2 ->
  let pow24 x := Math_pow x 2.4 in
  let rho := Spec.contrast_ratio (Spec.relative_luminance pow24 c1)
                                 (Spec.relative_luminance pow24 c2) in
  validateContrast Math_pow color background =
  mkContrastResult (Qle_bool 4.5 rho) (Some rho).
Proof.
  destruct c1 as [[r1 g1] b1], c2 as [[r2 g2] b2]. intros H1 H2.
  cbv zeta. unfold validateContrast.
  rewrite (rgb_channels_spec _ _ _ _ H1), (rgb_channels_spec _ _ _ _ H2).
  now rewrite ratio_contrast, !luminance_relative.
Qed.

(** The result when the first colour is the darker one, and when it is the
    lighter one. *)
Lemma validateContrast_darker_first (color background : string) (c1 c2 : RGB) :
  rgb color = Some c1 -> rgb background = Some c2 ->
  luminance Math_pow c1 <= luminance Math_pow c2 ->
  let rho := (luminance Math_pow c2 + 0.05) / (luminance Math_pow c1 + 0.05) in
  validateContrast Math_pow color background =
  mkContrastResult (Qle_bool 4.5 rho) (Some rho).
Proof.
  intros H1 H2 Hle. cbv zeta. unfold validateContrast. rewrite H1, H2.
  cbv zeta. now rewrite (Qmax_right _ _ Hle), (Qmin_left _ _ Hle).
Qed.

Lemma Qmax_left (x y : Q) : y < x -> Qmax x y = x.
Proof. intros H. unfold Qmax. now rewrite (Qle_bool_false _ _ H). Qed.

Lemma Qmin_right (x y : Q) : y < x -> Qmin x y = y.
Proof. intros H. unfold Qmin. now rewrite (Qle_bool_false _ _ H). Qed.

Lemma validateContrast_lighter_first (color background : string) (c1 c2 : RGB) :
  rgb color = Some c1 -> rgb background = Some c2 ->
  luminance Math_pow c2 < luminance Math_pow c1 ->
  let rho := (luminance Math_pow c1 + 0.05) / (luminance Math_pow c2 + 0.05) in
  validateContrast Math_pow color background =
  mkContrastResult (Qle_bool 4.5 rho) (Some rho).
Proof.
  intros H1 H2 Hlt. cbv zeta. unfold validateContrast. rewrite H1, H2.
  cbv zeta. now rewrite (Qmax_left _ _ Hlt), (Qmin_right _ _ Hlt).
Qed.

Lemma Qle_bool_true (x y : Q) : x <= y -> Qle_bool x y = true.
Proof. apply Qle_bool_iff. Qed.

Lemma channel_0 : channel Math_pow 0 == 0.
Proof. rewrite channel_low by reflexivity. reflexivity. Qed.

Lemma channel_255 : channel Math_pow 255 == 1.
Proof. rewrite channel_high by reflexivity. apply pow_one. reflexivity. Qed.

Lemma luminance_red : luminance Math_pow (mkRGB 255 0 0) == 0.2126.
Proof. unfold luminance. cbn [r g b]. rewrite channel_0, channel_255. reflexivity. Qed.

Lemma luminance_green : luminance Math_pow (mkRGB 0 255 0) == 0.7152.
Proof. unfold luminance. cbn [r g b]. rewrite channel_0, channel_255. reflexivity. Qed.

Lemma luminance_blue : luminance Math_pow (mkRGB 0 0 255) == 0.0722.
Proof. unfold luminance. cbn [r g b]. rewrite channel_0, channel_255. reflexivity. Qed.

(** C8. Black on white is valid with ratio (1.0 + 0.05) / (0.0 + 0.05) = 21;
    [#777777] on [#888888] has a ratio between 1.25 and 1.27, below 4.5,
    and is not valid.  The three primaries weigh 0.2126, 0.7152 and 0.0722:
    red on white has ratio 1.05 / 0.2626 and is not valid, green on black
    has 0.7652 / 0.05 and blue on white 1.05 / 0.1222, both valid.  In
    general, for two colours of six hexadecimal digits, the ratio returned
    is the WCAG contrast ratio of their relative luminances as the
    specification words them, and the verdict is exactly its comparison
    with 4.5. *)
Theorem validateContrast_examples :
  (exists rho,
     validateContrast Math_pow "#000000" "#FFFFFF" = mkContrastResult true (Some rho) /\
     rho == (1.0 + 0.05) / (0.0 + 0.05) /\ rho == 21) /\
  (exists rho,
     validateContrast Math_pow "#777777" "#888888" = mkContrastResult false (Some rho) /\
     1.25 < rho /\ rho < 1.27 /\ rho < 4.5) /\
  ((exists rho,
      validateContrast Math_pow "#FF0000" "#FFFFFF" = mkContrastResult false (Some rho) /\
      rho == 1.05 / 0.2626) /\
   (exists rho,
      validateContrast Math_pow "#00FF00" "#000000" = mkContrastResult true (Some rho) /\
      rho == 0.7652 / 0.05) /\
   (exists rho,
      validateContrast Math_pow "#0000ff" "#FFFFFF" = mkContrastResult true (Some rho) /\
      rho == 1.05 / 0.1222)) /\
  (forall color background c1 c2,
     Spec.channels color = Some c1 -> Spec.channels background = Some c2 ->
     let pow24 x := Math_pow x 2.4 in
     let rho := Spec.contrast_ratio (Spec.relative_luminance pow24 c1)
                                    (Spec.relative_luminance pow24 c2) in
     ratio (validateContrast Math_pow color background) = Some rho /\
     (valid (validateContrast Math_pow color background) = true <-> 4.5 <= rho)).
Proof.
  split; [|split; [|split]].
  - pose proof luminance_black as Hb. pose proof luminance_white as Hw.
    rewrite (validateContrast_darker_first "#000000" "#FFFFFF"
               (mkRGB 0 0 0) (mkRGB 255 255 255) eq_refl eq_refl) by lra.
    cbv zeta.
    assert (Hrho : (luminance Math_pow (mkRGB 255 255 255) + 0.05) /
                   (luminance Math_pow (mkRGB 0 0 0) + 0.05) == 21).
    { rewrite Hb, Hw. reflexivity. }
    eexists. split; [|split; [|exact Hrho]].
    + f_equal. apply Qle_bool_true. rewrite Hrho. discriminate.
    + rewrite Hrho. reflexivity.
  - destruct luminance_777 as [H7l H7u]. destruct luminance_888 as [H8l H8u].
    rewrite (validateContrast_darker_first "#777777" "#888888"
               (mkRGB 119 119 119) (mkRGB 136 136 136) eq_refl eq_refl) by lra.
    cbv zeta.
    set (l1 := luminance Math_pow (mkRGB 119 119 119)) in *.
    set (l2 := luminance Math_pow (mkRGB 136 136 136)) in *.
    assert (Hlo : 1.25 < (l2 + 0.05) / (l1 + 0.05)).
    { apply Qlt_shift_div_l; lra. }
    assert (Hhi : (l2 + 0.05) / (l1 + 0.05) < 1.27).
    { apply Qlt_shift_div_r; lra. }
    assert (Hrho : (l2 + 0.05) / (l1 + 0.05) < 4.5) by lra.
    eexists. split; [|split; [exact Hlo|split; [exact Hhi|exact Hrho]]].
    f_equal. apply Qle_bool_false. exact Hrho.
  - pose proof luminance_black as Hb. pose proof luminance_white as Hw.
    pose proof luminance_red as Hred. pose proof luminance_green as Hgreen.
    pose proof luminance_blue as Hblue.
    split; [|split].
    + rewrite (validateContrast_darker_first "#FF0000" "#FFFFFF"
                 (mkRGB 255 0 0) (mkRGB 255 255 255) eq_refl eq_refl) by lra.
      cbv zeta.
      assert (Hrho : (luminance Math_pow (mkRGB 255 255 255) + 0.05) /
                     (luminance Math_pow (mkRGB 255 0 0) + 0.05) == 1.05 / 0.2626).
      { rewrite Hred, Hw. reflexivity. }
      eexists. split; [|exact Hrho].
      f_equal. apply Qle_bool_false. rewrite Hrho. reflexivity.
    + rewrite (validateContrast_lighter_first "#00FF00" "#000000"
                 (mkRGB 0 255 0) (mkRGB 0 0 0) eq_refl eq_refl) by lra.
      cbv zeta.
      assert (Hrho : (luminance Math_pow (mkRGB 0 255 0) + 0.05) /
                     (luminance Math_pow (mkRGB 0 0 0) + 0.05) == 0.7652 / 0.05).
      { rewrite Hgreen, Hb. reflexivity. }
      eexists. split; [|exact Hrho].
      f_equal. apply Qle_bool_true. rewrite Hrho. discriminate.
    + rewrite (validateContrast_darker_first "#0000ff" "#FFFFFF"
                 (mkRGB 0 0 255) (mkRGB 255 255 255) eq_refl eq_refl) by lra.
      cbv zeta.
      assert (Hrho : (luminance Math_pow (mkRGB 255 255 255) + 0.05) /
                     (luminance Math_pow (mkRGB 0 0 255) + 0.05) == 1.05 / 0.1222).
      { rewrite Hblue, Hw. reflexivity. }
      eexists. split; [|exact Hrho].
      f_equal. apply Qle_bool_true. rewrite Hrho. discriminate.
  - intros color background c1 c2 H1 H2. cbv zeta.
    rewrite (validateContrast_wcag color background c1 c2 H1 H2).
    cbn [ratio valid]. split; [reflexivity|]. apply Qle_bool_iff.
Qed.

End Contrast.

Section ContrastExamples.

Import QRService.
Local Open Scope Q_scope.
Local Open Scope string_scope.

(** C8 with [Math.pow] computed to six decimals. *)
Lemma validateContrast_examples_witness :
  (exists rho,
     validateContrast Reference.Math_pow "#000000" "#FFFFFF"
       = mkContrastResult true (Some rho) /\
     rho == (1.0 + 0.05) / (0.0 + 0.05) /\ rho == 21) /\
  (exists rho,
     validateContrast Reference.Math_pow "#777777" "#888888"
       = mkContrastResult false (Some rho) /\
     1.25 < rho /\ rho < 1.27 /\ rho < 4.5) /\
  (exists rho,
     validateContrast Reference.Math_pow "#FF0000" "#FFFFFF"
       = mkContrastResult false (Some rho) /\
     rho == 1.05 / 0.2626) /\
  (let pow24 x := Reference.Math_pow x 2.4 in
   ratio (validateContrast Reference.Math_pow "#1A2b3C" "fedcba") =
   Some (Spec.contrast_ratio
           (Spec.relative_luminance pow24 (26, 43, 60)%Z)
           (Spec.relative_luminance pow24 (254, 220, 186)%Z))).
Proof.
  pose proof (validateContrast_examples Reference.Math_pow
                ref_pow_one ref_pow_close) as (Hbw & Hgrey & (Hred & _) & Hgen).
  split; [exact Hbw|]. split; [exact Hgrey|]. split; [exact Hred|].
  exact (proj1 (Hgen "#1A2b3C" "fedcba" _ _ eq_refl eq_refl)).
Defined.

End ContrastExamples.

Section Rejection.

Import QRService.
Local Open Scope string_scope.

Variable Math_pow : Q -> Q -> Q.

Lemma hexValue_is_hex (c : ascii) :
  Spec.is_hex c = match hexValue c with Some _ => true | None => false end.
Proof. destruct c as [[] [] [] [] [] [] [] []]; reflexivity. Qed.

Lemma parseHexPair_is_hex (x y : ascii) (v : Z) :
  parseHexPair x y = Some v -> Spec.is_hex x = true /\ Spec.is_hex y = true.
Proof.
  unfold parseHexPair. rewrite !hexValue_is_hex.
  destruct (hexValue x); [|discriminate]. destruct (hexValue y); [|discriminate].
  now split.
Qed.

Lemma is_hex_parseHexPair (x y : ascii) :
  Spec.is_hex x = true -> Spec.is_hex y = true ->
  exists v, parseHexPair x y = Some v.
Proof.
  unfold parseHexPair. rewrite !hexValue_is_hex.
  destruct (hexValue x); [|discriminate]. destruct (hexValue y); [|discriminate].
  intros _ _. eexists. reflexivity.
Qed.

(** What [rgb] accepts matches the pattern. *)
Lemma rgb_some_hex_colour (hex : string) (c : RGB) :
  rgb hex = Some c -> Spec.hex_colour hex.
Proof.
  unfold rgb. fold (Spec.rgb_digits hex).
  destruct (Spec.rgb_digits hex) as [|r1 [|r2 [|g1 [|g2 [|b1 [|b2 [|x rest]]]]]]]
    eqn:Hd; try discriminate.
  destruct (parseHexPair r1 r2) as [vr|] eqn:Hr; [|discriminate].
  destruct (parseHexPair g1 g2) as [vg|] eqn:Hg; [|discriminate].
  destruct (parseHexPair b1 b2) as [vb|] eqn:Hb; [|discriminate].
  intros _.
  destruct (parseHexPair_is_hex _ _ _ Hr) as [Hr1 Hr2].
  destruct (parseHexPair_is_hex _ _ _ Hg) as [Hg1 Hg2].
  destruct (parseHexPair_is_hex _ _ _ Hb) as [Hb1 Hb2].
  exists [r1; r2; g1; g2; b1; b2]. repeat split.
  - unfold Spec.rgb_digits in Hd. destruct hex as [|c0 rest]; [discriminate|].
    destruct (Ascii.eqb c0 "#") eqn:Hc.
    + right. apply Ascii.eqb_eq in Hc. subst c0. now rewrite Hd.
    + left. exact Hd.
  - cbn [forallb]. now rewrite Hr1, Hr2, Hg1, Hg2, Hb1, Hb2.
Qed.

(** What matches the pattern is accepted by [rgb]. *)
Lemma hex_colour_rgb_some (hex : string) :
  Spec.hex_colour hex -> exists c, rgb hex = Some c.
Proof.
  intros (ds & Hshape & Hlen & Hall).
  destruct ds as [|r1 [|r2 [|g1 [|g2 [|b1 [|b2 [|x rest]]]]]]]; try discriminate.
  cbn [forallb] in Hall.
  repeat (apply andb_true_iff in Hall; destruct Hall as [? Hall]).
  destruct (is_hex_parseHexPair r1 r2) as [vr Hr]; try assumption.
  destruct (is_hex_parseHexPair g1 g2) as [vg Hg]; try assumption.
  destruct (is_hex_parseHexPair b1 b2) as [vb Hb]; try assumption.
  assert (Hdigits : Spec.rgb_digits hex = string_of_list_ascii [r1; r2; g1; g2; b1; b2]).
  { destruct Hshape as [-> | ->].
    - cbn [string_of_list_ascii Spec.rgb_digits].
      destruct (Ascii.eqb r1 "#") eqn:Hc; [|reflexivity].
      apply Ascii.eqb_eq in Hc. subst r1. discriminate.
    - reflexivity. }
  exists (mkRGB vr vg vb). unfold rgb. fold (Spec.rgb_digits hex). rewrite Hdigits.
  cbn [string_of_list_ascii]. now rewrite Hr, Hg, Hb.
Qed.

Lemma not_hex_colour_rgb_none (hex : string) :
  ~ Spec.hex_colour hex -> rgb hex = None.
Proof.
  intros H. destruct (rgb hex) as [c|] eqn:E; [|reflexivity].
  elim H. exact (rgb_some_hex_colour hex c E).
Qed.

Lemma rgb_none_not_hex_colour (hex : string) :
  rgb hex = None -> ~ Spec.hex_colour hex.
Proof.
  intros E H. destruct (hex_colour_rgb_some hex H) as [c Hc]. congruence.
Qed.

(** C10. [validateContrast] is a total function: on every pair of strings it
    returns a result, it cannot throw.  When either string is not an optional
    [#] followed by exactly six hexadecimal digits, that result is
    [valid = false] without a ratio. *)
Theorem validateContrast_rejects_malformed (color background : string) :
  ~ Spec.hex_colour color \/ ~ Spec.hex_colour background ->
  validateContrast Math_pow color background = mkContrastResult false None.
Proof.
  intros [H | H]; apply not_hex_colour_rgb_none in H;
    unfold validateContrast; rewrite H; [reflexivity|].
  destruct (rgb color); reflexivity.
Qed.

(** Conversely, two well-formed colours always get a ratio. *)
Lemma validateContrast_wellformed_has_ratio (color background : string) :
  Spec.hex_colour color -> Spec.hex_colour background ->
  exists rho, ratio (validateContrast Math_pow color background) = Some rho.
Proof.
  intros H1 H2.
  destruct (hex_colour_rgb_some _ H1) as [c1 E1].
  destruct (hex_colour_rgb_some _ H2) as [c2 E2].
  unfold validateContrast. rewrite E1, E2. eexists. reflexivity.
Qed.

End Rejection.

Section RejectionExamples.

Import QRService.
Local Open Scope string_scope.

(** C10 on a colour name and on a colour one digit short. *)
Lemma validateContrast_rejects_malformed_witness :
  validateContrast Reference.Math_pow "red" "#FFFFFF" = mkContrastResult false None /\
  validateContrast Reference.Math_pow "#12345" "#FFFFFF" = mkContrastResult false None.
Proof.
  split.
  - apply (validateContrast_rejects_malformed Reference.Math_pow "red" "#FFFFFF").
    left. apply rgb_none_not_hex_colour. reflexivity.
  - apply (validateContrast_rejects_malformed Reference.Math_pow "#12345" "#FFFFFF").
    left. apply rgb_none_not_hex_colour. reflexivity.
Defined.

End RejectionExamples.

(* ================================================================== *)
(** * The reference digest, and edit tokens on concrete inputs          *)
(* ================================================================== *)

Section DigestExamples.

Local Open Scope string_scope.

Lemma state_bytes_length (s : Reference.State) :
  List.length (Reference.state_bytes s) = 32%nat.
Proof. destruct s as [[[[[[[a b] c] d] e] f] g] h]. reflexivity. Qed.

Lemma sha256_length (m : string) : List.length (Reference.sha256 m) = 32%nat.
Proof. unfold Reference.sha256. apply state_bytes_length. Qed.

(** The digest of ["abc"] (FIPS 180-4, appendix B.1). *)
Example sha256_abc :
  Crypto.toHex (Reference.sha256 "abc") =
  "ba7816bf8f01cfea414140de5dae2223b00361a396177a9cb410ff61f20015ad".
Proof. vm_compute. reflexivity. Qed.

(** C1 on a concrete token, salt and digest. *)
Lemma verifyEditToken_hashEditToken_witness :
  fst (Crypto.hashEditToken Reference.sha256 "s3cret" Reference.entropy) =
    "0b30557a9fc4e90e33587da2c7ec1136:" ++
    "27ac34be525ac68b4e8094e86996462a399b76b2512ad7dc553ea51de403e7cb" /\
  Crypto.verifyEditToken Reference.sha256 "s3cret"
    (fst (Crypto.hashEditToken Reference.sha256 "s3cret" Reference.entropy))
  = true.
Proof.
  split.
  - vm_compute. reflexivity.
  - exact (proj2 (proj2 (proj2
      (verifyEditToken_hashEditToken Reference.sha256 sha256_length
         "s3cret" Reference.entropy)))).
Defined.

End DigestExamples.

(* ================================================================== *)
(** * The export route                                                  *)
(* ================================================================== *)

Section ExportRoute.

Import QRService Routes.
Local Open Scope string_scope.

Variable QRCode_toString : option string -> QRCodeConfig -> Outcome string.
Variable fetch : string -> Outcome FetchResponse.

(** The reply to a request whose record exists, by format. *)
Lemma exportHandler_found (rows : list QRRow) (i format : string) (size : Q)
  (qrCode : QRRow) :
  prisma_findUnique rows i = Some qrCode ->
  let data :=
    match mode qrCode with
    | REDIRECT => targetUrl qrCode
    | EMBED => Some (content qrCode)
    end in
  let options := withSize (options qrCode) size in
  let logo := truthy (logoUrl qrCode) in
  let reply (rendered : Outcome Image) (contentType : string) :=
    match rendered with
    | Returned buffer =>
        mkResponse 200
          [("Content-Type", contentType); ("Cache-Control", "public, max-age=3600")]
          (Binary buffer)
    | Thrown _ => fail 500 (Message "Internal server error")
    end in
  exportHandler QRCode_toString fetch rows i format size =
  if String.eqb format "svg" then
    reply (generateSVG QRCode_toString data options) "image/svg+xml"
  else if String.eqb format "png" then
    reply (generatePNG QRCode_toString fetch data options logo) "image/png"
  else if String.eqb format "jpeg" then
    reply (generateJPEG QRCode_toString fetch data options logo) "image/jpeg"
  else fail 400 (Message "Invalid format. Use png, jpeg, or svg.").
Proof.
  intros Hfind. unfold exportHandler. rewrite Hfind. cbv zeta.
  destruct (String.eqb format "svg");
    [destruct (generateSVG _ _ _); reflexivity|].
  destruct (String.eqb format "png");
    [destruct (generatePNG _ _ _ _ _); reflexivity|].
  destruct (String.eqb format "jpeg");
    [destruct (generateJPEG _ _ _ _ _); reflexivity|].
  reflexivity.
Qed.

(** C9. The export route serves each of the three formats with its own
    media type: for a record that exists, when the renderer of the
    requested format returns a buffer, the reply is 200 with that buffer
    and a [Content-Type] header that is exactly [image/svg+xml] for svg,
    [image/png] for png and [image/jpeg] for jpeg.  Conversely a reply
    with status 200 only arises for one of the three formats and carries
    its media type; a format outside the three is answered with a client
    error, 404 when the record does not exist and 400 otherwise, and never
    with an image or a server error. *)
Theorem exportHandler_content_type (rows : list QRRow) (i format : string)
  (size : Q) :
  let res := exportHandler QRCode_toString fetch rows i format size in
  let image (contentType : string) (buffer : Image) :=
    mkResponse 200
      [("Content-Type", contentType); ("Cache-Control", "public, max-age=3600")]
      (Binary buffer) in
  (forall qrCode, prisma_findUnique rows i = Some qrCode ->
     let data :=
       match mode qrCode with
       | REDIRECT => targetUrl qrCode
       | EMBED => Some (content qrCode)
       end in
     let options := withSize (options qrCode) size in
     let logo := truthy (logoUrl qrCode) in
     (format = "svg" -> forall buffer,
        generateSVG QRCode_toString data options = Returned buffer ->
        res = image "image/svg+xml" buffer) /\
     (format = "png" -> forall buffer,
        generatePNG QRCode_toString fetch data options logo = Returned buffer ->
        res = image "image/png" buffer) /\
     (format = "jpeg" -> forall buffer,
        generateJPEG QRCode_toString fetch data options logo = Returned buffer ->
        res = image "image/jpeg" buffer)) /\
  (status res = 200%Z ->
     exists (mt : string) (buffer : Image),
       Spec.media_type format = Some mt /\ res = image mt buffer) /\
  (Spec.media_type format = None ->
     (status res = 400%Z \/ status res = 404%Z) /\
     exists error, payload res = Failure error /\ headers res = []).
Proof.
  intros res image. subst res image. split; [|split].
  - intros qrCode Hfind. cbv zeta.
    rewrite (exportHandler_found rows i format size qrCode Hfind). cbv zeta.
    repeat split; intros -> buffer ->; reflexivity.
  - destruct (prisma_findUnique rows i) as [qrCode|] eqn:Hfind.
    + rewrite (exportHandler_found rows i format size qrCode Hfind). cbv zeta.
      unfold Spec.media_type.
      destruct (String.eqb format "svg").
      { destruct (generateSVG _ _ _) as [buffer|msg]; cbn; [|discriminate].
        intros _. now exists "image/svg+xml", buffer. }
      destruct (String.eqb format "png").
      { destruct (generatePNG _ _ _ _ _) as [buffer|msg]; cbn; [|discriminate].
        intros _. now exists "image/png", buffer. }
      destruct (String.eqb format "jpeg").
      { destruct (generateJPEG _ _ _ _ _) as [buffer|msg]; cbn; [|discriminate].
        intros _. now exists "image/jpeg", buffer. }
      cbn; discriminate.
    + unfold exportHandler. rewrite Hfind. cbn; discriminate.
  - destruct (prisma_findUnique rows i) as [qrCode|] eqn:Hfind.
    + rewrite (exportHandler_found rows i format size qrCode Hfind). cbv zeta.
      unfold Spec.media_type.
      destruct (String.eqb format "svg"); [discriminate|].
      destruct (String.eqb format "png"); [discriminate|].
      destruct (String.eqb format "jpeg"); [discriminate|].
      intros _. split; [left; reflexivity|]. eexists. split; reflexivity.
    + unfold exportHandler. rewrite Hfind.
      intros _. split; [right; reflexivity|]. eexists. split; reflexivity.
Qed.

End ExportRoute.

Section ExportExamples.

Import QRService Routes.
Local Open Scope string_scope.

(** C9 on the example table: the record [id-0] is served as
    [image/svg+xml], [image/png] and [image/jpeg] on request, and [gif] is
    a client error. *)
Lemma exportHandler_content_type_witness :
  let export := exportHandler Reference.QRCode_toString Reference.fetch
                  (table Reference.world) "id-0" in
  let image (contentType : string) (buffer : Image) :=
    mkResponse 200
      [("Content-Type", contentType); ("Cache-Control", "public, max-age=3600")]
      (Binary buffer) in
  (exists buffer, export "svg" 512 = image "image/svg+xml" buffer) /\
  (exists buffer, export "png" 512 = image "image/png" buffer) /\
  (exists buffer, export "jpeg" 512 = image "image/jpeg" buffer) /\
  (status (export "gif" 512) = 400%Z \/ status (export "gif" 512) = 404%Z).
Proof.
  cbv zeta.
  pose proof (fun format =>
    exportHandler_content_type Reference.QRCode_toString Reference.fetch
      (table Reference.world) "id-0" format 512) as H.
  cbv zeta in H.
  split; [|split; [|split]].
  - destruct (H "svg") as (Hserve & _ & _).
    destruct (Hserve _ eq_refl) as (Hsvg & _ & _).
    eexists. apply Hsvg; [reflexivity|]. vm_compute. reflexivity.
  - destruct (H "png") as (Hserve & _ & _).
    destruct (Hserve _ eq_refl) as (_ & Hpng & _).
    eexists. apply Hpng; [reflexivity|]. vm_compute. reflexivity.
  - destruct (H "jpeg") as (Hserve & _ & _).
    destruct (Hserve _ eq_refl) as (_ & _ & Hjpeg).
    eexists. apply Hjpeg; [reflexivity|]. vm_compute. reflexivity.
  - destruct (H "gif") as (_ & _ & Hother).
    exact (proj1 (Hother eq_refl)).
Defined.

End ExportExamples.

(* ================================================================== *)
(** * The creation route and slug collisions                            *)
(* ================================================================== *)

Section Creation.

Import QRService Routes.
Local Open Scope string_scope.

Variable sha256 : string -> list byte.
Variable Math_pow : Q -> Q -> Q.
Variable uploadLogo : string -> Rand LogoStep.
Variable BASE_URL : string.

(** The slug loop takes one draw per character and leaves the secure
    source alone. *)
Lemma generateSlug_loop_draws (n : nat) (result : string) (e : Entropy) :
  (forall i, unit_draws (snd (Crypto.generateSlug_loop n result e)) i =
             unit_draws e (n + i)%nat) /\
  secure_bytes (snd (Crypto.generateSlug_loop n result e)) = secure_bytes e.
Proof.
  revert result e. induction n as [|n IH]; intros result e.
  - split; reflexivity.
  - cbn [Crypto.generateSlug_loop]. unfold bind, Math_random. cbn [fst snd].
    match goal with
    | |- context [Crypto.generateSlug_loop n ?r ?e'] =>
        destruct (IH r e') as [Hd Hs]
    end.
    split.
    + intros i. rewrite Hd. cbn [unit_draws]. f_equal.
    + rewrite Hs. reflexivity.
Qed.

Lemma generateEditToken_draws (e : Entropy) :
  unit_draws (snd (Crypto.generateEditToken e)) = unit_draws e.
Proof. reflexivity. Qed.

Lemma hashEditToken_draws (token : string) (e : Entropy) :
  unit_draws (snd (Crypto.hashEditToken sha256 token e)) = unit_draws e.
Proof. reflexivity. Qed.

(** A request that passes the contrast check and carries no logo goes
    straight to the issue of identifiers. *)
Lemma createHandler_plain (req : CreateQRRequest) (w : World) :
  contrastRejection Math_pow (req_options req) = None ->
  truthy (req_logo req) = None ->
  createHandler sha256 Math_pow uploadLogo BASE_URL req w =
  issue sha256 BASE_URL req None w.
Proof. intros Hc Hl. unfold createHandler. now rewrite Hc, Hl. Qed.

(** C4 (as amended). [generateSlug] produces only a candidate, and creation
    draws exactly one: when that candidate collides with an already issued
    slug the storage layer rejects the record and, without any retry, the
    request is answered with the generic 500 "Internal server error";
    nothing is stored and nine draws (one candidate) have been taken from
    [Math.random]. *)
Theorem issue_single_candidate (req : CreateQRRequest)
  (logoUrl : option string) (w : World) :
  slug_taken (table w) (fst (Crypto.generateSlug (entropy w))) = true ->
  let out := issue sha256 BASE_URL req logoUrl w in
  fst out = fail 500 (Message "Internal server error") /\
  table (snd out) = table w /\
  (forall i, unit_draws (entropy (snd out)) i =
             unit_draws (entropy w) (9 + i)%nat) /\
  (contrastRejection Math_pow (req_options req) = None ->
   truthy (req_logo req) = None -> logoUrl = None ->
   createHandler sha256 Math_pow uploadLogo BASE_URL req w = out).
Proof.
  intros Htaken out. subst out. unfold issue.
  pose proof (generateSlug_loop_draws 9 EmptyString (entropy w)) as [Hd _].
  fold Crypto.generateSlug in Hd.
  destruct (Crypto.generateSlug (entropy w)) as [candidate e1] eqn:Hslug.
  cbn [fst snd] in Htaken, Hd.
  destruct (Crypto.generateEditToken e1) as [editToken e2] eqn:Htok.
  destruct (Crypto.hashEditToken sha256 editToken e2) as [editTokenHash e3] eqn:Hh.
  unfold prisma_create. cbn [Routes.slug table]. rewrite Htaken. cbn [fst snd table entropy].
  assert (He3 : unit_draws e3 = unit_draws e1).
  { pose proof (hashEditToken_draws editToken e2) as H3. rewrite Hh in H3.
    pose proof (generateEditToken_draws e1) as H2. rewrite Htok in H2.
    cbn [snd] in H2, H3. congruence. }
  split; [reflexivity|]. split; [reflexivity|]. split.
  - intros i. rewrite He3. apply Hd.
  - intros Hc Hl ->. rewrite (createHandler_plain req w Hc Hl).
    unfold issue. rewrite Hslug, Htok, Hh.
    unfold prisma_create. cbn [Routes.slug table]. rewrite Htaken. reflexivity.
Qed.

End Creation.

Section CreationExamples.

Import QRService Routes.
Local Open Scope string_scope.

(** C4 on the example table, whose only record holds the first candidate. *)
Lemma issue_single_candidate_witness :
  fst (createHandler Reference.sha256 Reference.Math_pow Reference.uploadLogo
         "https://qr.example" Reference.request Reference.world)
  = fail 500 (Message "Internal server error").
Proof.
  destruct (issue_single_candidate Reference.sha256 Reference.Math_pow
              Reference.uploadLogo "https://qr.example" Reference.request None
              Reference.world eq_refl) as (Hres & _ & _ & Hcreate).
  rewrite (Hcreate eq_refl eq_refl eq_refl). exact Hres.
Defined.

(** C4 (counterexample). The first candidate, [DNYit3EOZ], is taken and the
    next one, [ju5FQalv6], is free; creation fails all the same. *)
Lemma createHandler_does_not_retry : ~ Spec.retries_on_collision.
Proof.
  intros H.
  specialize (H Reference.sha256 Reference.Math_pow Reference.uploadLogo
                "https://qr.example" Reference.request Reference.world
                eq_refl eq_refl).
  cbv zeta in H. specialize (H eq_refl eq_refl).
  vm_compute in H. discriminate.
Qed.

End CreationExamples.

(* ================================================================== *)
(** * Further properties: tokens, rendering, routes                     *)
(* ================================================================== *)

Section TokenShape.

Lemma string_forall_append (p : ascii -> bool) (a b : string) :
  Props.string_forall p (a ++ b) =
  Props.string_forall p a && Props.string_forall p b.
Proof.
  induction a as [|c a IH]; cbn; [reflexivity|].
  rewrite IH. now rewrite andb_assoc.
Qed.

Lemma hexDigit_lower_hex (b : byte) :
  Props.is_lower_hex (Crypto.hexDigit (N.div (Byte.to_N b) 16)) = true /\
  Props.is_lower_hex (Crypto.hexDigit (N.modulo (Byte.to_N b) 16)) = true.
Proof. destruct b; split; reflexivity. Qed.

Lemma toHex_lower_hex (bs : list byte) :
  Props.string_forall Props.is_lower_hex (Crypto.toHex bs) = true.
Proof.
  induction bs as [|b bs IH]; [reflexivity|].
  destruct (hexDigit_lower_hex b) as [H1 H2].
  cbn [Crypto.toHex Props.string_forall]. now rewrite H1, H2, IH.
Qed.

(** [generateEditToken] returns exactly 64 characters, each a lower-case
    hexadecimal digit, whatever the random source. *)
Theorem generateEditToken_shape (e : Entropy) :
  String.length (fst (Crypto.generateEditToken e)) = 64%nat /\
  Props.string_forall Props.is_lower_hex (fst (Crypto.generateEditToken e)) = true.
Proof.
  unfold Crypto.generateEditToken, bind, ret.
  destruct (randomBytes 32 e) as [bytes e'] eqn:Hr. cbn [fst].
  split.
  - rewrite toHex_length.
    pose proof (randomBytes_length 32 e) as Hl. rewrite Hr in Hl. cbn [fst] in Hl.
    rewrite Hl. reflexivity.
  - apply toHex_lower_hex.
Qed.

Lemma get_chars_alnum (n : nat) :
  (n < 62)%nat ->
  exists c, String.get n Crypto.chars = Some c /\ Props.is_alnum c = true.
Proof.
  intros H.
  do 62 (destruct n as [|n]; [eexists; split; reflexivity|]).
  lia.
Qed.

Lemma charAt_chars_alnum (i : Z) :
  (0 <= i < 62)%Z ->
  exists c, JS.charAt Crypto.chars i = String c EmptyString /\
            Props.is_alnum c = true.
Proof.
  intros H. unfold JS.charAt.
  destruct (Z.ltb_spec i 0) as [Hneg|_]; [lia|].
  destruct (get_chars_alnum (Z.to_nat i) ltac:(lia)) as (c & Hc & Ha).
  rewrite Hc. now exists c.
Qed.

Lemma draw_index (x : Q) :
  0 <= x -> x < 1 ->
  (0 <= Qfloor (x * inject_Z (Z.of_nat (String.length Crypto.chars))) < 62)%Z.
Proof.
  intros H0 H1.
  change (inject_Z (Z.of_nat (String.length Crypto.chars))) with (inject_Z 62).
  split.
  - rewrite <- (Qfloor_Z 0). apply Qfloor_resp_le.
    change (inject_Z 0) with 0%Q. change (inject_Z 62) with 62%Q. nra.
  - rewrite Zlt_Qlt. eapply Qle_lt_trans; [apply Qfloor_le|].
    change (inject_Z 62) with 62%Q. nra.
Qed.

Lemma generateSlug_loop_shape (n : nat) :
  forall (result : string) (e : Entropy),
    (forall i, (i < n)%nat -> 0 <= unit_draws e i /\ unit_draws e i < 1) ->
    String.length (fst (Crypto.generateSlug_loop n result e)) =
      (String.length result + n)%nat /\
    (Props.string_forall Props.is_alnum result = true ->
     Props.string_forall Props.is_alnum
       (fst (Crypto.generateSlug_loop n result e)) = true).
Proof.
  induction n as [|n IH]; intros result e Hd.
  - cbn. split; [lia | auto].
  - cbn [Crypto.generateSlug_loop]. unfold bind, Math_random.
    destruct (Hd 0%nat ltac:(lia)) as [H0 H1].
    destruct (charAt_chars_alnum _ (draw_index _ H0 H1)) as (c & Hc & Ha).
    rewrite Hc.
    match goal with
    | |- context [Crypto.generateSlug_loop n ?r ?e'] =>
        destruct (IH r e') as [Hl Hs]
    end.
    { intros i Hi. cbn [unit_draws]. apply Hd. lia. }
    split.
    + rewrite Hl, length_append. cbn. lia.
    + intros Hr. apply Hs. rewrite string_forall_append, Hr. cbn [Props.string_forall andb]. now rewrite Ha.
Qed.

(** When every draw of [Math.random] lies in [0, 1), [generateSlug] returns
    exactly nine characters, each from [A-Za-z0-9]. *)
Theorem generateSlug_shape (e : Entropy) :
  (forall i, (i < 9)%nat -> 0 <= unit_draws e i /\ unit_draws e i < 1) ->
  String.length (fst (Crypto.generateSlug e)) = 9%nat /\
  Props.string_forall Props.is_alnum (fst (Crypto.generateSlug e)) = true.
Proof.
  intros Hd. unfold Crypto.generateSlug.
  destruct (generateSlug_loop_shape 9 EmptyString e Hd) as [Hl Hs].
  split; [exact Hl | now apply Hs].
Qed.

End TokenShape.

Section HexInjective.

(** Reading the two digits of a byte back gives the byte. *)
Lemma parseHexPair_hexDigit (b : byte) :
  QRService.parseHexPair (Crypto.hexDigit (N.div (Byte.to_N b) 16))
                         (Crypto.hexDigit (N.modulo (Byte.to_N b) 16)) =
  Some (Z.of_N (Byte.to_N b)).
Proof. destruct b; reflexivity. Qed.

Lemma toHex_injective (a b : list byte) :
  Crypto.toHex a = Crypto.toHex b -> a = b.
Proof.
  revert b. induction a as [|x a IH]; intros [|y b] H; try discriminate.
  - reflexivity.
  - cbn [Crypto.toHex] in H. injection H as H1 H2 H3.
    pose proof (parseHexPair_hexDigit x) as Hx.
    pose proof (parseHexPair_hexDigit y) as Hy.
    rewrite H1, H2, Hy in Hx. injection Hx as Hx.
    apply N2Z.inj in Hx.
    assert (Some y = Some x) as Hxy
      by (rewrite <- (Byte.of_to_N y), <- (Byte.of_to_N x); now rewrite Hx).
    injection Hxy as ->. f_equal. now apply IH.
Qed.

Lemma append_injective_l (a a' b b' : string) :
  String.length a = String.length a' -> a ++ b = a' ++ b' -> a = a'.
Proof.
  revert a'. induction a as [|c a IH]; intros [|c' a'] Hl H; try discriminate.
  - reflexivity.
  - cbn in H. injection H as -> H. f_equal. apply IH; [now injection Hl | exact H].
Qed.

End HexInjective.

Section SplitFacts.

Lemma split_nonempty (sep : ascii) (s : string) : JS.split sep s <> [].
Proof.
  destruct s as [|c s]; cbn; [discriminate|].
  destruct (Ascii.eqb c sep); [discriminate|].
  destruct (JS.split sep s); discriminate.
Qed.

(** Joining the parts with the separator gives the string back. *)
Lemma join_split (s : string) : Props.join ":" (JS.split ":" s) = s.
Proof.
  induction s as [|c s IH]; [reflexivity|].
  cbn [JS.split]. destruct (Ascii.eqb c ":") eqn:Hc.
  - apply Ascii.eqb_eq in Hc. subst c.
    pose proof (split_nonempty ":" s) as Hne.
    destruct (JS.split ":" s) as [|h t] eqn:Hs; [congruence|].
    change (Props.join ":" ("" :: h :: t)) with ("" ++ ":" ++ Props.join ":" (h :: t)).
    rewrite IH. reflexivity.
  - pose proof (split_nonempty ":" s) as Hne.
    destruct (JS.split ":" s) as [|h t] eqn:Hs; [congruence|].
    destruct t as [|h2 t].
    + cbn in IH |- *. now rewrite IH.
    + change (Props.join ":" (String c h :: h2 :: t))
        with (String c (h ++ ":" ++ Props.join ":" (h2 :: t))).
      change (Props.join ":" (h :: h2 :: t))
        with (h ++ ":" ++ Props.join ":" (h2 :: t)) in IH.
      now rewrite IH.
Qed.

Lemma split_parts_colon_free (s : string) :
  Forall (fun p => Spec.colon_free p = true) (JS.split ":" s).
Proof.
  induction s as [|c s IH]; cbn [JS.split].
  - constructor; [reflexivity | constructor].
  - destruct (Ascii.eqb c ":") eqn:Hc.
    + constructor; [reflexivity | exact IH].
    + destruct (JS.split ":" s) as [|h t].
      * constructor; [cbn; now rewrite Hc | constructor].
      * inversion IH as [|? ? Hh Ht]; subst.
        constructor; [cbn; now rewrite Hc, Hh | exact Ht].
Qed.

End SplitFacts.

Section VerifyMore.

Variable sha256 : string -> list byte.

(** Verification fails closed: it succeeds only on a stored string that
    starts with a non-empty salt, a colon and a non-empty hash, both without
    colon, where the hash is the hex digest of the salt followed by the
    token.  A stored string without colon is never verified. *)
Theorem verifyEditToken_only_wellformed (token stored : string) :
  Crypto.verifyEditToken sha256 token stored = true ->
  exists salt hash rest : string,
    stored = salt ++ ":" ++ hash ++ rest /\
    (rest = EmptyString \/ exists more, rest = ":" ++ more) /\
    salt <> EmptyString /\ hash <> EmptyString /\
    Spec.colon_free salt = true /\ Spec.colon_free hash = true /\
    hash = Crypto.toHex (sha256 (salt ++ token)).
Proof.
  unfold Crypto.verifyEditToken. intros H.
  pose proof (join_split stored) as Hj.
  pose proof (split_parts_colon_free stored) as Hf.
  destruct (JS.split ":" stored) as [|salt [|hash t]] eqn:Hs;
    cbn [nth_error JS.falsy] in H.
  - discriminate.
  - rewrite orb_true_r in H. discriminate.
  - destruct salt as [|c1 salt]; [discriminate|].
    destruct hash as [|c2 hash]; [discriminate|].
    cbn [JS.falsy orb] in H. apply String.eqb_eq in H.
    pose proof (Forall_inv Hf) as Hsalt.
    pose proof (Forall_inv (Forall_inv_tail Hf)) as Hhash.
    cbn beta in Hsalt, Hhash.
    exists (String c1 salt), (String c2 hash).
    destruct t as [|h3 t].
    + exists EmptyString. rewrite append_nil_r.
      repeat split; try discriminate; auto.
    + exists (":" ++ Props.join ":" (h3 :: t)).
      split.
      { rewrite <- Hj.
        change (Props.join ":" (String c1 salt :: String c2 hash :: h3 :: t))
          with (String c1 salt ++ ":" ++ (String c2 hash ++ ":" ++ Props.join ":" (h3 :: t))).
        reflexivity. }
      repeat split; try discriminate; auto.
      right. eexists. reflexivity.
Qed.

(** Whatever follows a second colon in the stored string is ignored. *)
Theorem verifyEditToken_ignores_tail (token salt hash extra : string) :
  Spec.colon_free salt = true -> Spec.colon_free hash = true ->
  Crypto.verifyEditToken sha256 token (salt ++ ":" ++ hash ++ ":" ++ extra) =
  Crypto.verifyEditToken sha256 token (salt ++ ":" ++ hash).
Proof.
  intros Hs Hh. unfold Crypto.verifyEditToken.
  rewrite (split_at_colon salt (hash ++ ":" ++ extra) Hs).
  rewrite (split_at_colon hash extra Hh).
  rewrite (split_at_colon salt hash Hs), (split_colon_free hash Hh).
  pose proof (split_nonempty ":" extra).
  destruct (JS.split ":" extra); [congruence | reflexivity].
Qed.

Hypothesis digest_32 : forall m, List.length (sha256 m) = 32%nat.

(** A token is accepted against the stored hash of [t] exactly when its
    salted digest equals that of [t]. *)
Theorem verifyEditToken_accepts_iff_digest (t t' : string) (e : Entropy) :
  let salt := Crypto.toHex (map (secure_bytes e) (seq 0 16)) in
  Crypto.verifyEditToken sha256 t' (fst (Crypto.hashEditToken sha256 t e)) = true
  <-> sha256 (salt ++ t') = sha256 (salt ++ t).
Proof.
  intros salt.
  change (fst (Crypto.hashEditToken sha256 t e))
    with (salt ++ ":" ++ Crypto.toHex (sha256 (salt ++ t))).
  rewrite verifyEditToken_split.
  - rewrite String.eqb_eq. split; [apply toHex_injective | now intros ->].
  - apply toHex_colon_free.
  - apply toHex_colon_free.
  - apply toHex_nonempty. discriminate.
  - apply toHex_nonempty. intros Hnil.
    pose proof (digest_32 (salt ++ t)) as Hlen. rewrite Hnil in Hlen. discriminate.
Qed.

End VerifyMore.

Section Salts.

Variable sha256 : string -> list byte.

(** Hashing the same token twice in a row gives two different stored
    strings as soon as the two blocks of sixteen random bytes differ. *)
Theorem hashEditToken_fresh_salt (t : string) (e : Entropy) :
  let first := Crypto.hashEditToken sha256 t e in
  let second := Crypto.hashEditToken sha256 t (snd first) in
  map (secure_bytes e) (seq 0 16) <> map (secure_bytes e) (seq 16 16) ->
  fst first <> fst second.
Proof.
  intros first second Hdiff Heq. apply Hdiff.
  set (s1 := map (secure_bytes e) (seq 0 16)).
  set (s2 := map (secure_bytes e) (seq 16 16)).
  assert (H1 : fst first =
               Crypto.toHex s1 ++ ":" ++ Crypto.toHex (sha256 (Crypto.toHex s1 ++ t)))
    by reflexivity.
  assert (H2 : fst second =
               Crypto.toHex s2 ++ ":" ++ Crypto.toHex (sha256 (Crypto.toHex s2 ++ t)))
    by reflexivity.
  rewrite H1, H2 in Heq.
  apply toHex_injective.
  eapply (append_injective_l (Crypto.toHex s1) (Crypto.toHex s2)); [|exact Heq].
  rewrite !toHex_length. unfold s1, s2. now rewrite !length_map, !length_seq.
Qed.

(** In [hashIP] the default salt applies to the concatenation: with the
    variable unset the text [undefined] is hashed after the address, and
    [default-salt] is used only when address and salt are both empty. *)
Theorem hashIP_default_salt (salt : option string) (ip : string) :
  (salt = None ->
     Crypto.hashIP sha256 salt ip = Crypto.toHex (sha256 (ip ++ "undefined"))) /\
  (forall s, salt = Some s -> (ip <> EmptyString \/ s <> EmptyString) ->
     Crypto.hashIP sha256 salt ip = Crypto.toHex (sha256 (ip ++ s))) /\
  (salt = Some EmptyString -> ip = EmptyString ->
     Crypto.hashIP sha256 salt ip = Crypto.toHex (sha256 "default-salt")).
Proof.
  unfold Crypto.hashIP. split; [|split].
  - intros ->. cbn [Crypto.envText]. destruct ip; reflexivity.
  - intros s -> H. cbn [Crypto.envText].
    destruct ip as [|c ip]; [|reflexivity].
    destruct s as [|c s]; [|reflexivity]. destruct H; congruence.
  - intros -> ->. reflexivity.
Qed.

End Salts.

Section RoundingMore.
Import QRService.

(** Markup in which [rect width=] followed by a quote does not occur is
    returned unchanged by [applyRoundedCorners]. *)
Theorem applyRoundedCorners_without_rect (svg : string) :
  JS.includes ("rect width=" ++ JS.dq) svg = false ->
  applyRoundedCorners svg = svg.
Proof.
  induction svg as [|c s IH]; intros H; [reflexivity|].
  cbn [JS.includes] in H.
  destruct (String.prefix ("rect width=" ++ JS.dq) (String c s)) eqn:Hp;
    [discriminate|].
  rewrite (applyRoundedCorners_copy c s (match_rect_needs_head _ Hp)).
  now rewrite (IH H).
Qed.

End RoundingMore.

Section GradientTag.
Import QRService.

Lemma replace_from_start (pat repl s : string) :
  JS.replace pat repl s = Props.replace_from pat repl s EmptyString.
Proof. unfold JS.replace, Props.replace_from. now destruct (JS.find pat s EmptyString) as [[? ?]|]. Qed.

Lemma replace_from_step (pat repl : string) (c : ascii) (s acc : string) :
  String.prefix pat (String c s) = false ->
  Props.replace_from pat repl (String c s) acc =
  Props.replace_from pat repl s (acc ++ String c EmptyString).
Proof.
  intros H. unfold Props.replace_from. cbn [JS.find]. rewrite H.
  destruct (JS.find pat s (acc ++ String c EmptyString)) as [[? ?]|]; [reflexivity|].
  now rewrite append_assoc.
Qed.

Lemma find_keeps (pat s acc before after : string) :
  JS.find pat s acc = Some (before, after) -> exists t, before = acc ++ t.
Proof.
  revert acc. induction s as [|c s IH]; intros acc; cbn [JS.find].
  - destruct (String.prefix pat EmptyString); [|discriminate].
    intros H. injection H as <- _. exists EmptyString. now rewrite append_nil_r.
  - destruct (String.prefix pat (String c s)).
    + intros H. injection H as <- _. exists EmptyString. now rewrite append_nil_r.
    + intros H. destruct (IH _ H) as [t Ht]. exists (String c t).
      rewrite Ht, append_assoc. reflexivity.
Qed.

Lemma replace_from_keeps (pat repl s acc : string) :
  exists t, Props.replace_from pat repl s acc = acc ++ t.
Proof.
  unfold Props.replace_from. destruct (JS.find pat s acc) as [[before after]|] eqn:E.
  - destruct (find_keeps _ _ _ _ _ E) as [t ->]. eexists. rewrite append_assoc. reflexivity.
  - eexists. reflexivity.
Qed.

Lemma trimEnd_nonspace (c : ascii) (s : string) :
  JS.is_space c = false -> exists t, JS.trimEnd (String c s) = String c t.
Proof.
  intros H. cbn [JS.trimEnd]. rewrite H.
  destruct (JS.trimEnd s); eexists; reflexivity.
Qed.

Lemma trimEnd_keeps (a : string) (c : ascii) (s : string) :
  JS.is_space c = false ->
  exists t, JS.trimEnd (a ++ String c s) = a ++ String c t.
Proof.
  intros H. induction a as [|x a [t IH]].
  - apply trimEnd_nonspace. exact H.
  - cbn [append JS.trimEnd]. rewrite IH.
    destruct a; eexists; reflexivity.
Qed.

End GradientTag.

Section GradientTag2.
Import QRService.

Lemma replaceAll_from_copy (pat repl : string) (c : ascii) (s : string) :
  String.prefix pat (String c s) = false ->
  JS.replaceAll_from 0 pat repl (String c s) =
  String c (JS.replaceAll_from 0 pat repl s).
Proof. intros H. cbn [JS.replaceAll_from]. now rewrite H. Qed.

Lemma trimStart_space (c : ascii) (s : string) :
  JS.is_space c = true -> JS.trimStart (String c s) = JS.trimStart s.
Proof. intros H. cbn [JS.trimStart]. now rewrite H. Qed.

Lemma trimStart_stop (c : ascii) (s : string) :
  JS.is_space c = false -> JS.trimStart (String c s) = String c s.
Proof. intros H. cbn [JS.trimStart]. now rewrite H. Qed.

Lemma inner_head (gr : Gradient) :
  exists t,
    JS.trim (JS.replace "</defs>" EmptyString
               (JS.replace "<defs" EmptyString (gradientDef gr))) =
    Props.gradient_head ++ t.
Proof.
  assert (A : exists t, JS.replace "<defs" EmptyString (gradientDef gr) =
                        JS.lf ++ "      " ++ Props.gradient_head ++ String " " t).
  { eexists. unfold gradientDef, Props.gradient_head, attr, JS.lf, JS.dq.
    cbv -[from to]. reflexivity. }
  destruct A as [t1 ->].
  rewrite replace_from_start.
  unfold Props.gradient_head, attr, JS.lf, JS.dq. cbn [append].
  do 48 (rewrite replace_from_step by reflexivity).
  destruct (replace_from_keeps "</defs>" EmptyString (String " " t1)
              (JS.lf ++ "      " ++ Props.gradient_head)) as [t2 Ht2].
  unfold Props.gradient_head, attr, JS.lf, JS.dq in Ht2. cbn [append] in Ht2 |- *.
  rewrite Ht2. unfold JS.trim.
  do 7 (rewrite trimStart_space by reflexivity).
  rewrite trimStart_stop by reflexivity.
  match goal with
  | |- exists t, JS.trimEnd ?x = _ =>
      change x with
        ((">" ++ String "010" ("        <linearGradient id=" ++
            String "034" "qrGradient")) ++ String "034" t2)
  end.
  destruct (trimEnd_keeps
              (">" ++ String "010" ("        <linearGradient id=" ++
                 String "034" "qrGradient")) "034" t2 eq_refl) as [t3 Ht3].
  rewrite Ht3. exists t3. rewrite append_assoc. reflexivity.
Qed.

(** On markup that starts with [<svg], [applyGradient] closes the opening
    tag right after [<svg ] and puts the [linearGradient] element next,
    without [defs] around it: what the tag held follows as text. *)
Theorem applyGradient_opening_tag (post : string) (gr : Gradient) :
  exists tail,
    applyGradient ("<svg" ++ post) gr = "<svg " ++ Props.gradient_head ++ tail.
Proof.
  unfold applyGradient. destruct (inner_head gr) as [t ->].
  assert (S1 : exists u,
             JS.replace "<svg" ("<svg " ++ Props.gradient_head ++ t) ("<svg" ++ post) =
             "<svg " ++ Props.gradient_head ++ u).
  { unfold JS.replace. cbn [append JS.find String.prefix].
    repeat match goal with
           | |- context [ascii_dec ?a ?b] => destruct (ascii_dec a b); [|congruence]
           end.
    assert (Hp : String.prefix EmptyString post = true) by now destruct post.
    rewrite Hp. cbn [String.length JS.drop].
    unfold Props.gradient_head, attr, JS.lf, JS.dq. cbn [append JS.substitution].
    eexists. reflexivity. }
  destruct S1 as [u ->].
  unfold Props.gradient_head, attr, JS.lf, JS.dq, JS.replaceAll. cbn [append].
  do 46 (rewrite replaceAll_from_copy by reflexivity).
  do 46 (rewrite replaceAll_from_copy by reflexivity).
  eexists. reflexivity.
Qed.

End GradientTag2.

Section ContrastMore.
Import QRService.
Local Open Scope Q_scope.

Variable Math_pow : Q -> Q -> Q.

Lemma Qmax_sym (x y : Q) : Qmax x y == Qmax y x.
Proof.
  unfold Qmax. destruct (Qle_bool x y) eqn:E1; destruct (Qle_bool y x) eqn:E2;
    try reflexivity.
  - apply Qle_bool_iff in E1. apply Qle_bool_iff in E2. now apply Qle_antisym.
  - destruct (Qlt_le_dec y x) as [H|H].
    + apply Qlt_le_weak in H. apply Qle_bool_iff in H. congruence.
    + apply Qle_bool_iff in H. congruence.
Qed.

Lemma Qmin_sym (x y : Q) : Qmin x y == Qmin y x.
Proof.
  unfold Qmin. destruct (Qle_bool x y) eqn:E1; destruct (Qle_bool y x) eqn:E2;
    try reflexivity.
  - apply Qle_bool_iff in E1. apply Qle_bool_iff in E2. now apply Qle_antisym.
  - destruct (Qlt_le_dec y x) as [H|H].
    + apply Qlt_le_weak in H. apply Qle_bool_iff in H. congruence.
    + apply Qle_bool_iff in H. congruence.
Qed.

(** The verdict and the ratio do not depend on the order of the two
    colours. *)
Theorem validateContrast_symmetric (color background : string) :
  valid (validateContrast Math_pow color background) =
  valid (validateContrast Math_pow background color) /\
  Props.same_ratio (ratio (validateContrast Math_pow color background))
             (ratio (validateContrast Math_pow background color)).
Proof.
  unfold validateContrast.
  destruct (rgb color) as [c1|]; destruct (rgb background) as [c2|];
    cbn [valid ratio Props.same_ratio]; try (split; [reflexivity | exact I]).
  assert (E : (Qmax (luminance Math_pow c1) (luminance Math_pow c2) + 0.05) /
              (Qmin (luminance Math_pow c1) (luminance Math_pow c2) + 0.05) ==
              (Qmax (luminance Math_pow c2) (luminance Math_pow c1) + 0.05) /
              (Qmin (luminance Math_pow c2) (luminance Math_pow c1) + 0.05)).
  { rewrite (Qmax_sym (luminance Math_pow c1)), (Qmin_sym (luminance Math_pow c1)).
    reflexivity. }
  split; [|exact E]. now rewrite E.
Qed.

Lemma hexValue_range (c : ascii) (v : Z) :
  hexValue c = Some v -> (0 <= v <= 15)%Z.
Proof.
  unfold hexValue. cbv zeta.
  generalize (Z.of_nat (nat_of_ascii c)). intros n.
  destruct ((48 <=? n) && (n <=? 57))%Z eqn:E1.
  { intros H. injection H as <-. apply andb_true_iff in E1.
    destruct E1 as [A B]. apply Z.leb_le in A. apply Z.leb_le in B. lia. }
  destruct ((97 <=? n) && (n <=? 102))%Z eqn:E2.
  { intros H. injection H as <-. apply andb_true_iff in E2.
    destruct E2 as [A B]. apply Z.leb_le in A. apply Z.leb_le in B. lia. }
  destruct ((65 <=? n) && (n <=? 70))%Z eqn:E3; [|discriminate].
  intros H. injection H as <-. apply andb_true_iff in E3.
  destruct E3 as [A B]. apply Z.leb_le in A. apply Z.leb_le in B. lia.
Qed.

Lemma parseHexPair_range (x y : ascii) (v : Z) :
  parseHexPair x y = Some v -> Props.is_channel v.
Proof.
  unfold parseHexPair, Props.is_channel.
  destruct (hexValue x) as [a|] eqn:Ha; [|discriminate].
  destruct (hexValue y) as [b|] eqn:Hb; [|discriminate].
  intros H. assert (E : v = (16 * a + b)%Z) by (now injection H).
  apply hexValue_range in Ha. apply hexValue_range in Hb. lia.
Qed.

(** Every channel [rgb] returns fits a byte. *)
Theorem rgb_channels (hex : string) (c : RGB) :
  rgb hex = Some c ->
  Props.is_channel (r c) /\ Props.is_channel (g c) /\ Props.is_channel (b c).
Proof.
  unfold rgb. fold (Spec.rgb_digits hex).
  destruct (Spec.rgb_digits hex) as [|r1 [|r2 [|g1 [|g2 [|b1 [|b2 [|x rest]]]]]]];
    try discriminate.
  destruct (parseHexPair r1 r2) as [vr|] eqn:Hr; [|discriminate].
  destruct (parseHexPair g1 g2) as [vg|] eqn:Hg; [|discriminate].
  destruct (parseHexPair b1 b2) as [vb|] eqn:Hb; [|discriminate].
  intros H. injection H as <-. cbn [r g b].
  split; [|split]; eapply parseHexPair_range; eassumption.
Qed.

Hypothesis pow_nonneg : forall x, 0 <= x -> 0 <= Math_pow x 2.4.

Lemma channel_nonneg (v : Z) : (0 <= v)%Z -> 0 <= channel Math_pow v.
Proof.
  intros Hv. unfold channel.
  assert (Hval : 0 <= inject_Z v / 255).
  { apply Qle_shift_div_l; [reflexivity|]. rewrite Qmult_0_l.
    change 0 with (inject_Z 0). now rewrite <- Zle_Qle. }
  destruct (Qle_bool (inject_Z v / 255) 0.03928).
  - apply Qle_shift_div_l; [reflexivity|]. now rewrite Qmult_0_l.
  - apply pow_nonneg. apply Qle_shift_div_l; [reflexivity|]. rewrite Qmult_0_l. lra.
Qed.

Lemma luminance_nonneg (c : RGB) :
  (0 <= r c)%Z -> (0 <= g c)%Z -> (0 <= b c)%Z -> 0 <= luminance Math_pow c.
Proof.
  intros Hr Hg Hb. unfold luminance.
  pose proof (channel_nonneg _ Hr). pose proof (channel_nonneg _ Hg).
  pose proof (channel_nonneg _ Hb). lra.
Qed.

Lemma Qmin_le_Qmax (x y : Q) : Qmin x y <= Qmax x y.
Proof.
  unfold Qmin, Qmax. destruct (Qle_bool x y) eqn:E.
  - now apply Qle_bool_iff.
  - destruct (Qlt_le_dec y x) as [H|H]; [now apply Qlt_le_weak|].
    apply Qle_bool_iff in H. congruence.
Qed.

Lemma Qmin_nonneg (x y : Q) : 0 <= x -> 0 <= y -> 0 <= Qmin x y.
Proof. intros. unfold Qmin. now destruct (Qle_bool x y). Qed.

(** For two well-formed colours the ratio is at least 1; a colour against
    itself has ratio 1 and is not valid. *)
Theorem validateContrast_ratio_at_least_one (color background : string)
  (c1 c2 : RGB) :
  rgb color = Some c1 -> rgb background = Some c2 ->
  (exists rho, ratio (validateContrast Math_pow color background) = Some rho /\
               1 <= rho) /\
  (exists rho, validateContrast Math_pow color color =
               mkContrastResult false (Some rho) /\ rho == 1).
Proof.
  intros H1 H2.
  destruct (rgb_channels _ _ H1) as ([Hr1 _] & [Hg1 _] & [Hb1 _]).
  destruct (rgb_channels _ _ H2) as ([Hr2 _] & [Hg2 _] & [Hb2 _]).
  pose proof (luminance_nonneg c1 Hr1 Hg1 Hb1) as L1.
  pose proof (luminance_nonneg c2 Hr2 Hg2 Hb2) as L2.
  split.
  - unfold validateContrast. rewrite H1, H2. cbn [ratio].
    eexists. split; [reflexivity|].
    pose proof (Qmin_le_Qmax (luminance Math_pow c1) (luminance Math_pow c2)).
    pose proof (Qmin_nonneg _ _ L1 L2).
    apply Qle_shift_div_l; lra.
  - unfold validateContrast. rewrite H1.
    set (l := luminance Math_pow c1) in *.
    assert (Hmax : Qmax l l = l) by (unfold Qmax; now destruct (Qle_bool l l)).
    assert (Hmin : Qmin l l = l) by (unfold Qmin; now destruct (Qle_bool l l)).
    rewrite Hmax, Hmin.
    assert (E : (l + 0.05) / (l + 0.05) == 1) by (field; lra).
    exists ((l + 0.05) / (l + 0.05)). split; [|exact E].
    f_equal. apply Qle_bool_false. rewrite E. reflexivity.
Qed.

End ContrastMore.

Section PowNonneg.
Local Open Scope Q_scope.

Lemma ref_pow_nonneg (x : Q) : 0 <= x -> 0 <= Reference.Math_pow x 2.4.
Proof.
  intros _. unfold Reference.Math_pow, Reference.pow_12_5.
  set (n := Qfloor (x ^ 12 * inject_Z (10 ^ 30))).
  assert (Hn : (0 <= n)%Z).
  { unfold n. rewrite <- (Qfloor_Z 0). apply Qfloor_resp_le.
    pose proof (Qpow12_nonneg x). change (inject_Z 0) with 0.
    apply Qmult_le_0_compat; [assumption | discriminate]. }
  destruct (iroot_spec 5 n ltac:(lia) Hn) as (Hr0 & _).
  unfold Qle. cbn [Qnum Qden]. lia.
Qed.

End PowNonneg.

Section LogoMore.
Import QRService.

Variable QRCode_toString : option string -> QRCodeConfig -> Outcome string.
Variable fetch : string -> Outcome FetchResponse.

Lemma compositeLogo_fails (qrBuffer : Image) (options : QROptions) (url : string) :
  (forall response, fetch url = Returned response -> ok response = false) ->
  compositeLogo fetch qrBuffer options url =
  Thrown "Failed to composite logo onto QR code".
Proof.
  intros H. unfold compositeLogo, fetchLogo.
  destruct (fetch url) as [response|msg] eqn:Hf; cbn [bindO]; [|reflexivity].
  rewrite (H response eq_refl). reflexivity.
Qed.



(** A missing logo scale and a logo scale of zero both mean 0.2. *)
Theorem compositeLogo_default_scale (qrBuffer : Image) (options : QROptions)
  (logoUrl : string) :
  (logoScale options = None \/
   exists z, logoScale options = Some z /\ (z == 0)%Q) ->
  compositeLogo fetch qrBuffer options logoUrl =
  compositeLogo fetch qrBuffer
    (mkQROptions (size options) (color options) (background options)
       (gradient options) (rounded options) (Some 0.2%Q)
       (errorCorrection options))
    logoUrl.
Proof.
  intros H. unfold compositeLogo. cbn [size logoScale].
  assert (E : JS.or_default (logoScale options) 0.2 = JS.or_default (Some 0.2%Q) 0.2).
  { destruct H as [-> | (z & -> & Hz)]; [reflexivity|].
    unfold JS.or_default. apply Qeq_bool_iff in Hz. now rewrite Hz. }
  now rewrite E.
Qed.

End LogoMore.

Section ExportMore.
Import QRService Routes.

Variable QRCode_toString : option string -> QRCodeConfig -> Outcome string.

(** The svg export never looks at the logo: its reply does not depend on
    [fetch], and its buffer is the markup itself. *)
Theorem exportHandler_svg_ignores_logo
  (fetch fetch' : string -> Outcome FetchResponse)
  (rows : list QRRow) (i : string) (size : Q) :
  exportHandler QRCode_toString fetch rows i "svg" size =
  exportHandler QRCode_toString fetch' rows i "svg" size /\
  (forall buffer,
     payload (exportHandler QRCode_toString fetch rows i "svg" size) =
       Binary buffer ->
     exists svg, buffer = RawBuffer svg).
Proof.
  split; [reflexivity|].
  unfold exportHandler. destruct (prisma_findUnique rows i) as [qrCode|];
    [|discriminate].
  cbn [String.eqb Ascii.eqb Bool.eqb].
  unfold generateSVG.
  destruct (QRCode_toString _ _) as [svg|msg]; cbn [bindO payload fail];
    [|discriminate].
  intros buffer H. injection H as <-. eexists. reflexivity.
Qed.

Variable fetch : string -> Outcome FetchResponse.

(** The jpeg export has the status of the png export; its buffer is the
    png buffer re-encoded at quality 90 and its failures are those of png. *)
Theorem exportHandler_jpeg_follows_png (rows : list QRRow) (i : string)
  (size : Q) :
  let png := exportHandler QRCode_toString fetch rows i "png" size in
  let jpeg := exportHandler QRCode_toString fetch rows i "jpeg" size in
  status jpeg = status png /\
  (forall buffer, payload png = Binary buffer ->
                  payload jpeg = Binary (Jpeg buffer 90) /\
                  headers jpeg = [("Content-Type", "image/jpeg");
                                  ("Cache-Control", "public, max-age=3600")]) /\
  (forall error, payload png = Failure error -> payload jpeg = Failure error).
Proof.
  cbv zeta. unfold exportHandler.
  destruct (prisma_findUnique rows i) as [qrCode|].
  - cbn [String.eqb Ascii.eqb Bool.eqb]. unfold generateJPEG.
    destruct (generatePNG _ _ _ _ _) as [buffer|msg]; cbn [bindO status payload headers fail].
    + split; [reflexivity|]. split.
      * intros b H. injection H as <-. split; reflexivity.
      * intros e H. discriminate.
    + split; [reflexivity|]. split; [discriminate|]. intros e H. exact H.
  - split; [reflexivity|]. split; [discriminate|]. intros e H. exact H.
Qed.

End ExportMore.

Section CreationMore.
Import QRService Routes.

Variable sha256 : string -> list byte.
Variable Math_pow : Q -> Q -> Q.
Variable uploadLogo : string -> Rand LogoStep.
Variable BASE_URL : string.

(** A creation request whose colours fail the contrast check is answered
    400 with the ratio, and the world is left as it was: nothing is drawn
    from the random sources, uploaded or stored. *)
Theorem createHandler_contrast_blocks (req : CreateQRRequest) (w : World)
  (o : StoredOptions) (c bg : string) :
  req_options req = Some o ->
  truthy (st_color o) = Some c -> truthy (st_background o) = Some bg ->
  valid (validateContrast Math_pow c bg) = false ->
  createHandler sha256 Math_pow uploadLogo BASE_URL req w =
  (fail 400 (ContrastTooLow (ratio (validateContrast Math_pow c bg))), w).
Proof.
  intros Ho Hc Hb Hv. unfold createHandler, contrastRejection.
  now rewrite Ho, Hc, Hb, Hv.
Qed.

Hypothesis digest_bytes : forall m, List.length (sha256 m) = 32%nat.

Lemma hashEditToken_verifies (t : string) (e : Entropy) :
  Crypto.verifyEditToken sha256 t (fst (Crypto.hashEditToken sha256 t e)) = true.
Proof.
  set (salt := Crypto.toHex (map (secure_bytes e) (seq 0 16))).
  change (fst (Crypto.hashEditToken sha256 t e))
    with (salt ++ ":" ++ Crypto.toHex (sha256 (salt ++ t))).
  rewrite verifyEditToken_split.
  - apply String.eqb_refl.
  - apply toHex_colon_free.
  - apply toHex_colon_free.
  - apply toHex_nonempty. discriminate.
  - apply toHex_nonempty. intros Hnil.
    pose proof (digest_bytes (salt ++ t)) as Hlen. rewrite Hnil in Hlen. discriminate.
Qed.

(** A creation request that passes the checks, carries no logo and whose
    candidate slug is free is answered 201; exactly one record is appended,
    with that slug, and the stored hash verifies the 64-character token
    returned to the client. *)
Theorem createHandler_success (req : CreateQRRequest) (w : World) :
  contrastRejection Math_pow (req_options req) = None ->
  truthy (req_logo req) = None ->
  slug_taken (table w) (fst (Crypto.generateSlug (entropy w))) = false ->
  let out := createHandler sha256 Math_pow uploadLogo BASE_URL req w in
  exists (stored : QRRow) (data : CreateQRResponse),
    fst out = mkResponse 201 [] (Success data) /\
    table (snd out) = (table w ++ [stored])%list /\
    slug stored = fst (Crypto.generateSlug (entropy w)) /\
    res_slug data = slug stored /\ res_id data = id stored /\
    content stored = req_content req /\ mode stored = req_mode req /\
    String.length (res_editToken data) = 64%nat /\
    Crypto.verifyEditToken sha256 (res_editToken data)
      (ownerEditTokenHash stored) = true /\
    res_managementUrl data =
      BASE_URL ++ "/manage/" ++ slug stored ++ "?token=" ++ res_editToken data.
Proof.
  intros Hc Hl Hfree out. subst out.
  rewrite (createHandler_plain sha256 Math_pow uploadLogo BASE_URL req w Hc Hl).
  unfold issue.
  destruct (Crypto.generateSlug (entropy w)) as [candidate e1] eqn:Hslug.
  cbn [fst] in Hfree.
  pose proof (hashEditToken_verifies (fst (Crypto.generateEditToken e1))
                (snd (Crypto.generateEditToken e1))) as Hver.
  pose proof (generateEditToken_shape e1) as [Hlen _].
  destruct (Crypto.generateEditToken e1) as [editToken e2] eqn:Htok.
  cbn [fst snd] in Hver, Hlen.
  destruct (Crypto.hashEditToken sha256 editToken e2) as [editTokenHash e3] eqn:Hh.
  cbn [fst] in Hver.
  unfold prisma_create. cbn [Routes.slug table]. rewrite Hfree.
  cbn [fst snd table]. eexists. eexists.
  split; [reflexivity|]. split; [reflexivity|].
  cbn [Routes.slug id content mode ownerEditTokenHash res_slug res_id
       res_editToken res_managementUrl].
  repeat split; try reflexivity; assumption.
Qed.

End CreationMore.

Section StoreFacts.
Import Routes Store.

Lemma findById_update (rows : list QRCodeRecord) (i : string)
  (f : QRCodeRecord -> QRCodeRecord) (c : QRCodeRecord) :
  (forall x, id (row (f x)) = id (row x)) ->
  findById rows i = Some c ->
  findById (updateById rows i f) i = Some (f c).
Proof.
  intros Hf. unfold findById.
  induction rows as [|x rows IH]; cbn [find updateById]; [discriminate|].
  destruct (String.eqb (id (row x)) i) eqn:E.
  - intros H. injection H as ->. cbn [find]. now rewrite Hf, E.
  - intros H. cbn [find]. rewrite E. now apply IH.
Qed.

End StoreFacts.

Section ManagementFacts.
Import QRService Routes Store Management.

Variable Math_pow : Q -> Q -> Q.
Variable recentScans : list Scan -> string -> list Scan.
Variable deleteLogo : string -> Outcome unit.

(** The three checks let no request through: the call of the unbound
    [verifyEditToken] throws as soon as a token is presented for an
    existing record. *)
Lemma authorize_stops (db : DB) (i : string) (editToken : option string) :
  authorize db i editToken =
  inl match truthy editToken with
      | None => refuse 401 "Edit token required"
      | Some _ =>
          match findById (codes db) i with
          | None => refuse 404 "QR code not found"
          | Some _ => refuse 500 "Internal server error"
          end
      end.
Proof.
  unfold authorize.
  destruct (truthy editToken) as [token|]; [|reflexivity].
  now destruct (findById (codes db) i).
Qed.

(** The update, pause and delete routes never change the database and
    never succeed: a missing or empty token is answered 401, an unknown
    identifier 404, and a token presented for an existing record, right or
    wrong, 500 [Internal server error]. *)
Theorem management_routes_never_write (db : DB) (i : string)
  (header : option string) (updates : UpdateQRRequest) :
  let patch := patchHandler Math_pow db i header updates in
  let pause := pauseHandler db i header in
  let delete := deleteHandler deleteLogo db i header in
  (snd patch = db /\ snd pause = db /\ snd delete = db) /\
  (fst pause = fst patch /\ fst delete = fst patch) /\
  (truthy header = None ->
     fst patch = refuse 401 "Edit token required") /\
  (forall token, truthy header = Some token ->
     findById (codes db) i = None ->
     fst patch = refuse 404 "QR code not found") /\
  (forall token qrCode, truthy header = Some token ->
     findById (codes db) i = Some qrCode ->
     fst patch = refuse 500 "Internal server error" /\
     findById (codes (snd pause)) i = Some qrCode /\
     findById (codes (snd delete)) i = Some qrCode).
Proof.
  cbv zeta. unfold patchHandler, pauseHandler, deleteHandler.
  rewrite authorize_stops. cbn [fst snd].
  split; [now repeat split|]. split; [now split|].
  split; [now intros ->|].
  split; [now intros token -> ->|].
  now intros token qrCode -> ->.
Qed.

End ManagementFacts.

Section GetFacts.
Import QRService Routes Store Management.

Variable recentScans : list Scan -> string -> list Scan.

(** The metadata route never answers 200: without a token in the header or
    in the query it answers 401, for an unknown identifier 404, and for
    every existing record 500 [Internal server error], whatever the
    token. *)
Theorem getHandler_never_succeeds (db : DB) (i : string)
  (header query : option string) :
  let reply := getHandler recentScans db i header query in
  status reply <> 200%Z /\
  (truthy header = None -> truthy query = None ->
     reply = refuse 401 "Edit token required") /\
  (forall token,
     truthy header = Some token \/
     (truthy header = None /\ truthy query = Some token) ->
     (findById (codes db) i = None ->
        reply = refuse 404 "QR code not found") /\
     (forall qrCode, findById (codes db) i = Some qrCode ->
        reply = refuse 500 "Internal server error")).
Proof.
  cbv zeta. unfold getHandler. rewrite authorize_stops.
  set (editToken := match truthy header with Some t => Some t | None => query end).
  assert (Htok : forall token,
            truthy header = Some token \/
            (truthy header = None /\ truthy query = Some token) ->
            truthy editToken = Some token).
  { intros token. unfold editToken.
    destruct (truthy header) as [t|] eqn:Hh.
    - assert (truthy (Some t) = Some t) as ->.
      { destruct header as [[|c h]|]; try discriminate.
        cbn in Hh. injection Hh as <-. reflexivity. }
      intros [H | [H _]]; [exact H | discriminate].
    - intros [H | [_ H]]; [discriminate | exact H]. }
  split.
  - destruct (truthy editToken); [|discriminate].
    destruct (findById (codes db) i); discriminate.
  - split.
    + intros Hh Hq. unfold editToken. now rewrite Hh, Hq.
    + intros token Ht. rewrite (Htok token Ht).
      split; [now intros ->|]. now intros qrCode ->.
Qed.

End GetFacts.

Section EscapeFacts.
Import Redirect.

Lemma entity_safe (c : ascii) (e : string) :
  entity c = Some e ->
  Props.string_forall (fun x => negb (Props.is_markup x)) e = true /\
  Props.is_special c = true /\ (1 < String.length e)%nat.
Proof.
  unfold entity.
  destruct (Ascii.eqb c "&") eqn:E1.
  { apply Ascii.eqb_eq in E1. subst c. intros H. injection H as <-. repeat split; cbn; lia. }
  destruct (Ascii.eqb c "<") eqn:E2.
  { apply Ascii.eqb_eq in E2. subst c. intros H. injection H as <-. repeat split; cbn; lia. }
  destruct (Ascii.eqb c ">") eqn:E3.
  { apply Ascii.eqb_eq in E3. subst c. intros H. injection H as <-. repeat split; cbn; lia. }
  destruct (Ascii.eqb c "034") eqn:E4.
  { apply Ascii.eqb_eq in E4. subst c. intros H. injection H as <-. repeat split; cbn; lia. }
  destruct (Ascii.eqb c "'") eqn:E5; [|discriminate].
  apply Ascii.eqb_eq in E5. subst c. intros H. injection H as <-. repeat split; cbn; lia.
Qed.

Lemma entity_none (c : ascii) :
  entity c = None -> Props.is_special c = false /\ Props.is_markup c = false.
Proof.
  unfold entity, Props.is_special, Props.is_markup. cbn [Props.occurs append JS.dq].
  rewrite !(Ascii.eqb_sym _ c).
  destruct (Ascii.eqb c "&"); [discriminate|].
  destruct (Ascii.eqb c "<"); [discriminate|].
  destruct (Ascii.eqb c ">"); [discriminate|].
  destruct (Ascii.eqb c "034"); [discriminate|].
  destruct (Ascii.eqb c "'"); [discriminate|].
  intros _. split; reflexivity.
Qed.

(** The escaped text holds none of the characters [<], [>], double quote
    and single quote. *)
Theorem escapeHtml_no_markup (text : string) :
  Props.string_forall (fun c => negb (Props.is_markup c)) (escapeHtml text) = true.
Proof.
  induction text as [|c rest IH]; [reflexivity|].
  cbn [escapeHtml]. destruct (entity c) as [e|] eqn:E.
  - rewrite string_forall_append, IH.
    now destruct (entity_safe c e E) as [-> _].
  - cbn [Props.string_forall]. rewrite IH.
    now destruct (entity_none c E) as [_ ->].
Qed.

Lemma escapeHtml_length (text : string) :
  (String.length text <= String.length (escapeHtml text))%nat /\
  (Props.string_forall (fun c => negb (Props.is_special c)) text = false ->
   (String.length text < String.length (escapeHtml text))%nat).
Proof.
  induction text as [|c rest [IH1 IH2]]; [split; [cbn; lia | discriminate]|].
  cbn [escapeHtml Props.string_forall String.length].
  destruct (entity c) as [e|] eqn:E.
  - destruct (entity_safe c e E) as (_ & Hs & Hl).
    rewrite length_append. split; [lia|]. intros _. lia.
  - destruct (entity_none c E) as [Hs _]. rewrite Hs. cbn [negb andb String.length].
    split; [lia|]. intros H. specialize (IH2 H). lia.
Qed.

(** [escapeHtml] returns its argument exactly when none of the five
    characters occurs in it. *)
Theorem escapeHtml_identity_iff (text : string) :
  escapeHtml text = text <->
  Props.string_forall (fun c => negb (Props.is_special c)) text = true.
Proof.
  split.
  - intros H.
    destruct (Props.string_forall (fun c => negb (Props.is_special c)) text) eqn:E;
      [reflexivity|].
    destruct (escapeHtml_length text) as [_ Hl]. specialize (Hl E).
    rewrite H in Hl. lia.
  - induction text as [|c rest IH]; [reflexivity|].
    cbn [Props.string_forall escapeHtml]. intros H.
    apply andb_true_iff in H. destruct H as [Hc Hr].
    destruct (entity c) as [e|] eqn:E.
    + destruct (entity_safe c e E) as (_ & Hs & _). rewrite Hs in Hc. discriminate.
    + now rewrite (IH Hr).
Qed.

End EscapeFacts.

Section RedirectFacts.
Import Routes Store Redirect.

Variable sha256 : string -> list byte.
Variable IP_HASH_SALT : option string.

(** A scan of an unknown slug is answered 404 and records nothing. *)
Theorem redirectHandler_unknown (db : DB) (now : Z) (slug : string)
  (ip forwardedFor userAgent referer : option string) :
  findBySlug (codes db) slug = None ->
  redirectHandler sha256 IP_HASH_SALT db now slug ip forwardedFor userAgent referer
  = (Html 404 NotFoundPage, db).
Proof. intros H. unfold redirectHandler. now rewrite H. Qed.

(** A scan of a known slug appends exactly one scan of that record and
    adds one to its scan count, also when the record is paused and the reply
    is 410; without a client address the scan carries no address hash. *)
Theorem redirectHandler_counts (db : DB) (now : Z) (slug : string)
  (ip forwardedFor userAgent referer : option string) (qrCode : QRCodeRecord) :
  findBySlug (codes db) slug = Some qrCode ->
  findById (codes db) (id (row qrCode)) = Some qrCode ->
  let out :=
    redirectHandler sha256 IP_HASH_SALT db now slug ip forwardedFor userAgent
      referer in
  findById (codes (snd out)) (id (row qrCode)) =
    Some (mkQRCodeRecord (row qrCode) (active qrCode) (scanCount qrCode + 1)
            (Some now)) /\
  (exists scan, scans (snd out) = (scans db ++ [scan])%list /\
                qrcodeId scan = id (row qrCode) /\
                (truthy ip = None -> truthy forwardedFor = None ->
                 ipHash scan = None)) /\
  (active qrCode = false -> fst out = Html 410 PausedPage).
Proof.
  intros Hs Hi. cbv zeta. unfold redirectHandler. rewrite Hs.
  set (count := fun c : QRCodeRecord =>
         mkQRCodeRecord (row c) (active c) (scanCount c + 1) (Some now)).
  assert (Hdb : forall (r1 r2 : Reply) (d : DB),
            snd (if negb (active qrCode) then (r1, d)
                 else match mode (row qrCode) with
                      | REDIRECT => (r2, d)
                      | EMBED => (Html 200 (ContentPage (escapeHtml (content (row qrCode)))), d)
                      end) = d).
  { intros. destruct (negb (active qrCode)); [reflexivity|].
    destruct (mode (row qrCode)); reflexivity. }
  rewrite Hdb. cbn [codes scans]. split; [|split].
  - apply (findById_update (codes db) _ count qrCode); [reflexivity | exact Hi].
  - eexists. split; [reflexivity|]. split; [reflexivity|].
    cbn [ipHash]. intros H1 H2. rewrite H1, H2. reflexivity.
  - intros Ha. rewrite Ha. reflexivity.
Qed.

(** An active record in redirect mode is answered 302 to its content; in
    embed mode the page shows the escaped content, free of markup
    characters. *)
Theorem redirectHandler_active (db : DB) (now : Z) (slug : string)
  (ip forwardedFor userAgent referer : option string) (qrCode : QRCodeRecord) :
  findBySlug (codes db) slug = Some qrCode -> active qrCode = true ->
  let reply :=
    fst (redirectHandler sha256 IP_HASH_SALT db now slug ip forwardedFor
           userAgent referer) in
  (mode (row qrCode) = REDIRECT ->
     reply = Redirection 302 (content (row qrCode))) /\
  (mode (row qrCode) = EMBED ->
     exists shown,
       reply = Html 200 (ContentPage shown) /\
       shown = escapeHtml (content (row qrCode)) /\
       Props.string_forall (fun c => negb (Props.is_markup c)) shown = true).
Proof.
  intros Hs Ha. cbv zeta. unfold redirectHandler. rewrite Hs, Ha. cbn [negb].
  split; intros Hm; rewrite Hm; cbn [fst]; [reflexivity|].
  eexists. split; [reflexivity|]. split; [reflexivity|]. apply escapeHtml_no_markup.
Qed.

End RedirectFacts.

Section UploadFacts.
Import Upload.

Lemma plain_suffix_dot (a b : string) :
  plain_suffix (a ++ String "." b) = false.
Proof.
  induction a as [|c a IH]; [reflexivity|].
  cbn [append plain_suffix]. rewrite IH. now rewrite andb_false_r.
Qed.

(** The last extension is cut off: after any base name, a dot and a
    non-empty extension without dot or slash are removed, nothing else. *)
Theorem stripExtension_cuts_last (base ext : string) :
  ext <> EmptyString -> plain_suffix ext = true ->
  stripExtension (base ++ "." ++ ext) = base.
Proof.
  intros Hne Hp. induction base as [|c base IH].
  - cbn [append stripExtension]. destruct ext as [|x ext]; [congruence|].
    cbn [Ascii.eqb Bool.eqb andb]. now rewrite Hp.
  - cbn [append stripExtension]. cbn [append] in IH. rewrite IH.
    assert (Hrest : match base ++ String "." ext with
                    | EmptyString => false
                    | String _ _ => plain_suffix (base ++ String "." ext)
                    end = false).
    { rewrite (plain_suffix_dot base ext).
      now destruct (base ++ String "." ext). }
    rewrite Hrest. now rewrite andb_false_r.
Qed.

Lemma stripExtension_no_dot (s : string) :
  Props.occurs "." s = false -> stripExtension s = s.
Proof.
  induction s as [|c s IH]; [reflexivity|].
  cbn [Props.occurs stripExtension]. intros H. apply orb_false_iff in H.
  destruct H as [Hc Hs]. rewrite Hc. cbn [andb]. now rewrite (IH Hs).
Qed.

Variable uploadFile : string -> string -> string -> Outcome string.

(** An upload answered 200 had a file of at most 5 MB whose type is
    [image/jpeg], [image/png] or [image/webp]; it was stored under
    [temp/<timestamp>-<random>-<name>.<subtype>], the name being the file
    name without its last extension, and it expires 24 hours later. *)
Theorem uploadHandler_stored (now : Z) (timestamp random : string)
  (data : option File) :
  status (uploadHandler uploadFile now timestamp random data) = 200%Z ->
  exists (file : File) (name subtype url : string),
    data = Some file /\
    name =
      stripExtension
        (match filename file with
         | Some (String c f) => String c f
         | _ => "upload"
         end) /\
    (Z.of_nat (String.length (buffer file)) <= 5 * 1024 * 1024)%Z /\
    mimetype file = "image/" ++ subtype /\
    In subtype ["jpeg"; "png"; "webp"] /\
    uploadFile (buffer file)
      ("temp/" ++ timestamp ++ "-" ++ random ++ "-" ++ name ++ "." ++ subtype)
      (mimetype file) = Returned url /\
    uploadHandler uploadFile now timestamp random data =
      mkReply 200 (Stored url (now + 86400000)).
Proof.
  unfold uploadHandler. destruct data as [file|]; [|discriminate].
  unfold S3.validateFile.
  destruct (Z.gtb_spec (Z.of_nat (String.length (buffer file))) S3.maxSize)
    as [Hbig|Hsmall]; [discriminate|].
  destruct (S3.includes S3.allowedTypes (mimetype file)) eqn:Hty;
    cbn [negb S3.valid]; [|discriminate].
  assert (Hsub : exists subtype, mimetype file = "image/" ++ subtype /\
                                 In subtype ["jpeg"; "png"; "webp"] /\
                                 extensionOf (mimetype file) = subtype).
  { unfold S3.includes, S3.allowedTypes in Hty. cbn [existsb] in Hty.
    repeat (apply orb_true_iff in Hty; destruct Hty as [Hty|Hty]);
      try discriminate; apply String.eqb_eq in Hty; rewrite Hty.
    - exists "jpeg". cbn. tauto.
    - exists "png". cbn. tauto.
    - exists "webp". cbn. tauto. }
  destruct Hsub as (subtype & Hm & Hin & Hext). rewrite Hext.
  unfold S3.generateKey.
  match goal with
  | |- context [stripExtension ?f] => set (name := stripExtension f)
  end.
  destruct (uploadFile _ _ _) as [url|msg] eqn:Hup; [|discriminate].
  intros _. exists file, name, subtype, url.
  repeat split; try assumption; reflexivity.
Qed.

End UploadFacts.

(* ================================================================== *)
(** * The further properties on concrete inputs                         *)
(* ================================================================== *)

Section FurtherExamples.

Import QRService Routes.
Local Open Scope string_scope.

Lemma entropy_draws_in_unit (i : nat) :
  (i < 9)%nat ->
  (0 <= unit_draws Reference.entropy i /\ unit_draws Reference.entropy i < 1)%Q.
Proof.
  intros H. do 9 (destruct i as [|i]; [split; [discriminate | reflexivity]|]). lia.
Qed.

Lemma generateSlug_shape_witness :
  String.length (fst (Crypto.generateSlug Reference.entropy)) = 9%nat /\
  Props.string_forall Props.is_alnum (fst (Crypto.generateSlug Reference.entropy))
  = true.
Proof. exact (generateSlug_shape Reference.entropy entropy_draws_in_unit). Defined.

Lemma hashEditToken_fresh_salt_witness :
  fst (Crypto.hashEditToken Reference.sha256 "s3cret" Reference.entropy) <>
  fst (Crypto.hashEditToken Reference.sha256 "s3cret"
         (snd (Crypto.hashEditToken Reference.sha256 "s3cret" Reference.entropy))).
Proof.
  apply (hashEditToken_fresh_salt Reference.sha256 "s3cret" Reference.entropy).
  intros H. vm_compute in H. discriminate.
Defined.

Lemma verifyEditToken_only_wellformed_witness :
  exists salt hash rest : string,
    Samples.stored_hash = salt ++ ":" ++ hash ++ rest /\
    (rest = EmptyString \/ exists more, rest = ":" ++ more) /\
    salt <> EmptyString /\ hash <> EmptyString /\
    Spec.colon_free salt = true /\ Spec.colon_free hash = true /\
    hash = Crypto.toHex (Reference.sha256 (salt ++ "s3cret")).
Proof.
  apply (verifyEditToken_only_wellformed Reference.sha256 "s3cret"
           Samples.stored_hash).
  vm_compute. reflexivity.
Defined.

Lemma verifyEditToken_ignores_tail_witness :
  Crypto.verifyEditToken Reference.sha256 "s3cret" ("ab:cd:" ++ "zz:yy") =
  Crypto.verifyEditToken Reference.sha256 "s3cret" "ab:cd".
Proof.
  apply (verifyEditToken_ignores_tail Reference.sha256 "s3cret" "ab" "cd" "zz:yy");
    reflexivity.
Defined.

Lemma verifyEditToken_accepts_iff_digest_witness :
  Crypto.verifyEditToken Reference.sha256 "guess"
    (fst (Crypto.hashEditToken Reference.sha256 "s3cret" Reference.entropy)) = true
  <-> Reference.sha256 ("0b30557a9fc4e90e33587da2c7ec1136" ++ "guess") =
      Reference.sha256 ("0b30557a9fc4e90e33587da2c7ec1136" ++ "s3cret").
Proof.
  exact (verifyEditToken_accepts_iff_digest Reference.sha256 sha256_length
           "s3cret" "guess" Reference.entropy).
Defined.

Lemma hashIP_default_salt_witness :
  Crypto.hashIP Reference.sha256 None "203.0.113.7" =
  Crypto.toHex (Reference.sha256 "203.0.113.7undefined").
Proof.
  exact (proj1 (hashIP_default_salt Reference.sha256 None "203.0.113.7") eq_refl).
Defined.

Lemma applyRoundedCorners_without_rect_witness :
  applyRoundedCorners "<svg><path d='M4 4h7v7H4z'/></svg>" =
  "<svg><path d='M4 4h7v7H4z'/></svg>".
Proof. apply applyRoundedCorners_without_rect. reflexivity. Defined.

Lemma validateContrast_ratio_at_least_one_witness :
  (exists rho,
     ratio (validateContrast Reference.Math_pow "#336699" "#FFFFFF") = Some rho /\
     (1 <= rho)%Q) /\
  (exists rho,
     validateContrast Reference.Math_pow "#336699" "#336699" =
     mkContrastResult false (Some rho) /\ (rho == 1)%Q).
Proof.
  exact (validateContrast_ratio_at_least_one Reference.Math_pow ref_pow_nonneg
           "#336699" "#FFFFFF" (mkRGB 51 102 153) (mkRGB 255 255 255)
           eq_refl eq_refl).
Defined.

Lemma rgb_channels_witness :
  Props.is_channel 255 /\ Props.is_channel 160 /\ Props.is_channel 177.
Proof. exact (rgb_channels "#FfA0b1" (mkRGB 255 160 177) eq_refl). Defined.



Lemma compositeLogo_default_scale_witness :
  compositeLogo Reference.fetch (RawBuffer "qr")
    (mkQROptions 512 None None None false None None)
    "https://cdn.example/logos/logo.png" =
  compositeLogo Reference.fetch (RawBuffer "qr")
    (mkQROptions 512 None None None false (Some 0.2%Q) None)
    "https://cdn.example/logos/logo.png".
Proof.
  apply (compositeLogo_default_scale Reference.fetch (RawBuffer "qr")
           (mkQROptions 512 None None None false None None)).
  left. reflexivity.
Defined.

Lemma createHandler_contrast_blocks_witness :
  exists rho,
    createHandler Reference.sha256 Reference.Math_pow Reference.uploadLogo
      "https://qr.example" Samples.grey_request Reference.world =
    (fail 400 (ContrastTooLow (Some rho)), Reference.world).
Proof.
  eexists.
  refine (createHandler_contrast_blocks Reference.sha256 Reference.Math_pow
            Reference.uploadLogo "https://qr.example" Samples.grey_request
            Reference.world _ "#777777" "#888888" eq_refl eq_refl eq_refl _).
  vm_compute. reflexivity.
Defined.

Lemma createHandler_success_witness :
  exists (stored : QRRow) (data : CreateQRResponse),
    fst (createHandler Reference.sha256 Reference.Math_pow Reference.uploadLogo
           "https://qr.example" Reference.request Samples.fresh_world) =
      mkResponse 201 [] (Success data) /\
    table (snd (createHandler Reference.sha256 Reference.Math_pow
                  Reference.uploadLogo "https://qr.example" Reference.request
                  Samples.fresh_world)) = [stored] /\
    slug stored = "DNYit3EOZ" /\
    Crypto.verifyEditToken Reference.sha256 (res_editToken data)
      (ownerEditTokenHash stored) = true.
Proof.
  destruct (createHandler_success Reference.sha256 Reference.Math_pow
              Reference.uploadLogo "https://qr.example" sha256_length
              Reference.request Samples.fresh_world eq_refl eq_refl eq_refl)
    as (stored & data & H1 & H2 & H3 & _ & _ & _ & _ & _ & H9 & _).
  exists stored, data. repeat split; assumption.
Defined.

End FurtherExamples.

Section ManagementExamples.

Import QRService Routes Store Management.
Local Open Scope string_scope.

(** [s3cret] is the token of the sample records as far as the crypto
    utilities are concerned. *)
Example s3cret_matches_stored_hash :
  Crypto.verifyEditToken Reference.sha256 "s3cret" Samples.stored_hash = true.
Proof. vm_compute. reflexivity. Qed.

Lemma management_routes_never_write_witness :
  pauseHandler Samples.db "id-1" (Some "s3cret") =
    (refuse 500 "Internal server error", Samples.db) /\
  deleteHandler Samples.deleteLogo Samples.db "id-1" (Some "s3cret") =
    (refuse 500 "Internal server error", Samples.db) /\
  patchHandler Reference.Math_pow Samples.db "id-1" (Some "s3cret")
    Samples.new_content = (refuse 500 "Internal server error", Samples.db).
Proof.
  destruct (management_routes_never_write Reference.Math_pow Samples.deleteLogo
              Samples.db "id-1" (Some "s3cret") Samples.new_content)
    as ((D1 & D2 & D3) & (R2 & R3) & _ & _ & H).
  destruct (H "s3cret" Samples.embedded eq_refl eq_refl) as (R1 & _).
  repeat split; apply injective_projections; cbn [fst snd];
    congruence.
Defined.

Lemma getHandler_never_succeeds_witness :
  getHandler Samples.recentScans Samples.db "id-1" None (Some "s3cret") =
    refuse 500 "Internal server error" /\
  getHandler Samples.recentScans Samples.db "id-9" (Some "s3cret") None =
    refuse 404 "QR code not found" /\
  getHandler Samples.recentScans Samples.db "id-1" None None =
    refuse 401 "Edit token required".
Proof.
  split; [|split].
  - exact (proj2 (proj2 (proj2 (getHandler_never_succeeds Samples.recentScans
                                  Samples.db "id-1" None (Some "s3cret")))
                    "s3cret" (or_intror (conj eq_refl eq_refl)))
             Samples.embedded eq_refl).
  - exact (proj1 (proj2 (proj2 (getHandler_never_succeeds Samples.recentScans
                                  Samples.db "id-9" (Some "s3cret") None))
                    "s3cret" (or_introl eq_refl))
             eq_refl).
  - exact (proj1 (proj2 (getHandler_never_succeeds Samples.recentScans
                           Samples.db "id-1" None None)) eq_refl eq_refl).
Defined.

End ManagementExamples.

Section RedirectExamples.

Import Routes Store Redirect.
Local Open Scope string_scope.

Lemma redirectHandler_counts_witness :
  fst (redirectHandler Reference.sha256 None Samples.db 1700000000000
         "ju5FQalv6" None None (Some "curl/8") None) = Html 410 PausedPage /\
  findById (codes (snd (redirectHandler Reference.sha256 None Samples.db
                          1700000000000 "ju5FQalv6" None None (Some "curl/8")
                          None))) "id-2" =
    Some (mkQRCodeRecord (row Samples.paused) false 1 (Some 1700000000000%Z)).
Proof.
  destruct (redirectHandler_counts Reference.sha256 None Samples.db
              1700000000000 "ju5FQalv6" None None (Some "curl/8") None
              Samples.paused eq_refl eq_refl) as (H1 & _ & H3).
  split; [exact (H3 eq_refl) | exact H1].
Defined.

Lemma redirectHandler_active_witness :
  fst (redirectHandler Reference.sha256 None Samples.db 1700000000000
         "DNYit3EOZ" (Some "203.0.113.7") None None None) =
  Html 200 (ContentPage "&lt;b&gt;Tom &amp; Jerry&lt;/b&gt;").
Proof.
  destruct (proj2 (redirectHandler_active Reference.sha256 None Samples.db
                     1700000000000 "DNYit3EOZ" (Some "203.0.113.7") None None
                     None Samples.embedded eq_refl eq_refl) eq_refl)
    as (shown & H1 & H2 & _).
  rewrite H1, H2. reflexivity.
Defined.

End RedirectExamples.

Section UploadExamples.

Import Upload.
Local Open Scope string_scope.

Lemma stripExtension_cuts_last_witness :
  stripExtension ("holiday.photo" ++ "." ++ "png") = "holiday.photo".
Proof. apply stripExtension_cuts_last; [discriminate | reflexivity]. Defined.

Lemma uploadHandler_stored_witness :
  exists url,
    uploadHandler Samples.uploadFile 1700000000000 "1700000000000" "k3j9x"
      (Some Samples.picture) = mkReply 200 (Stored url 1700086400000) /\
    Samples.uploadFile (buffer Samples.picture)
      "temp/1700000000000-k3j9x-holiday.photo.png" "image/png" = Returned url.
Proof.
  destruct (uploadHandler_stored Samples.uploadFile 1700000000000
              "1700000000000" "k3j9x" (Some Samples.picture) eq_refl)
    as (file & name & subtype & url & Hd & Hn & _ & Hm & _ & Hup & Hr).
  injection Hd as <-. exists url. split; [exact Hr|].
  assert (subtype = "png") as -> by (cbn in Hm; now injection Hm).
  subst name. exact Hup.
Defined.

End UploadExamples.
